(** * Kokoro converters: queue runner, work queue and settings store

    A shallow embedding of the two desktop applications of the repository,

    - [kokoro_converter.py] (class [PDFConverterApp]): the PDF work queue,
      the background queue runner with its pause and stop flags, and the
      settings file [settings.json];
    - [kokoro_tts_app.py] (class [KokoroTTSApp]): the settings file
      [kokoro-settings.json] and the output-format / ffmpeg guard.

    Python objects are modelled as records, [self.pdf_queue] as a list that
    is read and updated by index, the file system as a finite set of paths,
    exceptions as a result type, and the two threads (Tk main loop and the
    conversion thread) as an interleaving of atomic steps. *)

From Stdlib Require Import Ascii String QArith Sorted.
From stdpp Require Import base gmap strings pretty list sorting.

Open Scope string_scope.
Open Scope list_scope.

(** ** Python values and library calls shared by both programs *)

Module Py.

(** The exceptions that the modelled code can raise. *)
Inductive exn :=
| IndexError
| AttributeError
| TypeError
| JSONDecodeError
| UnicodeDecodeError
| OSError.

(** A call either returns a value or raises. *)
Inductive result (A : Type) :=
| Ok (a : A)
| Raises (e : exn).
Arguments Ok {A} a.
Arguments Raises {A} e.

Definition bind {A B} (r : result A) (k : A -> result B) : result B :=
  match r with
  | Ok a => k a
  | Raises e => Raises e
  end.

(** [s.startswith(p)] and [s.endswith(p)]. *)
Definition startswith (s p : string) : bool := String.prefix p s.

Definition endswith (s p : string) : bool :=
  let n := String.length s in
  let m := String.length p in
  (m <=? n)%nat && String.eqb (String.substring (n - m) m s) p.

(** [p in s] for two strings: the substring test. *)
Fixpoint contains (s p : string) : bool :=
  String.prefix p s ||
  match s with
  | EmptyString => false
  | String _ s' => contains s' p
  end.

(** [c.lower()] on the ASCII letters.  Strings are sequences of bytes
    (UTF-8); no character outside ASCII lowers to one of [.], [p], [d],
    [f], so the suffix test of [find_pdfs] is not affected by the bytes
    left unchanged. *)
Definition lower_ascii (c : ascii) : ascii :=
  let n := nat_of_ascii c in
  if (65 <=? n)%nat && (n <=? 90)%nat then ascii_of_nat (n + 32) else c.

Fixpoint lower (s : string) : string :=
  match s with
  | EmptyString => EmptyString
  | String c s' => String (lower_ascii c) (lower s')
  end.

(** [os.path.join(a, b)] of [posixpath]. *)
Definition os_path_join (a b : string) : string :=
  if startswith b "/" then b
  else if String.eqb a "" || endswith a "/" then a +:+ b
  else a +:+ "/" +:+ b.

(** [s.rfind(c) + 1]: the position after the last occurrence of the
    character [c], [0] when there is none. *)
Fixpoint rfind_succ (c : ascii) (s : string) : nat :=
  match s with
  | EmptyString => 0
  | String d s' =>
      match rfind_succ c s' with
      | O => if Ascii.eqb c d then 1 else 0
      | S k => S (S k)
      end
  end.

(** [s.rstrip(c)] for one character [c]. *)
Fixpoint rstrip_char (c : ascii) (s : string) : string :=
  match s with
  | EmptyString => EmptyString
  | String d s' =>
      match rstrip_char c s' with
      | EmptyString => if Ascii.eqb c d then EmptyString else String d EmptyString
      | r => String d r
      end
  end.

Definition slash : ascii := "/"%char.
Definition dot : ascii := "."%char.

(** [os.path.basename(p)] of [posixpath]: [p[p.rfind('/')+1:]]. *)
Definition os_path_basename (p : string) : string :=
  let i := rfind_succ slash p in
  String.substring i (String.length p - i) p.

(** [os.path.dirname(p)] of [posixpath]: the head [p[:i]], with its
    trailing slashes removed unless it consists of slashes only. *)
Definition os_path_dirname (p : string) : string :=
  let i := rfind_succ slash p in
  let head := String.substring 0 i p in
  match rstrip_char slash head with
  | EmptyString => head
  | stripped => stripped
  end.

(** The loop of [genericpath._splitext]: is there a character other than
    a dot in [s[from:upto]]? *)
Fixpoint has_non_dot (s : string) (from upto : nat) : bool :=
  match s with
  | EmptyString => false
  | String c s' =>
      match upto with
      | O => false
      | S upto' =>
          match from with
          | O => negb (Ascii.eqb c dot) || has_non_dot s' 0 upto'
          | S from' => has_non_dot s' from' upto'
          end
      end
  end.

(** [os.path.splitext(p)[0]] of [posixpath]. *)
Definition os_path_splitext_root (p : string) : string :=
  let sep_succ := rfind_succ slash p in
  let dot_succ := rfind_succ dot p in
  if (sep_succ <? dot_succ)%nat && has_non_dot p sep_succ (dot_succ - 1)
  then String.substring 0 (dot_succ - 1) p
  else p.

(** [l.insert(i, x)] for [i >= 0]: beyond the end it appends. *)
Definition list_insert_at {A} (i : nat) (x : A) (l : list A) : list A :=
  take i l ++ x :: drop i l.

(** [l.pop(i)] for [i >= 0]: raises [IndexError] out of range. *)
Definition list_pop {A} (i : nat) (l : list A) : result (A * list A) :=
  match l !! i with
  | Some x => Ok (x, delete i l)
  | None => Raises IndexError
  end.

End Py.

Export Py.

(** ** What a settings file can hold

    [json.load] is a library call: the embedding starts from its result.
    A file is missing; or it is there and cannot be read as text: [open]
    raises [OSError] (a directory of that name, a file without read
    permission), or its bytes do not decode and reading raises
    [UnicodeDecodeError]; or its text is not JSON, and [json.load] raises
    [JSONDecodeError]; or it holds a JSON value that is not an object; or
    it holds an object.  Objects are modelled by one record
    per program (each key absent or present with the type that
    [save_settings] writes; other keys are ignored by both loaders). *)

Module Json.

(** JSON values other than objects.  Of an array only its string elements
    matter to the code ([key in settings] compares with a string); any
    other element is [None]. *)
Inductive NonObject :=
| JNull
| JBool (b : bool)
| JNum (q : Q)
| JStr (s : string)
| JArr (elems : list (option string)).

Inductive ReadError := CannotOpen | CannotDecode.

Definition read_error (e : ReadError) : exn :=
  match e with
  | CannotOpen => OSError
  | CannotDecode => UnicodeDecodeError
  end.

Inductive SettingsFile (Doc : Type) :=
| Missing
| Unreadable (e : ReadError)
| Unparseable
| NotAnObject (j : NonObject)
| Object (d : Doc).
Arguments Missing {Doc}.
Arguments Unreadable {Doc} e.
Arguments Unparseable {Doc}.
Arguments NotAnObject {Doc} j.
Arguments Object {Doc} d.

(** [key in settings] for a value that is not an object: membership in a
    list, the substring test on a string, [TypeError] otherwise. *)
Definition key_in (key : string) (j : NonObject) : result bool :=
  match j with
  | JArr elems => Ok (existsb (fun e => match e with
                                        | Some s => String.eqb s key
                                        | None => false
                                        end) elems)
  | JStr s => Ok (contains s key)
  | JNull | JBool _ | JNum _ => Raises TypeError
  end.

End Json.

Export Json.

(** ** kokoro_converter.py: [PDFConverterApp] *)

Module Converter.

(** An entry of [self.pdf_queue]: the dict
    [{"status": ..., "path": ..., "filename": ...}]. *)
Record Job := {
  status : string;
  path : string;
  filename : string
}.

Definition set_status (s : string) (item : Job) : Job :=
  {| status := s; path := path item; filename := filename item |}.

(** The attributes of [PDFConverterApp] that the modelled methods read or
    write.  [tts_loaded] is [self.tts_engine and self.tts_engine.model];
    [console] is the text of the log console, one line per entry. *)
Record App := {
  pdf_queue : list Job;
  destination_folder : string;
  is_running : bool;
  is_paused : bool;
  selected_tts_model : string;
  selected_voice : string;
  speaker_wav_path : string;
  optimize_mp3 : bool;
  tts_loaded : bool;
  console : list string
}.

Definition with_queue (q : list Job) (a : App) : App :=
  {| pdf_queue := q;
     destination_folder := destination_folder a;
     is_running := is_running a;
     is_paused := is_paused a;
     selected_tts_model := selected_tts_model a;
     selected_voice := selected_voice a;
     speaker_wav_path := speaker_wav_path a;
     optimize_mp3 := optimize_mp3 a;
     tts_loaded := tts_loaded a;
     console := console a |}.

Definition with_flags (running paused : bool) (a : App) : App :=
  {| pdf_queue := pdf_queue a;
     destination_folder := destination_folder a;
     is_running := running;
     is_paused := paused;
     selected_tts_model := selected_tts_model a;
     selected_voice := selected_voice a;
     speaker_wav_path := speaker_wav_path a;
     optimize_mp3 := optimize_mp3 a;
     tts_loaded := tts_loaded a;
     console := console a |}.

Definition with_optimize (b : bool) (a : App) : App :=
  {| pdf_queue := pdf_queue a;
     destination_folder := destination_folder a;
     is_running := is_running a;
     is_paused := is_paused a;
     selected_tts_model := selected_tts_model a;
     selected_voice := selected_voice a;
     speaker_wav_path := speaker_wav_path a;
     optimize_mp3 := b;
     tts_loaded := tts_loaded a;
     console := console a |}.

(** [self.log(message)]. *)
Definition log (message : string) (a : App) : App :=
  {| pdf_queue := pdf_queue a;
     destination_folder := destination_folder a;
     is_running := is_running a;
     is_paused := is_paused a;
     selected_tts_model := selected_tts_model a;
     selected_voice := selected_voice a;
     speaker_wav_path := speaker_wav_path a;
     optimize_mp3 := optimize_mp3 a;
     tts_loaded := tts_loaded a;
     console := console a ++ [message] |}.

(** The run state of the specification, read off the two flags. *)
Inductive RunState := Idle | Running | Paused.

Definition run_state (a : App) : RunState :=
  if is_running a then (if is_paused a then Paused else Running) else Idle.

(** *** The work queue *)

(** [any(item["path"] == file_path for item in self.pdf_queue)] *)
Definition in_queue (file_path : string) (q : list Job) : bool :=
  existsb (fun item => String.eqb (path item) file_path) q.

(** The body of the inner loop of [find_pdfs] for one [file] of
    [root_dir]: the queue and the counter [added_files]. *)
Definition add_file (root_dir file : string) (acc : list Job * nat)
  : list Job * nat :=
  if endswith (lower file) ".pdf" then
    let file_path := os_path_join root_dir file in
    if negb (in_queue file_path (fst acc)) then
      (fst acc ++ [{| status := "Pending"; path := file_path; filename := file |}],
       S (snd acc))
    else acc
  else acc.

(** The two loops of [find_pdfs] over [os.walk(directory)], given as the
    list of its [(root_dir, files)] entries. *)
Definition scan (walk : list (string * list string)) (acc : list Job * nat)
  : list Job * nat :=
  foldl (fun acc entry =>
           foldl (fun acc file => add_file (fst entry) file acc) acc (snd entry))
        acc walk.

(** [find_pdfs]: [directory] is the answer of the folder dialog (empty
    when cancelled). *)
Definition find_pdfs (directory : string) (walk : list (string * list string))
    (a : App) : App :=
  if String.eqb directory "" then a
  else
    let r := scan walk (pdf_queue a, 0) in
    if (0 <? snd r)%nat then
      log ("Added " +:+ pretty (snd r) +:+ " new PDF(s) from " +:+ directory)
          (with_queue (fst r) a)
    else
      log ("No new PDF files found in " +:+ directory) (with_queue (fst r) a).

(** [self.pdf_queue.insert(new_index, self.pdf_queue.pop(index))] under
    the bounds test of [move_item]. *)
Definition move (index : nat) (direction : Z) (q : list Job)
  : result (list Job) :=
  let new_index := (Z.of_nat index + direction)%Z in
  if ((0 <=? new_index)%Z && (new_index <? Z.of_nat (length q))%Z)%bool then
    bind (list_pop index q) (fun popped =>
      Ok (list_insert_at (Z.to_nat new_index) (fst popped) (snd popped)))
  else Ok q.

(** [move_item]: [selected] is the index of the focused row, if any. *)
Definition move_item (selected : option nat) (direction : Z) (a : App)
  : result App :=
  match selected with
  | None => Ok (log "No item selected to move." a)
  | Some index =>
      bind (move index direction (pdf_queue a)) (fun q => Ok (with_queue q a))
  end.

(** [delete_selected_pdfs] after the confirmation: the indices are
    deleted from the largest to the smallest.  [sorted_desc] is
    [sorted(..., reverse=True)]. *)
Definition delete_indices (sorted_desc : list nat) (q : list Job) : list Job :=
  foldl (fun q index => delete index q) q sorted_desc.

(** *** The queue runner

    [process_queue] runs on its own thread; the Tk main loop runs the
    button callbacks.  The embedding cuts [process_queue] at the points
    where it reads the flags written by the callbacks; between two such
    points the callbacks may run. *)

(** How the external calls made for one job behave: [fitz] text
    extraction, [tts_engine.tts] (which, when it raises, may leave a
    partial file at the path it was writing), [shutil.which("ffmpeg")]
    and the [ffmpeg] process (which, when it fails, may leave a partial
    file at its output path). *)
Inductive SynthResult :=
| SynthOk
| SynthRaises (partial_file : bool).

Inductive EncodeResult :=
| EncodeOk
| EncodeRaises (partial_file : bool).

Record Outcome := {
  extract_ok : bool;
  synth : SynthResult;
  ffmpeg_found : bool;
  encode : EncodeResult
}.

(** What the runner does to a job, in the order it does it.  The index is
    that of the job being processed. *)
Inductive Effect :=
| SetStatus (i : nat) (s : string)
| Extract (i : nat)
| Synthesize (i : nat)
| Encode (i : nat)
| Rename (i : nat)
| Remove (i : nat) (p : string).

Definition effect_job (e : Effect) : nat :=
  match e with
  | SetStatus i _ | Extract i | Synthesize i | Encode i | Rename i
  | Remove i _ => i
  end.

(** Where the conversion thread is.  [LoopHead k]: at the top of the
    [for] loop with [k] indices left, the next one being [k - 1] (line
    405).  [PauseWait i]: in the [while self.is_paused] loop of index [i]
    (lines 406-408).  [Fetch i]: at [item = self.pdf_queue[i]] (line 410).
    [InTry i]: inside the [try] block of index [i], status already
    "Processing" (lines 416-450).  [AfterLoop]: line 458.  [Exited]: no
    conversion thread is alive. *)
Inductive Pc :=
| LoopHead (k : nat)
| PauseWait (i : nat)
| Fetch (i : nat)
| InTry (i : nat)
| AfterLoop
| Exited.

(** The application, the files on disk, the conversion thread with its
    local variable [temp_output_path] ([None] while unbound), the
    [root.after(0, self.stop_conversion)] callbacks not yet run, and the
    effects so far. *)
Record World := {
  app : App;
  files : gset string;
  worker : Pc;
  temp_output_path : option string;
  pending_stop : nat;
  trace : list Effect
}.

Definition with_app (a : App) (w : World) : World :=
  {| app := a; files := files w; worker := worker w;
     temp_output_path := temp_output_path w;
     pending_stop := pending_stop w; trace := trace w |}.

Definition goto (pc : Pc) (w : World) : World :=
  {| app := app w; files := files w; worker := pc;
     temp_output_path := temp_output_path w;
     pending_stop := pending_stop w; trace := trace w |}.

Definition with_files (fs : gset string) (w : World) : World :=
  {| app := app w; files := fs; worker := worker w;
     temp_output_path := temp_output_path w;
     pending_stop := pending_stop w; trace := trace w |}.

Definition bind_temp (p : string) (w : World) : World :=
  {| app := app w; files := files w; worker := worker w;
     temp_output_path := Some p;
     pending_stop := pending_stop w; trace := trace w |}.

Definition emit (e : Effect) (w : World) : World :=
  {| app := app w; files := files w; worker := worker w;
     temp_output_path := temp_output_path w;
     pending_stop := pending_stop w; trace := trace w ++ [e] |}.

(** [item["status"] = s] for the item at index [i]. *)
Definition mark (i : nat) (s : string) (w : World) : World :=
  emit (SetStatus i s)
    (with_app (with_queue (alter (set_status s) i (pdf_queue (app w))) (app w)) w).

Definition say (message : string) (w : World) : World :=
  with_app (log message (app w)) w.

Section Runner.

(** Line 425: the folder name with every character dropped that is
    neither alphanumeric ([str.isalnum], which follows the Unicode
    tables) nor a space nor an underscore, then right-stripped. *)
Variable sanitize : string -> string.

(** Lines 424-429. *)
Definition base_filename (item : Job) : string :=
  sanitize (os_path_basename (os_path_dirname (path item)))
    +:+ "_" +:+ os_path_splitext_root (filename item).

Definition temp_path (dest : string) (item : Job) : string :=
  os_path_join dest (base_filename item +:+ "_temp.mp3").

Definition final_path (dest : string) (item : Job) : string :=
  os_path_join dest (base_filename item +:+ ".mp3").

(** The [except] clause, lines 451-455.  The logged line ends with the
    text of the exception, which is left out here. *)
Definition on_exception (i : nat) (item : Job) (w : World) : World :=
  let w := say ("ERROR processing " +:+ filename item) (mark i "Error" w) in
  match temp_output_path w with
  | Some p =>
      if bool_decide (p ∈ files w)
      then emit (Remove i p) (with_files (files w ∖ {[p]}) w)
      else w
  | None => w
  end.

(** The [try] block after the status has been set, lines 418-450. *)
Definition try_block (ext : Outcome) (i : nat) (item : Job) (w : World)
  : World :=
  let w := emit (Extract i)
             (say ("Extracting text from " +:+ filename item +:+ "...") w) in
  if negb (extract_ok ext) then on_exception i item w
  else
    let w := say "Text extraction complete." w in
    let tmp := temp_path (destination_folder (app w)) item in
    let fin := final_path (destination_folder (app w)) item in
    let w := emit (Synthesize i) (bind_temp tmp w) in
    match synth ext with
    | SynthRaises partial_file =>
        on_exception i item
          (if partial_file then with_files (files w ∪ {[tmp]}) w else w)
    | SynthOk =>
        let w := with_files (files w ∪ {[tmp]}) w in
        if optimize_mp3 (app w) && ffmpeg_found ext then
          let w := emit (Encode i)
                     (say "Optimizing MP3 for fast opening with FFmpeg..." w) in
          match encode ext with
          | EncodeRaises partial_file =>
              on_exception i item
                (if partial_file then with_files (files w ∪ {[fin]}) w else w)
          | EncodeOk =>
              let w := with_files (files w ∪ {[fin]}) w in
              let w := emit (Remove i tmp) (with_files (files w ∖ {[tmp]}) w) in
              let w := say "Optimization complete." w in
              say ("Successfully converted " +:+ filename item)
                  (mark i "Complete" w)
          end
        else
          let w := emit (Rename i)
                     (with_files (files w ∖ {[tmp]} ∪ {[fin]}) w) in
          say ("Successfully converted " +:+ filename item)
              (mark i "Complete" w)
    end.

(** [stop_conversion]. *)
Definition stop_conversion (a : App) : App :=
  if negb (is_running a) then a
  else log "Conversion process stopped by user." (with_flags false false a).

(** [pause_resume_conversion]. *)
Definition pause_resume_conversion (a : App) : App :=
  let a := with_flags (is_running a) (negb (is_paused a)) a in
  if is_paused a then log "Conversion paused." a
  else log "Conversion resumed." a.

(** The checks of [start_conversion] that end in a warning dialog, lines
    348-358. *)
Definition start_rejected (a : App) : bool :=
  negb (tts_loaded a)
  || (contains (selected_tts_model a) "VCTK" && String.eqb (selected_voice a) "")
  || (contains (selected_tts_model a) "XTTS" && String.eqb (speaker_wav_path a) "").

(** One step of the conversion thread, up to its next read of a flag;
    [ext] is the behaviour of the external calls made in that step. *)
Definition worker_step (ext : Outcome) (w : World) : World :=
  match worker w with
  | LoopHead 0 => goto AfterLoop w
  | LoopHead (S i) =>
      if negb (is_running (app w)) then goto AfterLoop w
      else goto (PauseWait i) w
  | PauseWait i =>
      if is_paused (app w) then
        if negb (is_running (app w)) then goto (Fetch i) w
        else w
      else goto (Fetch i) w
  | Fetch i =>
      match pdf_queue (app w) !! i with
      | None => goto Exited w
      | Some item =>
          if String.eqb (status item) "Complete" then goto (LoopHead i) w
          else goto (InTry i)
                 (mark i "Processing" (say ("Processing: " +:+ filename item) w))
      end
  | InTry i =>
      match pdf_queue (app w) !! i with
      | None => goto Exited w
      | Some item => goto (LoopHead i) (try_block ext i item w)
      end
  | AfterLoop =>
      if is_running (app w) then
        goto Exited
          {| app := log "All tasks completed." (app w);
             files := files w; worker := worker w;
             temp_output_path := temp_output_path w;
             pending_stop := S (pending_stop w); trace := trace w |}
      else goto Exited w
  | Exited => w
  end.

(** What the Tk main loop can run between two steps of the thread: the
    three buttons, the "Optimize MP3" checkbox, and a callback queued
    with [root.after]. *)
Inductive UiEvent :=
| Start
| Stop
| PauseResume
| SetOptimize (b : bool)
| AfterCallback.

Inductive Event :=
| Ui (e : UiEvent)
| Worker (ext : Outcome).

(** [start_conversion].  This embedding follows one conversion thread:
    starting a second one while an earlier thread is still alive (after a
    Stop that the earlier thread has not yet seen) is outside it, and
    gives [None]; [Pool] below follows every thread. *)
Definition start_conversion (w : World) : option World :=
  if start_rejected (app w) then Some w
  else if is_running (app w) then Some w
  else
    match worker w with
    | Exited =>
        Some {| app := log "Conversion process started."
                         (with_flags true false (app w));
                files := files w;
                worker := LoopHead (length (pdf_queue (app w)));
                temp_output_path := None;
                pending_stop := pending_stop w;
                trace := trace w |}
    | _ => None
    end.

Definition ui_step (e : UiEvent) (w : World) : option World :=
  match e with
  | Start => start_conversion w
  | Stop => Some (with_app (stop_conversion (app w)) w)
  | PauseResume => Some (with_app (pause_resume_conversion (app w)) w)
  | SetOptimize b => Some (with_app (with_optimize b (app w)) w)
  | AfterCallback =>
      match pending_stop w with
      | O => Some w
      | S n =>
          Some {| app := stop_conversion (app w);
                  files := files w; worker := worker w;
                  temp_output_path := temp_output_path w;
                  pending_stop := n; trace := trace w |}
      end
  end.

Definition step (e : Event) (w : World) : option World :=
  match e with
  | Ui u => ui_step u w
  | Worker ext => Some (worker_step ext w)
  end.

(** A schedule: the callbacks and thread steps in the order they run. *)
Fixpoint exec (sched : list Event) (w : World) : option World :=
  match sched with
  | [] => Some w
  | e :: sched' =>
      match step e w with
      | Some w' => exec sched' w'
      | None => None
      end
  end.

End Runner.

(** The indices at which a schedule set a status to "Processing": the
    jobs attempted, in the order of the attempts. *)
Fixpoint attempts (tr : list Effect) : list nat :=
  match tr with
  | [] => []
  | SetStatus i s :: tr' =>
      if String.eqb s "Processing" then i :: attempts tr' else attempts tr'
  | _ :: tr' => attempts tr'
  end.

(** The indices below [k] of the jobs that are not "Complete", from the
    largest to the smallest. *)
Fixpoint pending_below (k : nat) (q : list Job) : list nat :=
  match k with
  | O => []
  | S i =>
      match q !! i with
      | Some item =>
          if String.eqb (status item) "Complete" then pending_below i q
          else i :: pending_below i q
      | None => pending_below i q
      end
  end.

(** *** The settings file [settings.json] *)

(** A JSON object as [load_settings] reads it: each of the six keys of
    [save_settings] is absent or present. *)
Record SettingsDoc := {
  doc_pdf_queue : option (list Job);
  doc_destination_folder : option string;
  doc_selected_voice : option string;
  doc_speaker_wav_path : option string;
  doc_selected_tts_model : option string;
  doc_optimize_mp3 : option bool
}.

Definition available_tts_models : list (string * string) :=
  [("VCTK (Multi-Voice)", "tts_models/en/vctk/vits");
   ("XTTS-v2 (High Quality)", "tts_models/multilingual/multi-dataset/xtts_v2")].

(** [list(self.available_tts_models.keys())[0]] *)
Definition first_model_key : string :=
  match available_tts_models with
  | entry :: _ => fst entry
  | [] => ""
  end.

(** [load_settings].  Only [json.JSONDecodeError] is caught: the
    exception of a file that cannot be read leaves the method, and so
    does the [AttributeError] that [.get] raises on a JSON value that is
    not an object. *)
Definition load_settings (file : SettingsFile SettingsDoc) (a : App)
  : result App :=
  match file with
  | Missing => Ok a
  | Unreadable e => Raises (read_error e)
  | Unparseable =>
      Ok (with_queue []
            (log "Could not read settings.json, it might be corrupted. Starting fresh." a))
  | NotAnObject _ => Raises AttributeError
  | Object d =>
      Ok {| pdf_queue := default [] (doc_pdf_queue d);
            destination_folder :=
              default (destination_folder a) (doc_destination_folder d);
            is_running := is_running a;
            is_paused := is_paused a;
            selected_tts_model :=
              default first_model_key (doc_selected_tts_model d);
            selected_voice := default "" (doc_selected_voice d);
            speaker_wav_path := default "" (doc_speaker_wav_path d);
            optimize_mp3 := default true (doc_optimize_mp3 d);
            tts_loaded := tts_loaded a;
            console := console a |}
  end.

(** [save_settings]: the content of the file after the write. *)
Definition save_settings (a : App) : SettingsFile SettingsDoc :=
  Object {| doc_pdf_queue := Some (pdf_queue a);
            doc_destination_folder := Some (destination_folder a);
            doc_selected_voice := Some (selected_voice a);
            doc_speaker_wav_path := Some (speaker_wav_path a);
            doc_selected_tts_model := Some (selected_tts_model a);
            doc_optimize_mp3 := Some (optimize_mp3 a) |}.

(** The attributes as [__init__] sets them before [load_settings];
    [downloads] is [str(Path.home() / "Downloads")]. *)
Definition initial (downloads : string) : App :=
  {| pdf_queue := [];
     destination_folder := downloads;
     is_running := false;
     is_paused := false;
     selected_tts_model := "";
     selected_voice := "";
     speaker_wav_path := "";
     optimize_mp3 := true;
     tts_loaded := false;
     console := [] |}.

(** [check_ffmpeg]; [found] is [shutil.which("ffmpeg")]. *)
Definition check_ffmpeg (found : bool) (a : App) : App :=
  if found then log "FFmpeg found. MP3 optimization is available." a
  else with_optimize false
         (log "WARNING: FFmpeg not found. The 'Optimize MP3' feature will be disabled." a).

(** [__init__]. *)
Definition init (downloads : string) (file : SettingsFile SettingsDoc)
    (found : bool) : result App :=
  bind (load_settings file (initial downloads)) (fun a =>
    Ok (check_ffmpeg found
          (log "Application started. Please select and load a TTS model." a))).

End Converter.

(** ** kokoro_converter.py: every conversion thread

    [start_conversion] never reads [self.conversion_thread]: its guard is
    [self.is_running] (line 360), and [stop_conversion] clears that flag
    at once (line 376) while the thread it stops may still be inside a
    job.  A Start after such a Stop therefore creates a second thread
    next to the first (lines 369-370).  [Pool] follows every thread that
    has been created: the threads share the application, the disk, the
    queued callbacks and the record of effects, and each has its own
    place in [process_queue] and its own local [temp_output_path].  A
    step of a thread is the step [Converter.worker_step] of that thread
    on the shared state; as there, a step runs from one read of a flag to
    the next, and the steps of different threads interleave in any
    order. *)

Module Pool.

Import Converter.

Record Thread := {
  pc : Pc;
  temp : option string
}.

Record State := {
  shared : App;
  disk : gset string;
  threads : list Thread;
  callbacks : nat;
  effects : list Effect
}.

Definition with_shared (a : App) (s : State) : State :=
  {| shared := a; disk := disk s; threads := threads s;
     callbacks := callbacks s; effects := effects s |}.

(** The state as thread [t] has it before a step, and the state after
    the step of thread number [k]. *)
Definition view (t : Thread) (s : State) : World :=
  {| app := shared s; files := disk s; worker := pc t;
     temp_output_path := temp t; pending_stop := callbacks s;
     trace := effects s |}.

Definition commit (k : nat) (w : World) (s : State) : State :=
  {| shared := app w; disk := files w;
     threads := <[k := {| pc := worker w; temp := temp_output_path w |}]>
                  (threads s);
     callbacks := pending_stop w; effects := trace w |}.

Section Runner.

Variable sanitize : string -> string.

Definition thread_step (k : nat) (ext : Outcome) (s : State) : State :=
  match threads s !! k with
  | Some t => commit k (worker_step sanitize ext (view t s)) s
  | None => s
  end.

(** [start_conversion], lines 347-370: past the checks a thread is
    created and started, whatever the earlier threads are doing. *)
Definition start_conversion (s : State) : State :=
  if start_rejected (shared s) then s
  else if is_running (shared s) then s
  else
    {| shared := log "Conversion process started."
                   (with_flags true false (shared s));
       disk := disk s;
       threads := threads s
                  ++ [{| pc := LoopHead (length (pdf_queue (shared s)));
                         temp := None |}];
       callbacks := callbacks s;
       effects := effects s |}.

Definition ui_step (e : UiEvent) (s : State) : State :=
  match e with
  | Start => start_conversion s
  | Stop => with_shared (stop_conversion (shared s)) s
  | PauseResume => with_shared (pause_resume_conversion (shared s)) s
  | SetOptimize b => with_shared (with_optimize b (shared s)) s
  | AfterCallback =>
      match callbacks s with
      | O => s
      | S n =>
          {| shared := stop_conversion (shared s); disk := disk s;
             threads := threads s; callbacks := n; effects := effects s |}
      end
  end.

(** A callback of the main loop, or a step of thread number [k]. *)
Inductive Event :=
| Ui (e : UiEvent)
| Worker (k : nat) (ext : Outcome).

Definition step (e : Event) (s : State) : State :=
  match e with
  | Ui u => ui_step u s
  | Worker k ext => thread_step k ext s
  end.

Fixpoint run (sched : list Event) (s : State) : State :=
  match sched with
  | [] => s
  | e :: sched' => run sched' (step e s)
  end.

End Runner.

(** No thread has been created yet. *)
Definition idle (a : App) : State :=
  {| shared := a; disk := ∅; threads := []; callbacks := 0; effects := [] |}.

End Pool.

(** ** kokoro_tts_app.py: [KokoroTTSApp] *)

Module KokoroTTS.

Definition KOKORO_VOICES : list string :=
  ["af_bella"; "af_sarah"; "af_sky"; "af_heart"; "af_nicole";
   "af_alloy"; "af_aoede"; "af_river"; "af_nova"; "af_jessica"; "af_kore";
   "am_adam"; "am_michael"; "am_eric"; "am_onyx"; "am_liam";
   "am_echo"; "am_fenrir"; "am_puck"; "am_santa"].

Definition LOG_LEVELS : list string :=
  ["ALL"; "DEBUG"; "INFO"; "WARNING"; "ERROR"; "CRITICAL"].

(** The attributes of [KokoroTTSApp] that the modelled methods read or
    write.  [speed] is a float that is only compared and copied, hence a
    rational here; [text_input] is the content of the text widget without
    the newline that Tk keeps at its end; [log_messages] holds pairs of a
    level and a message. *)
Record App := {
  selected_voice : string;
  speed : Q;
  output_format : string;
  output_path : string;
  text_input : string;
  console_visible : bool;
  log_level_filter : string;
  has_ffmpeg : bool;
  loading_settings : bool;
  is_processing : bool;
  log_messages : list (string * string)
}.

Definition set_voice (v : string) (a : App) : App :=
  {| selected_voice := v; speed := speed a;
     output_format := output_format a; output_path := output_path a;
     text_input := text_input a; console_visible := console_visible a;
     log_level_filter := log_level_filter a; has_ffmpeg := has_ffmpeg a;
     loading_settings := loading_settings a;
     is_processing := is_processing a; log_messages := log_messages a |}.

Definition set_speed (q : Q) (a : App) : App :=
  {| selected_voice := selected_voice a; speed := q;
     output_format := output_format a; output_path := output_path a;
     text_input := text_input a; console_visible := console_visible a;
     log_level_filter := log_level_filter a; has_ffmpeg := has_ffmpeg a;
     loading_settings := loading_settings a;
     is_processing := is_processing a; log_messages := log_messages a |}.

Definition set_format (f : string) (a : App) : App :=
  {| selected_voice := selected_voice a; speed := speed a;
     output_format := f; output_path := output_path a;
     text_input := text_input a; console_visible := console_visible a;
     log_level_filter := log_level_filter a; has_ffmpeg := has_ffmpeg a;
     loading_settings := loading_settings a;
     is_processing := is_processing a; log_messages := log_messages a |}.

Definition set_path (p : string) (a : App) : App :=
  {| selected_voice := selected_voice a; speed := speed a;
     output_format := output_format a; output_path := p;
     text_input := text_input a; console_visible := console_visible a;
     log_level_filter := log_level_filter a; has_ffmpeg := has_ffmpeg a;
     loading_settings := loading_settings a;
     is_processing := is_processing a; log_messages := log_messages a |}.

Definition set_text (t : string) (a : App) : App :=
  {| selected_voice := selected_voice a; speed := speed a;
     output_format := output_format a; output_path := output_path a;
     text_input := t; console_visible := console_visible a;
     log_level_filter := log_level_filter a; has_ffmpeg := has_ffmpeg a;
     loading_settings := loading_settings a;
     is_processing := is_processing a; log_messages := log_messages a |}.

Definition set_console_visible (b : bool) (a : App) : App :=
  {| selected_voice := selected_voice a; speed := speed a;
     output_format := output_format a; output_path := output_path a;
     text_input := text_input a; console_visible := b;
     log_level_filter := log_level_filter a; has_ffmpeg := has_ffmpeg a;
     loading_settings := loading_settings a;
     is_processing := is_processing a; log_messages := log_messages a |}.

Definition set_filter (l : string) (a : App) : App :=
  {| selected_voice := selected_voice a; speed := speed a;
     output_format := output_format a; output_path := output_path a;
     text_input := text_input a; console_visible := console_visible a;
     log_level_filter := l; has_ffmpeg := has_ffmpeg a;
     loading_settings := loading_settings a;
     is_processing := is_processing a; log_messages := log_messages a |}.

Definition set_loading (b : bool) (a : App) : App :=
  {| selected_voice := selected_voice a; speed := speed a;
     output_format := output_format a; output_path := output_path a;
     text_input := text_input a; console_visible := console_visible a;
     log_level_filter := log_level_filter a; has_ffmpeg := has_ffmpeg a;
     loading_settings := b;
     is_processing := is_processing a; log_messages := log_messages a |}.

Definition set_processing (b : bool) (a : App) : App :=
  {| selected_voice := selected_voice a; speed := speed a;
     output_format := output_format a; output_path := output_path a;
     text_input := text_input a; console_visible := console_visible a;
     log_level_filter := log_level_filter a; has_ffmpeg := has_ffmpeg a;
     loading_settings := loading_settings a;
     is_processing := b; log_messages := log_messages a |}.

(** [self.log(message, level)]. *)
Definition log (level message : string) (a : App) : App :=
  {| selected_voice := selected_voice a; speed := speed a;
     output_format := output_format a; output_path := output_path a;
     text_input := text_input a; console_visible := console_visible a;
     log_level_filter := log_level_filter a; has_ffmpeg := has_ffmpeg a;
     loading_settings := loading_settings a;
     is_processing := is_processing a;
     log_messages := log_messages a ++ [(level, message)] |}.

(** *** The settings file [kokoro-settings.json] *)

(** A JSON object as [load_settings] reads it: each of the seven keys of
    [save_settings] is absent or present. *)
Record SettingsDoc := {
  doc_voice : option string;
  doc_speed : option Q;
  doc_output_format : option string;
  doc_output_path : option string;
  doc_text_input : option string;
  doc_console_visible : option bool;
  doc_log_level_filter : option string
}.

(** The body of the [try] block either runs to its end or raises, in
    both cases with the attributes as assigned so far. *)
Inductive Outcome :=
| Done (a : App)
| Raised (e : exn) (a : App).

Definition and_then (r : Outcome) (k : App -> Outcome) : Outcome :=
  match r with
  | Done a => k a
  | Raised e a => Raised e a
  end.

Section Settings.

(** [str(Path(p))]: the path as [pathlib] normalises it. *)
Variable pathlib_str : string -> string.

(** [Path(p).exists() or Path(p).parent.exists()] on the disk at hand. *)
Variable path_usable : string -> bool.

(** [s.strip()], which follows the Unicode tables for white space. *)
Variable py_strip : string -> string.

(** The blocks of lines 304-344 for a JSON object, one per key, each
    given the value of its key ([None] when the key is absent). *)
Definition load_voice (v : option string) (a : App) : App :=
  match v with
  | Some v => if bool_decide (v ∈ KOKORO_VOICES) then set_voice v a else a
  | None => a
  end.

Definition load_speed (q : option Q) (a : App) : App :=
  match q with
  | Some q => if Qle_bool (1 # 2) q && Qle_bool q 2 then set_speed q a else a
  | None => a
  end.

Definition load_format (f : option string) (a : App) : App :=
  match f with
  | Some f =>
      if bool_decide (f ∈ ["wav"; "mp3"]) then
        if String.eqb f "mp3" && negb (has_ffmpeg a)
        then set_format "wav" a
        else set_format f a
      else a
  | None => a
  end.

Definition load_path (p : option string) (a : App) : App :=
  match p with
  | Some p => if path_usable p then set_path (pathlib_str p) a else a
  | None => a
  end.

Definition load_text (t : option string) (a : App) : App :=
  match t with
  | Some t => set_text t a
  | None => a
  end.

Definition load_console (b : option bool) (a : App) : App :=
  match b with
  | Some b => set_console_visible b a
  | None => a
  end.

Definition load_filter (l : option string) (a : App) : App :=
  match l with
  | Some l => if bool_decide (l ∈ LOG_LEVELS) then set_filter l a else a
  | None => a
  end.

(** Lines 304-344 for a JSON object. *)
Definition load_object (d : SettingsDoc) (a : App) : App :=
  let a := load_voice (doc_voice d) a in
  let a := load_speed (doc_speed d) a in
  let a := load_format (doc_output_format d) a in
  let a := load_path (doc_output_path d) a in
  let a := load_text (doc_text_input d) a in
  let a := load_console (doc_console_visible d) a in
  load_filter (doc_log_level_filter d) a.

(** One [if key in settings ...] block for a JSON value that is not an
    object: the membership test may raise; when it holds, the subscript
    [settings[key]] raises [TypeError], after [before] has run. *)
Definition subscript_block (key : string) (before : App -> App)
    (j : NonObject) (a : App) : Outcome :=
  match key_in key j with
  | Raises e => Raised e a
  | Ok true => Raised TypeError (before a)
  | Ok false => Done a
  end.

(** The block of the key "speed": its subscript is inside a [try] that
    catches [TypeError]. *)
Definition speed_block (j : NonObject) (a : App) : Outcome :=
  match key_in "speed" j with
  | Raises e => Raised e a
  | Ok _ => Done a
  end.

(** Lines 304-344 for a JSON value that is not an object. *)
Definition load_non_object (j : NonObject) (a : App) : Outcome :=
  and_then (subscript_block "voice" id j a) (fun a =>
  and_then (speed_block j a) (fun a =>
  and_then (subscript_block "output_format" id j a) (fun a =>
  and_then (subscript_block "output_path" id j a) (fun a =>
  and_then (subscript_block "text_input" (set_text "") j a) (fun a =>
  and_then (subscript_block "console_visible" id j a) (fun a =>
  subscript_block "log_level_filter" id j a)))))).

(** [load_settings]: [except Exception] catches whatever the body
    raises, and [finally] resets the flag.  The warning ends with the
    text of the exception, which is left out here. *)
Definition load_settings (file : SettingsFile SettingsDoc) (a : App)
  : result App :=
  match file with
  | Missing => Ok (set_loading false a)
  | _ =>
      let a := set_loading true a in
      let body :=
        and_then
          match file with
          | Unreadable e => Raised (read_error e) a
          | Unparseable => Raised JSONDecodeError a
          | NotAnObject j => load_non_object j a
          | Object d => Done (load_object d a)
          | Missing => Done a
          end
          (fun a => Done (log "INFO" "Settings loaded from kokoro-settings.json" a)) in
      Ok (set_loading false
            match body with
            | Done a => a
            | Raised _ a => log "WARNING" "Error loading settings" a
            end)
  end.

(** [save_settings]: the content of the file after a write that
    succeeds. *)
Definition save_settings (a : App) : SettingsFile SettingsDoc :=
  Object {| doc_voice := Some (selected_voice a);
            doc_speed := Some (speed a);
            doc_output_format := Some (output_format a);
            doc_output_path := Some (output_path a);
            doc_text_input := Some (py_strip (text_input a));
            doc_console_visible := Some (console_visible a);
            doc_log_level_filter := Some (log_level_filter a) |}.

(** *** Start-up *)

Inductive Device := Cuda | Mps | Cpu.

Definition device_upper (d : Device) : string :=
  match d with
  | Cuda => "CUDA"
  | Mps => "MPS"
  | Cpu => "CPU"
  end.

(** What [__init__] finds on the machine: the device, the name of the GPU
    and the CUDA version (read when the device is CUDA),
    [shutil.which("ffmpeg") is not None], and
    [str(Path.home() / "Downloads")]. *)
Record Platform := {
  device : Device;
  gpu_name : string;
  cuda_version : string;
  which_ffmpeg : bool;
  downloads : string
}.

(** Lines 232-248 and 464. *)
Definition initial (p : Platform) : App :=
  {| selected_voice := "af_bella";
     speed := 1;
     output_format := "wav";
     output_path := downloads p;
     text_input := "";
     console_visible := false;
     log_level_filter := "INFO";
     has_ffmpeg := which_ffmpeg p;
     loading_settings := false;
     is_processing := false;
     log_messages := [] |}.

(** The log lines of [setup_ui], lines 550-554. *)
Definition setup_ui (p : Platform) (a : App) : App :=
  let a := log "INFO" "Kokoro-82M Text-to-Speech Application" a in
  let a := log "INFO" ("Device: " +:+ device_upper (device p)) a in
  let a := match device p with
           | Cuda => log "INFO" ("GPU: " +:+ gpu_name p) a
           | _ => a
           end in
  log "INFO" "Ready. Enter text and click Play to generate speech." a.

(** [check_cuda]. *)
Definition check_cuda (p : Platform) (a : App) : App :=
  match device p with
  | Cuda =>
      log "INFO" ("CUDA version: " +:+ cuda_version p)
        (log "INFO" ("CUDA available - GPU: " +:+ gpu_name p) a)
  | _ => log "WARNING" "CUDA not available - using CPU (slower)" a
  end.

(** [__init__]. *)
Definition init (p : Platform) (file : SettingsFile SettingsDoc)
  : result App :=
  bind (load_settings file (setup_ui p (initial p))) (fun a =>
    let a := check_cuda p a in
    Ok (if negb (has_ffmpeg a) then
          log "WARNING" "FFmpeg not found - MP3 output disabled. WAV format will be used."
              (set_format "wav" a)
        else a)).

(** *** The interface after start-up *)

(** What the user can do to the attributes: the two format radio
    buttons (the MP3 one is disabled without ffmpeg), the voice and
    filter comboboxes (read-only, over the two constant lists), the speed
    slider (from 0.5 to 2.0), the output path entry and folder dialog,
    the text area, the console checkbox, and the Play and Stop
    buttons.  [text] of [ClickPlay] is irrelevant to the attributes. *)
Inductive Op :=
| ClickWav
| ClickMp3
| SelectVoice (v : string)
| MoveSpeed (q : Q)
| TypeOutputPath (p : string)
| EditText (t : string)
| ClickShowConsole
| SelectFilter (l : string)
| ClickPlay
| ClickStop
| GenerationEnds.

Definition apply_op (o : Op) (a : App) : App :=
  match o with
  | ClickWav => set_format "wav" a
  | ClickMp3 => if has_ffmpeg a then set_format "mp3" a else a
  | SelectVoice v => if bool_decide (v ∈ KOKORO_VOICES) then set_voice v a else a
  | MoveSpeed q => if Qle_bool (1 # 2) q && Qle_bool q 2 then set_speed q a else a
  | TypeOutputPath p => set_path p a
  | EditText t => set_text t a
  | ClickShowConsole => set_console_visible (negb (console_visible a)) a
  | SelectFilter l => if bool_decide (l ∈ LOG_LEVELS) then set_filter l a else a
  | ClickPlay =>
      if is_processing a then a
      else if String.eqb (py_strip (text_input a)) "" then a
      else set_processing true a
  | ClickStop =>
      log "WARNING" "Stop requested (generation will finish current segment)..."
          (set_processing false a)
  | GenerationEnds => set_processing false a
  end.

(** How [generate_speech] writes its result, lines 843-858: through a
    temporary WAV file and an ffmpeg run, or directly as WAV. *)
Inductive Plan :=
| EncodeMp3 (output_name : string)
| WriteWav (output_name : string).

Definition output_plan (segment_count : nat) (a : App) : Plan :=
  if String.eqb (output_format a) "mp3" && has_ffmpeg a then
    EncodeMp3 ("kokoro_" +:+ selected_voice a +:+ "_" +:+ pretty segment_count +:+ ".mp3")
  else
    WriteWav ("kokoro_" +:+ selected_voice a +:+ "_" +:+ pretty segment_count +:+ ".wav").

End Settings.

(** The persisted view of the attributes: the seven saved fields. *)
Definition persisted (a : App)
  : string * Q * string * string * string * bool * string :=
  (selected_voice a, speed a, output_format a, output_path a, text_input a,
   console_visible a, log_level_filter a).

End KokoroTTS.

(** * Vocabulary of the properties *)

Import Converter.

(** ** The converter *)

(** Every "Find PDFs" of a session, each with the folder chosen and the
    result of walking it. *)
Definition find_all (calls : list (string * list (string * list string)))
    (a : App) : App :=
  foldl (fun a call => find_pdfs (fst call) (snd call) a) a calls.

(** The status that [try_block] leaves on the job. *)
Definition final_status (optimize : bool) (ext : Outcome) : string :=
  if negb (extract_ok ext) then "Error"
  else match synth ext with
       | SynthRaises _ => "Error"
       | SynthOk =>
           if optimize && ffmpeg_found ext then
             match encode ext with
             | EncodeRaises _ => "Error"
             | EncodeOk => "Complete"
             end
           else "Complete"
       end.

(** Some stage of the job raises: the extraction, the synthesis, or
    (when it is run) the encoding. *)
Definition raises (optimize : bool) (ext : Outcome) : bool :=
  negb (extract_ok ext)
  || match synth ext with
     | SynthRaises _ => true
     | SynthOk =>
         optimize && ffmpeg_found ext
         && match encode ext with
            | EncodeRaises _ => true
            | EncodeOk => false
            end
     end.

(** The jobs that the thread will still attempt if it is not stopped. *)
Definition remaining (w : World) : list nat :=
  match worker w with
  | LoopHead k => pending_below k (pdf_queue (app w))
  | PauseWait i | Fetch i => pending_below (S i) (pdf_queue (app w))
  | InTry i => pending_below i (pdf_queue (app w))
  | AfterLoop | Exited => []
  end.

Definition in_bounds (w : World) : Prop :=
  match worker w with
  | LoopHead k => (k <= length (pdf_queue (app w)))%nat
  | PauseWait i | Fetch i | InTry i => (i < length (pdf_queue (app w)))%nat
  | AfterLoop | Exited => True
  end.

(** While the thread is alive the run has not been stopped, and no stop
    is queued. *)
Definition active (w : World) : Prop :=
  worker w <> Exited -> is_running (app w) = true /\ pending_stop w = 0%nat.

(** An event other than the Start and Stop buttons. *)
Definition uninterrupted (e : Event) : bool :=
  match e with
  | Ui Start | Ui Stop => false
  | _ => true
  end.

Definition run_invariant (tr0 : list Effect) (total : list nat) (w : World)
  : Prop :=
  (exists tr, trace w = tr0 ++ tr /\ attempts tr ++ remaining w = total)
  /\ in_bounds w /\ active w.

(** An upper bound on the steps the thread still takes when it is never
    paused. *)
Definition steps_left (pc : Pc) : nat :=
  match pc with
  | LoopHead k => 4 * k + 2
  | PauseWait i => 4 * i + 5
  | Fetch i => 4 * i + 4
  | InTry i => 4 * i + 3
  | AfterLoop => 1
  | Exited => 0
  end.

(** Job [i] is [item], the thread is not inside its [try] block, and
    nothing has been done to it since the trace was [tr0]. *)
Definition untouched (i : nat) (item : Job) (tr0 : list Effect) (w : World)
  : Prop :=
  pdf_queue (app w) !! i = Some item
  /\ worker w <> InTry i
  /\ exists tr, trace w = tr0 ++ tr /\ Forall (fun e => effect_job e <> i) tr.

(** ** The second program *)

(** What [load_settings] of the second program accepts for each field. *)
Definition loadable (pathlib_str : string -> string)
    (path_usable : string -> bool) (py_strip : string -> string)
    (ffmpeg : bool) (s : KokoroTTS.App) : Prop :=
  KokoroTTS.selected_voice s ∈ KokoroTTS.KOKORO_VOICES
  /\ Qle_bool (1 # 2) (KokoroTTS.speed s) && Qle_bool (KokoroTTS.speed s) 2 = true
  /\ (KokoroTTS.output_format s = "wav"
      \/ (KokoroTTS.output_format s = "mp3" /\ ffmpeg = true))
  /\ path_usable (KokoroTTS.output_path s) = true
  /\ pathlib_str (KokoroTTS.output_path s) = KokoroTTS.output_path s
  /\ py_strip (KokoroTTS.text_input s) = KokoroTTS.text_input s
  /\ KokoroTTS.log_level_filter s ∈ KokoroTTS.LOG_LEVELS.

(** The attributes of the second program that a load that fails leaves
    as they were. *)
Definition all_but_text (a : KokoroTTS.App)
  : string * Q * string * string * bool * string :=
  (KokoroTTS.selected_voice a, KokoroTTS.speed a, KokoroTTS.output_format a,
   KokoroTTS.output_path a, KokoroTTS.console_visible a,
   KokoroTTS.log_level_filter a).

(** A JSON object with the key "output_format" set to [f]. *)
Definition with_doc_format (f : string) (d : KokoroTTS.SettingsDoc)
  : KokoroTTS.SettingsDoc :=
  {| KokoroTTS.doc_voice := KokoroTTS.doc_voice d;
     KokoroTTS.doc_speed := KokoroTTS.doc_speed d;
     KokoroTTS.doc_output_format := Some f;
     KokoroTTS.doc_output_path := KokoroTTS.doc_output_path d;
     KokoroTTS.doc_text_input := KokoroTTS.doc_text_input d;
     KokoroTTS.doc_console_visible := KokoroTTS.doc_console_visible d;
     KokoroTTS.doc_log_level_filter := KokoroTTS.doc_log_level_filter d |}.

(** The format is "mp3" only with ffmpeg. *)
Definition mp3_guarded (a : KokoroTTS.App) : Prop :=
  KokoroTTS.output_format a = "mp3" -> KokoroTTS.has_ffmpeg a = true.

(** Every block other than the format block leaves the format and the
    ffmpeg flag alone. *)
Definition keeps_format (f : KokoroTTS.App -> KokoroTTS.App) : Prop :=
  forall a, KokoroTTS.output_format (f a) = KokoroTTS.output_format a
            /\ KokoroTTS.has_ffmpeg (f a) = KokoroTTS.has_ffmpeg a.

(** * Scenarios *)

(** ** The converter *)

(** On a folder name made of ASCII letters and digits, as in the
    scenarios below, line 425 returns the name as it is. *)
Definition sanitize_plain (s : string) : string := s.

Definition job_a : Job :=
  {| status := "Pending"; path := "/docs/a.pdf"; filename := "a.pdf" |}.

Definition job_b : Job :=
  {| status := "Pending"; path := "/docs/b.pdf"; filename := "b.pdf" |}.

Definition job_done : Job :=
  {| status := "Complete"; path := "/docs/c.pdf"; filename := "c.pdf" |}.

(** A loaded multi-speaker model with a voice chosen, "Optimize MP3"
    ticked, no run in progress. *)
Definition ready (q : list Job) : App :=
  {| pdf_queue := q;
     destination_folder := "/out";
     is_running := false;
     is_paused := false;
     selected_tts_model := "VCTK (Multi-Voice)";
     selected_voice := "Speaker 1 (p225)";
     speaker_wav_path := "";
     optimize_mp3 := true;
     tts_loaded := true;
     console := [] |}.

Definition at_rest (q : list Job) : World :=
  {| app := ready q; files := ∅; worker := Exited;
     temp_output_path := None; pending_stop := 0; trace := [] |}.

(** The thread inside the [try] block of job [i] of a running
    application. *)
Definition in_flight (q : list Job) (i : nat) : World :=
  {| app := with_flags true false (ready q); files := ∅; worker := InTry i;
     temp_output_path := None; pending_stop := 0; trace := [] |}.

Definition all_ok : Outcome :=
  {| extract_ok := true; synth := SynthOk; ffmpeg_found := true;
     encode := EncodeOk |}.

Definition synth_fails : Outcome :=
  {| extract_ok := true; synth := SynthRaises true; ffmpeg_found := true;
     encode := EncodeOk |}.

Definition no_ffmpeg : Outcome :=
  {| extract_ok := true; synth := SynthOk; ffmpeg_found := false;
     encode := EncodeOk |}.

(** What the user sees: the run state, where the thread is, and the
    status column. *)
Definition observe (w : World) : RunState * Pc * list string :=
  (run_state (app w), worker w, status <$> pdf_queue (app w)).

(** Start; the thread takes up the last job; Pause is pressed while that
    job is in flight; the job completes and the thread waits in its pause
    loop before the first job. *)
Definition until_paused : list Event :=
  [Ui Start; Worker all_ok; Worker all_ok; Worker all_ok; Ui PauseResume;
   Worker all_ok; Worker all_ok; Worker all_ok; Worker all_ok].

(** Stop is pressed; the thread runs until it ends. *)
Definition stop_then_run : list Event :=
  [Ui Stop; Worker all_ok; Worker all_ok; Worker all_ok; Worker all_ok;
   Worker all_ok].

(** Two runs over a queue whose first job is complete: the first is
    stopped after its first job, the second runs to its end. *)
Definition two_runs : list Event :=
  [Ui Start; Worker all_ok; Worker all_ok; Worker all_ok; Ui Stop;
   Worker synth_fails; Worker all_ok; Worker all_ok;
   Ui Start; Worker all_ok; Worker all_ok; Worker all_ok; Worker all_ok;
   Worker all_ok; Worker all_ok; Worker all_ok; Worker all_ok;
   Worker all_ok; Worker all_ok; Worker all_ok; Worker all_ok;
   Ui AfterCallback].

(** Two threads at once.  Start; the first thread takes up the last
    job; Stop and then Start are pressed while that job is in flight. *)
Definition restart_during_a_job : list Pool.Event :=
  [Pool.Ui Start; Pool.Worker 0 all_ok; Pool.Worker 0 all_ok;
   Pool.Worker 0 all_ok; Pool.Ui Stop; Pool.Ui Start].

(** The second thread takes up the same job; the first thread finishes
    it and takes up the other job; the second thread does the same; both
    threads run to their ends.  Stop is not pressed again. *)
Definition both_threads_run : list Pool.Event :=
  [Pool.Worker 1 all_ok; Pool.Worker 1 all_ok; Pool.Worker 1 all_ok;
   Pool.Worker 0 all_ok; Pool.Worker 0 all_ok; Pool.Worker 0 all_ok;
   Pool.Worker 0 all_ok;
   Pool.Worker 1 all_ok; Pool.Worker 1 all_ok; Pool.Worker 1 all_ok;
   Pool.Worker 1 all_ok;
   Pool.Worker 0 all_ok; Pool.Worker 0 all_ok; Pool.Worker 0 all_ok;
   Pool.Worker 1 all_ok; Pool.Worker 1 all_ok; Pool.Worker 1 all_ok].

(** The second thread converts the job and ends, and its callback runs:
    the run is over, while the first thread is still inside the same
    job. *)
Definition second_thread_finishes : list Pool.Event :=
  [Pool.Worker 1 all_ok; Pool.Worker 1 all_ok; Pool.Worker 1 all_ok;
   Pool.Worker 1 all_ok; Pool.Worker 1 all_ok; Pool.Worker 1 all_ok;
   Pool.Ui AfterCallback].

(** A third run is started; the synthesis of the first thread now
    fails; the thread of the third run goes through the queue. *)
Definition third_run : list Pool.Event :=
  [Pool.Ui Start; Pool.Worker 0 synth_fails; Pool.Worker 2 all_ok;
   Pool.Worker 2 all_ok; Pool.Worker 2 all_ok; Pool.Worker 2 all_ok].

(** ** The second program *)

(** Paths already written as [pathlib] writes them, and texts without
    white space at their ends: on these, [str(Path(p))] and [s.strip()]
    return their argument. *)
Definition plain_path (p : string) : string := p.
Definition plain_strip (s : string) : string := s.

(** A disk on which, of the paths used below, only the Downloads folder
    and [/home/u/audio] exist or have an existing parent. *)
Definition disk_usable (p : string) : bool :=
  bool_decide (p ∈ ["/home/u/Downloads"; "/home/u/audio"]).

Definition desktop (ffmpeg : bool) : KokoroTTS.Platform :=
  {| KokoroTTS.device := KokoroTTS.Cpu;
     KokoroTTS.gpu_name := "";
     KokoroTTS.cuda_version := "";
     KokoroTTS.which_ffmpeg := ffmpeg;
     KokoroTTS.downloads := "/home/u/Downloads" |}.

(** The second program as [__init__] has it when it calls
    [load_settings]. *)
Definition fresh (ffmpeg : bool) : KokoroTTS.App :=
  KokoroTTS.setup_ui (desktop ffmpeg) (KokoroTTS.initial (desktop ffmpeg)).

(** Settings a user can reach: a voice and a filter from the comboboxes,
    a speed on the slider, WAV, some text, and an output folder typed
    into the entry. *)
Definition chosen (folder : string) : KokoroTTS.App :=
  {| KokoroTTS.selected_voice := "af_sky";
     KokoroTTS.speed := 3 # 2;
     KokoroTTS.output_format := "wav";
     KokoroTTS.output_path := folder;
     KokoroTTS.text_input := "hello";
     KokoroTTS.console_visible := true;
     KokoroTTS.log_level_filter := "ERROR";
     KokoroTTS.has_ffmpeg := true;
     KokoroTTS.loading_settings := false;
     KokoroTTS.is_processing := false;
     KokoroTTS.log_messages := [] |}.

(** A settings file that asks for MP3. *)
Definition asks_mp3 : KokoroTTS.SettingsDoc :=
  {| KokoroTTS.doc_voice := Some "af_sky";
     KokoroTTS.doc_speed := Some (3 # 2);
     KokoroTTS.doc_output_format := Some "mp3";
     KokoroTTS.doc_output_path := Some "/home/u/audio";
     KokoroTTS.doc_text_input := Some "hello";
     KokoroTTS.doc_console_visible := Some true;
     KokoroTTS.doc_log_level_filter := Some "ERROR" |}.

(** * More of the two programs *)

(** ** kokoro_converter.py: the other queue operations *)

Module QueueOps.

Import Converter.

(** [sorted(indices, reverse=True)] *)
Definition sorted_reverse (indices : list nat) : list nat :=
  merge_sort (H := fun x y => decide (y <= x)%nat)
    (fun x y => (y <= x)%nat) indices.

(** The loop [for index in indices_to_delete: del self.pdf_queue[index]]:
    the queue as the loop leaves it, and the [IndexError] that ended it
    early, if any. *)
Definition delete_rows (indices : list nat) (q : list Job)
  : list Job * option exn :=
  foldl (fun acc index =>
           match snd acc with
           | Some _ => acc
           | None =>
               match fst acc !! index with
               | Some _ => (delete index (fst acc), None)
               | None => (fst acc, Some IndexError)
               end
           end)
        (q, None) indices.

(** [delete_selected_pdfs]: [selected] holds the indices of the selected
    rows, [confirmed] is the answer to the dialog. *)
Definition delete_selected_pdfs (selected : list nat) (confirmed : bool)
    (a : App) : App * option exn :=
  match selected with
  | [] => (log "No files selected to delete from the list." a, None)
  | _ =>
      if confirmed then
        let r := delete_rows (sorted_reverse selected) (pdf_queue a) in
        match snd r with
        | Some e => (with_queue (fst r) a, Some e)
        | None =>
            (log ("Removed " +:+ pretty (length selected)
                    +:+ " file(s) from the list.")
                 (with_queue (fst r) a), None)
        end
      else (a, None)
  end.

(** [select_destination]: [directory] is the answer of the folder dialog
    (empty when cancelled). *)
Definition select_destination (directory : string) (a : App) : App :=
  if String.eqb directory "" then a
  else
    log ("Destination folder set to: " +:+ directory)
      {| pdf_queue := pdf_queue a;
         destination_folder := directory;
         is_running := is_running a;
         is_paused := is_paused a;
         selected_tts_model := selected_tts_model a;
         selected_voice := selected_voice a;
         speaker_wav_path := speaker_wav_path a;
         optimize_mp3 := optimize_mp3 a;
         tts_loaded := tts_loaded a;
         console := console a |}.

End QueueOps.

(** The rows of [q] whose index, counted from [k], is not in [sel]. *)
Fixpoint rows_except {A} (k : nat) (sel : list nat) (q : list A) : list A :=
  match q with
  | [] => []
  | x :: q' =>
      if bool_decide (k ∈ sel) then rows_except (S k) sel q'
      else x :: rows_except (S k) sel q'
  end.

(** Every PDF of the walk is in the queue. *)
Definition covers (walk : list (string * list string)) (q : list Converter.Job) : Prop :=
  forall root_dir files file,
    (root_dir, files) ∈ walk -> file ∈ files ->
    endswith (lower file) ".pdf" = true ->
    Converter.in_queue (os_path_join root_dir file) q = true.

(** ** Vocabulary of the further properties of the queue runner *)

(** The index from which the thread has dealt with every job. *)
Definition dealt_from (pc : Converter.Pc) : nat :=
  match pc with
  | Converter.LoopHead k => k
  | Converter.PauseWait i | Converter.Fetch i | Converter.InTry i => S i
  | Converter.AfterLoop | Converter.Exited => 0
  end.

(** Every job from index [bound] on is "Complete" or "Error". *)
Definition settled_from (bound : nat) (q : list Converter.Job) : Prop :=
  forall j item,
    (bound <= j)%nat -> q !! j = Some item ->
    Converter.status item = "Complete" \/ Converter.status item = "Error".

(** A run has been stopped and the thread is past the points where it
    would take up a job: inside the [try] block of job [i], at the top of
    the loop, or after it. *)
Definition winding_down (i : nat) (w : Converter.World) : Prop :=
  Converter.is_running (Converter.app w) = false
  /\ match Converter.worker w with
     | Converter.InTry j => j = i
     | Converter.LoopHead _ | Converter.AfterLoop | Converter.Exited => True
     | Converter.PauseWait _ | Converter.Fetch _ => False
     end.

Definition is_start (e : Converter.Event) : bool :=
  match e with
  | Converter.Ui Converter.Start => true
  | _ => false
  end.

Definition is_stop (e : Converter.Event) : bool :=
  match e with
  | Converter.Ui Converter.Stop => true
  | _ => false
  end.

Definition is_encode (e : Converter.Effect) : bool :=
  match e with
  | Converter.Encode _ => true
  | _ => false
  end.

(** In this event, of whichever thread, [shutil.which("ffmpeg")] finds
    nothing. *)
Definition without_ffmpeg (e : Pool.Event) : bool :=
  match e with
  | Pool.Worker _ ext => negb (Converter.ffmpeg_found ext)
  | Pool.Ui _ => true
  end.

(** This event does not tick the "Optimize MP3" checkbox. *)
Definition leaves_optimize_off (e : Pool.Event) : bool :=
  match e with
  | Pool.Ui (Converter.SetOptimize b) => negb b
  | _ => true
  end.

(** At most one conversion thread: while the thread is alive the run
    flag is set and no stop is queued; at most one stop is ever queued,
    and none while the run flag is clear. *)
Definition one_thread (w : Converter.World) : Prop :=
  (Converter.worker w <> Converter.Exited ->
   Converter.is_running (Converter.app w) = true
   /\ Converter.pending_stop w = 0%nat)
  /\ (Converter.is_running (Converter.app w) = false ->
      Converter.pending_stop w = 0%nat)
  /\ (Converter.pending_stop w <= 1)%nat.

(** Since [w0], nothing has been done to a job other than [i], and no
    job has been taken up. *)
Definition only_job (i : nat) (w0 w : Converter.World) : Prop :=
  (forall j, j <> i ->
     Converter.pdf_queue (Converter.app w) !! j
     = Converter.pdf_queue (Converter.app w0) !! j)
  /\ exists tr,
       Converter.trace w = Converter.trace w0 ++ tr
       /\ Converter.attempts tr = []
       /\ Forall (fun e => Converter.effect_job e = i) tr.

(** What a row of the queue is apart from its status. *)
Definition entries (q : list Converter.Job) : list (string * string) :=
  (fun item => (Converter.path item, Converter.filename item)) <$> q.

(** Once the thread has ended, either its [stop_conversion] callback is
    still queued and the run flag set, or the callback has run. *)
Definition ended_cleanly (w : Converter.World) : Prop :=
  Converter.worker w = Converter.Exited ->
  (Converter.is_running (Converter.app w) = true
   /\ Converter.pending_stop w = 1%nat)
  \/ (Converter.is_running (Converter.app w) = false
      /\ Converter.pending_stop w = 0%nat).

(** ** Further scenarios of the queue runner *)

(** After Start: the thread takes up the last job, whose synthesis
    fails; Pause and Resume are pressed before the other job, which is
    then converted; the thread ends. *)
Definition run_with_a_failure : list Converter.Event :=
  [Converter.Worker all_ok; Converter.Worker all_ok; Converter.Worker all_ok;
   Converter.Worker synth_fails; Converter.Worker all_ok;
   Converter.Ui Converter.PauseResume; Converter.Worker all_ok;
   Converter.Ui Converter.PauseResume; Converter.Worker all_ok;
   Converter.Worker all_ok; Converter.Worker all_ok; Converter.Worker all_ok;
   Converter.Worker all_ok; Converter.Worker all_ok].

(** Two jobs on a machine without ffmpeg, the checkbox ticked
    meanwhile: Stop and Start are pressed while the first thread is
    inside the last job, and the two threads then share the queue. *)
Definition run_without_ffmpeg : list Pool.Event :=
  [Pool.Ui Converter.Start; Pool.Worker 0 no_ffmpeg;
   Pool.Worker 0 no_ffmpeg; Pool.Worker 0 no_ffmpeg;
   Pool.Ui (Converter.SetOptimize true);
   Pool.Ui Converter.Stop; Pool.Ui Converter.Start;
   Pool.Worker 0 no_ffmpeg; Pool.Worker 1 no_ffmpeg;
   Pool.Worker 1 no_ffmpeg; Pool.Worker 1 no_ffmpeg;
   Pool.Worker 1 no_ffmpeg; Pool.Worker 1 no_ffmpeg;
   Pool.Worker 0 no_ffmpeg; Pool.Worker 0 no_ffmpeg;
   Pool.Worker 0 no_ffmpeg; Pool.Worker 0 no_ffmpeg;
   Pool.Worker 0 no_ffmpeg; Pool.Worker 0 no_ffmpeg;
   Pool.Worker 1 no_ffmpeg; Pool.Worker 1 no_ffmpeg;
   Pool.Worker 1 no_ffmpeg].

(** Start pressed during a run, after the thread has ended, and after
    its callback has run. *)
Definition restarts : list Converter.Event :=
  [Converter.Ui Converter.Start; Converter.Worker all_ok;
   Converter.Ui Converter.Start; Converter.Worker all_ok;
   Converter.Worker all_ok; Converter.Worker all_ok; Converter.Worker all_ok;
   Converter.Worker all_ok; Converter.Ui Converter.Start;
   Converter.Ui Converter.AfterCallback; Converter.Ui Converter.Start;
   Converter.Worker all_ok].

(** A running application whose thread is about to read row [i]. *)
Definition about_to_fetch (q : list Converter.Job) (i : nat) : Converter.World :=
  {| Converter.app := Converter.with_flags true false (ready q);
     Converter.files := ∅;
     Converter.worker := Converter.Fetch i;
     Converter.temp_output_path := None;
     Converter.pending_stop := 0;
     Converter.trace := [] |}.

(** ** kokoro_converter.py: closing the window, loading a model, voices *)

Module Lifecycle.

Import Converter.

(** [on_closing]: [confirmed] is the answer to the "Confirm Quit"
    dialog, which is shown only during a run.  The result is the
    application and, when the window is destroyed, the settings file as
    written. *)
Definition on_closing (confirmed : bool) (a : App)
  : App * option (SettingsFile SettingsDoc) :=
  if is_running a then
    if confirmed then
      let a := stop_conversion a in (a, Some (save_settings a))
    else (a, None)
  else (a, Some (save_settings a)).

End Lifecycle.

Module Voices.

Import Converter.

(** [self.tts_engine.model] once loaded: [speakers] is [None] when the
    model has no attribute of that name. *)
Record Model := {
  is_multi_speaker : bool;
  speakers : option (list string)
}.

(** What [load_model_task] passes to [update_model_status]. *)
Inductive LoadResult :=
| LoadOk (m : Model)
| LoadRaises.

(** The value returned by [TTSEngine.load_model], lines 60-62. *)
Definition load_model_returns (m : Model) : option (list string) :=
  if is_multi_speaker m then speakers m else None.

(** [f"Speaker {i+1} ({speaker_id})"] *)
Definition format_voice (i : nat) (speaker_id : string) : string :=
  "Speaker " +:+ pretty (S i) +:+ " (" +:+ speaker_id +:+ ")".

(** Line 266. *)
Definition formatted_voices (speakers : list string) : list string :=
  imap format_voice speakers.

Definition set_selected_voice (v : string) (a : App) : App :=
  {| pdf_queue := pdf_queue a;
     destination_folder := destination_folder a;
     is_running := is_running a;
     is_paused := is_paused a;
     selected_tts_model := selected_tts_model a;
     selected_voice := v;
     speaker_wav_path := speaker_wav_path a;
     optimize_mp3 := optimize_mp3 a;
     tts_loaded := tts_loaded a;
     console := console a |}.

Definition set_tts_loaded (b : bool) (a : App) : App :=
  {| pdf_queue := pdf_queue a;
     destination_folder := destination_folder a;
     is_running := is_running a;
     is_paused := is_paused a;
     selected_tts_model := selected_tts_model a;
     selected_voice := selected_voice a;
     speaker_wav_path := speaker_wav_path a;
     optimize_mp3 := optimize_mp3 a;
     tts_loaded := b;
     console := console a |}.

(** [threaded_load_model]: a new engine, whose model is not loaded yet,
    replaces the old one. *)
Definition threaded_load_model (a : App) : App :=
  if String.eqb (selected_tts_model a) "" then a
  else
    log ("Model loading initiated for " +:+ selected_tts_model a +:+ "...")
      (set_tts_loaded false a).

(** [load_model_task] followed by the [update_model_status] callback it
    queues: the engine holds the model on success and no model on
    failure.  The combobox of the voices is bound to
    [self.selected_voice], so setting the one sets the other.  The line
    logged on failure ends with the error text, which is left out here. *)
Definition update_model_status (r : LoadResult) (a : App) : App :=
  match r with
  | LoadOk m =>
      let a := log "TTS model loaded successfully." (set_tts_loaded true a) in
      match (if is_multi_speaker m then load_model_returns m else None) with
      | Some (first :: others) =>
          let all := first :: others in
          let voices := formatted_voices all in
          let saved_voice := selected_voice a in
          let a :=
            if negb (String.eqb saved_voice "")
               && bool_decide (saved_voice ∈ voices)
            then set_selected_voice saved_voice a
            else set_selected_voice (format_voice 0 first) a in
          log ("Found " +:+ pretty (length all) +:+ " voices.") a
      | _ => set_selected_voice "" a
      end
  | LoadRaises =>
      log "CRITICAL: Failed to load TTS model." (set_tts_loaded false a)
  end.

(** The pattern [\(p\d+\)] of line 398.  Strings are sequences of bytes
    (UTF-8) and [is_digit] holds of the ASCII digits only, while [\d]
    also matches the decimal digits outside ASCII.  The model therefore
    agrees with [re] on the texts in which every "(p" is followed by a
    run of ASCII digits (possibly empty) and then by an ASCII character
    or by the end of the text, and on no others is it used below.  A
    right parenthesis is no digit: the longest run of digits is the only
    one that can be followed by it. *)
Definition is_digit (c : ascii) : bool :=
  let n := nat_of_ascii c in (48 <=? n)%nat && (n <=? 57)%nat.

(** The longest run of digits at the head of the string, and what comes
    after it. *)
Fixpoint span_digits (s : string) : string * string :=
  match s with
  | EmptyString => (EmptyString, EmptyString)
  | String c s' =>
      if is_digit c then
        (String c (fst (span_digits s')), snd (span_digits s'))
      else (EmptyString, s)
  end.

(** A match of the pattern at the head of the string. *)
Definition match_here (s : string) : option string :=
  match s with
  | String "(" (String "p" rest) =>
      match fst (span_digits rest), snd (span_digits rest) with
      | String d ds, String ")" _ => Some ("(p" +:+ String d ds +:+ ")")
      | _, _ => None
      end
  | _ => None
  end.

(** [re.search(r'\(p\d+\)', s)]: [group(0)] of the leftmost match. *)
Fixpoint re_search (s : string) : option string :=
  match match_here s with
  | Some g => Some g
  | None =>
      match s with
      | EmptyString => None
      | String _ s' => re_search s'
      end
  end.

Definition is_paren (c : ascii) : bool :=
  Ascii.eqb c "(" || Ascii.eqb c ")".

Fixpoint lstrip_parens (s : string) : string :=
  match s with
  | EmptyString => EmptyString
  | String c s' => if is_paren c then lstrip_parens s' else s
  end.

Fixpoint rstrip_parens (s : string) : string :=
  match s with
  | EmptyString => EmptyString
  | String c s' =>
      match rstrip_parens s' with
      | EmptyString => if is_paren c then EmptyString else String c EmptyString
      | r => String c r
      end
  end.

(** [s.strip('()')] *)
Definition strip_parens (s : string) : string :=
  rstrip_parens (lstrip_parens s).

(** Lines 393-402 of [process_queue]: the [speaker_id] passed to the
    engine for every job of the run.  [speakers[0]] raises on an empty
    list. *)
Definition speaker_id_for (m : Model) (selected_speaker_formatted : string)
  : result (option string) :=
  if is_multi_speaker m then
    match re_search selected_speaker_formatted, speakers m with
    | Some g, Some _ => Ok (Some (strip_parens g))
    | _, Some (first :: _) => Ok (Some first)
    | _, Some [] => Raises IndexError
    | _, None => Ok None
    end
  else Ok None.

End Voices.

(** A speaker id as the VCTK model names its speakers: the letter p and
    a non-empty run of digits. *)
Definition vctk_id (speaker_id : string) : Prop :=
  exists d ds,
    speaker_id = String "p" (String d ds)
    /\ forallb Voices.is_digit (list_ascii_of_string (String d ds)) = true.

(** No parenthesis opens in the string. *)
Fixpoint no_open_paren (s : string) : bool :=
  match s with
  | EmptyString => true
  | String c s' => negb (Ascii.eqb c "(") && no_open_paren s'
  end.

(** A character of ASCII: a single byte of UTF-8 below 128. *)
Definition is_ascii (c : ascii) : bool := (nat_of_ascii c <? 128)%nat.

(** A speaker id that the pattern cannot match: no parenthesis opens in
    it, and it does not begin with the letter p and a digit.  As [\d]
    also matches the decimal digits outside ASCII, whose encodings begin
    with a byte above 127, the character after a leading p has to be an
    ASCII character that is no digit. *)
Definition outside_pattern (speaker_id : string) : bool :=
  no_open_paren speaker_id
  && match speaker_id with
     | String "p" (String c _) => is_ascii c && negb (Voices.is_digit c)
     | _ => true
     end.

(** A model with three speakers, one of them named outside the pattern. *)
Definition vctk_like : Voices.Model :=
  {| Voices.is_multi_speaker := true;
     Voices.speakers := Some ["p225"; "s5"; "p226"] |}.

Definition vctk_only : Voices.Model :=
  {| Voices.is_multi_speaker := true;
     Voices.speakers := Some ["p225"; "p226"; "p227"] |}.

(** The application [a] after a model has been loaded, with no
    conversion thread yet and an empty disk. *)
Definition session_of (a : Converter.App) : Pool.State :=
  Pool.idle (Voices.set_tts_loaded true a).

(** A whole run of two jobs with every external call succeeding and
    ffmpeg on the path. *)
Definition run_to_the_end : list Pool.Event :=
  [Pool.Ui Converter.Start; Pool.Worker 0 all_ok;
   Pool.Worker 0 all_ok; Pool.Worker 0 all_ok; Pool.Worker 0 all_ok;
   Pool.Worker 0 all_ok; Pool.Worker 0 all_ok; Pool.Worker 0 all_ok;
   Pool.Worker 0 all_ok; Pool.Worker 0 all_ok; Pool.Worker 0 all_ok;
   Pool.Ui Converter.AfterCallback].

(** ** kokoro_tts_app.py: the console, the saving of settings, generation *)

Module Console.

Import KokoroTTS.

(** The dict [level_order] of [filter_logs]. *)
Definition level_order (level : string) : option nat :=
  if String.eqb level "DEBUG" then Some 0%nat
  else if String.eqb level "INFO" then Some 1%nat
  else if String.eqb level "WARNING" then Some 2%nat
  else if String.eqb level "ERROR" then Some 3%nat
  else if String.eqb level "CRITICAL" then Some 4%nat
  else None.

(** Lines 608-614. *)
Definition should_show (selected_level entry_level : string) : bool :=
  if String.eqb selected_level "ALL" then true
  else
    match level_order selected_level, level_order entry_level with
    | Some selected, Some entry => (selected <=? entry)%nat
    | _, _ => true
    end.

(** The line inserted for an entry, without its newline. *)
Definition line_of (entry : string * string) : string :=
  "[" +:+ fst entry +:+ "] " +:+ snd entry.

(** [filter_logs]: the lines of the console widget after the call. *)
Definition filter_logs (a : App) : list string :=
  line_of <$> List.filter (fun entry => should_show (log_level_filter a) (fst entry))
                (log_messages a).

End Console.

(** The attributes that the widgets and the settings file can only set
    to values of fixed ranges. *)
Definition within_widgets (a : KokoroTTS.App) : Prop :=
  KokoroTTS.selected_voice a ∈ KokoroTTS.KOKORO_VOICES
  /\ Qle_bool (1 # 2) (KokoroTTS.speed a) && Qle_bool (KokoroTTS.speed a) 2 = true
  /\ KokoroTTS.output_format a ∈ ["wav"; "mp3"]
  /\ KokoroTTS.log_level_filter a ∈ KokoroTTS.LOG_LEVELS.

(** [voice[0]], line 804. *)
Definition lang_code (voice : string) : result ascii :=
  match voice with
  | String c _ => Ok c
  | EmptyString => Raises IndexError
  end.

(** A console with one entry at each of four levels. *)
Definition four_entries : KokoroTTS.App :=
  KokoroTTS.log "CRITICAL" "out of memory"
    (KokoroTTS.log "ERROR" "Error during generation"
       (KokoroTTS.log "INFO" "Pipeline initialized successfully"
          (KokoroTTS.log "DEBUG" "Processed 10 segments..." (chosen "/home/u/audio")))).

Module Saving.

Import KokoroTTS.

(** The application together with what [debounced_save] works on:
    whether a save is scheduled with [root.after] and has not run yet,
    the content of kokoro-settings.json, and how often the file has been
    written. *)
Record Session := {
  attrs : App;
  save_timer : bool;
  settings_file : SettingsFile SettingsDoc;
  writes : nat
}.

Definition with_attrs (a : App) (s : Session) : Session :=
  {| attrs := a; save_timer := save_timer s;
     settings_file := settings_file s; writes := writes s |}.

(** [debounced_save]: a scheduled save is cancelled and a new one is
    scheduled. *)
Definition debounced_save (s : Session) : Session :=
  if loading_settings (attrs s) then s
  else {| attrs := attrs s; save_timer := true;
          settings_file := settings_file s; writes := writes s |}.

(** A write of a Tk variable that has a write trace calling
    [debounced_save] (lines 460 and 467). *)
Definition traced_write (set : App -> App) (s : Session) : Session :=
  debounced_save (with_attrs (set (attrs s)) s).

Section Timer.

Variable pathlib_str : string -> string.
Variable path_usable : string -> bool.
Variable py_strip : string -> string.

(** The 400 ms have passed: the scheduled [save_settings] runs (its
    write succeeding). *)
Definition timer_fires (s : Session) : Session :=
  if save_timer s then
    {| attrs := attrs s; save_timer := false;
       settings_file := save_settings py_strip (attrs s);
       writes := S (writes s) |}
  else s.

(** [__init__] with the file and the timer.  Inside [load_settings] the
    flag [loading_settings] is set from line 299 to the [finally] clause,
    so the write traces of the variables assigned there return at line
    374; the write of line 261 comes after. *)
Definition init (p : Platform) (file : SettingsFile SettingsDoc)
  : result Session :=
  bind (load_settings pathlib_str path_usable file (setup_ui p (initial p)))
    (fun a =>
       let s := {| attrs := check_cuda p a; save_timer := false;
                   settings_file := file; writes := 0 |} in
       Ok (if negb (has_ffmpeg (attrs s)) then
             let s := traced_write (set_format "wav") s in
             with_attrs
               (log "WARNING"
                  "FFmpeg not found - MP3 output disabled. WAV format will be used."
                  (attrs s)) s
           else s)).

(** Whether the callback of a widget ends in [debounced_save]: the write
    traces of the format and the output path, and the bindings of lines
    436, 445, 511, 533 and 541.  An action that the widget does not
    allow does nothing.  [EditText] is a change of the text that the
    program sees: a key released in the text area (line 511), the Clear
    button (line 497), or a file loaded into it (line 656). *)
Definition schedules_save (o : Op) (a : App) : bool :=
  match o with
  | ClickWav => true
  | ClickMp3 => has_ffmpeg a
  | SelectVoice v => bool_decide (v ∈ KOKORO_VOICES)
  | MoveSpeed q => Qle_bool (1 # 2) q && Qle_bool q 2
  | TypeOutputPath _ => true
  | EditText _ => true
  | ClickShowConsole => true
  | SelectFilter l => bool_decide (l ∈ LOG_LEVELS)
  | ClickPlay | ClickStop | GenerationEnds => false
  end.

(** What the main loop runs: a widget callback, the timer, or a change
    of the text that no callback of the program sees.  The text area is
    a Tk [Text] widget, whose own bindings also change the text with the
    mouse alone: the middle button pastes the selection
    ([<<PasteSelection>>]) and no key is released, so neither line 511
    nor any other call of [debounced_save] runs. *)
Inductive Action :=
| Widget (o : Op)
| MousePaste (t : string)
| TimerFires.

Definition act (x : Action) (s : Session) : Session :=
  match x with
  | Widget o =>
      let s' := with_attrs (apply_op py_strip o (attrs s)) s in
      if schedules_save o (attrs s) then debounced_save s' else s'
  | MousePaste t => with_attrs (set_text t (attrs s)) s
  | TimerFires => timer_fires s
  end.

End Timer.

End Saving.

Definition is_timer (x : Saving.Action) : bool :=
  match x with
  | Saving.TimerFires => true
  | _ => false
  end.

Definition is_paste (x : Saving.Action) : bool :=
  match x with
  | Saving.MousePaste _ => true
  | _ => false
  end.

(** The file holds the attributes of [a], except possibly the text. *)
Definition saved_but_text (py_strip : string -> string)
    (file : SettingsFile KokoroTTS.SettingsDoc) (a : KokoroTTS.App) : Prop :=
  exists t,
    file = KokoroTTS.save_settings py_strip (KokoroTTS.set_text t a).

(** How often the timer fires in a sequence of actions. *)
Definition timer_count (xs : list Saving.Action) : nat :=
  length (List.filter is_timer xs).

(** The user picks a voice, drags the speed slider through three
    positions and types a word. *)
Definition burst : list Saving.Action :=
  [Saving.Widget (KokoroTTS.SelectVoice "am_adam");
   Saving.Widget (KokoroTTS.MoveSpeed (11 # 10));
   Saving.Widget (KokoroTTS.MoveSpeed (12 # 10));
   Saving.Widget (KokoroTTS.MoveSpeed (13 # 10));
   Saving.Widget (KokoroTTS.EditText "hello")].

(** The same burst; the timer fires; a sentence is then pasted with the
    mouse. *)
Definition burst_then_paste : list Saving.Action :=
  burst ++ [Saving.TimerFires; Saving.MousePaste "hello world"].

Module Generation.

Import KokoroTTS.

(** The locals of [generate_speech] that outlive the lines that set
    them: the voice and the speed read at lines 802-803, and the counter
    of the loop.  [audio_segments] has [segment_count] elements. *)
Record Locals := {
  voice : string;
  speed_read : Q;
  segment_count : nat
}.

Definition counted (l : Locals) : Locals :=
  {| voice := voice l; speed_read := speed_read l;
     segment_count := S (segment_count l) |}.

(** Where the generation thread is: started and not yet run; at the
    [for] of line 818, about to ask the pipeline for a segment; at line
    827, the loop left; or not alive. *)
Inductive Pc :=
| AtStart
| InLoop (l : Locals)
| AfterLoop (l : Locals)
| Ended.

(** What the pipeline does when asked for the next segment. *)
Inductive Pipeline :=
| Yields
| Exhausted
| PipelineRaises.

(** How the external calls of one step of the thread behave: the
    construction of [KPipeline], the pipeline asked for a segment,
    [mkdir], [sf.write] and the ffmpeg process (each of which, when it
    fails, may leave a partial file at the path it was writing). *)
Inductive WriteResult :=
| WriteOk
| WriteRaises (partial_file : bool).

Inductive FfmpegResult :=
| FfmpegOk
| FfmpegRaises (partial_file : bool).

Record Externals := {
  pipeline_ok : bool;
  next_segment : Pipeline;
  mkdir_ok : bool;
  write : WriteResult;
  ffmpeg : FfmpegResult
}.

(** The application, the files on disk (each given by its folder, as
    the output path names it, and its name), whether [self.pipeline] is
    set, and the thread. *)
Record World := {
  app : App;
  files : gset (string * string);
  pipeline_loaded : bool;
  thread : Pc
}.

Definition with_app (a : App) (w : World) : World :=
  {| app := a; files := files w; pipeline_loaded := pipeline_loaded w;
     thread := thread w |}.

Definition say (level message : string) (w : World) : World :=
  with_app (log level message (app w)) w.

Definition goto (pc : Pc) (w : World) : World :=
  {| app := app w; files := files w; pipeline_loaded := pipeline_loaded w;
     thread := pc |}.

Definition with_files (fs : gset (string * string)) (w : World) : World :=
  {| app := app w; files := fs; pipeline_loaded := pipeline_loaded w;
     thread := thread w |}.

Definition temp_wav : string := "temp_kokoro_output.wav".

(** [f"kokoro_{voice}_{segment_count}.mp3"] and its ".wav" sibling. *)
Definition output_name (voice : string) (segment_count : nat)
    (suffix : string) : string :=
  "kokoro_" +:+ voice +:+ "_" +:+ pretty segment_count +:+ suffix.

(** The [except] and [finally] clauses, lines 872-881.  The logged lines
    end with the text of the exception and with the traceback, which are
    left out here. *)
Definition on_exception (w : World) : World :=
  let w := say "ERROR" "Traceback"
             (say "ERROR" "Error during generation" w) in
  goto Ended (with_app (set_processing false (app w)) w).

(** The [finally] clause after a [try] block that ran to its end. *)
Definition on_success (w : World) : World :=
  goto Ended (with_app (set_processing false (app w)) w).

(** Lines 799-816.  The line logged at 814 ends with the speed, which is
    left out here. *)
Definition begin (ext : Externals) (w : World) : World :=
  let w := say "INFO" "Initializing Kokoro pipeline..." w in
  let voice := selected_voice (app w) in
  match voice with
  | EmptyString => on_exception w
  | String _ _ =>
      let loaded :=
        if pipeline_loaded w then Some w
        else
          let w := say "INFO" "Loading Kokoro-82M model (this may take a moment)..." w in
          if pipeline_ok ext then
            Some (say "INFO" "Pipeline initialized successfully"
                    {| app := app w; files := files w; pipeline_loaded := true;
                       thread := thread w |})
          else None in
      match loaded with
      | None =>
          on_exception
            (say "INFO" "Loading Kokoro-82M model (this may take a moment)..." w)
      | Some w =>
          goto (InLoop {| voice := voice; speed_read := speed (app w);
                          segment_count := 0 |})
            (say "INFO" ("Processing text with voice '" +:+ voice +:+ "'") w)
      end
  end.

(** One turn of the loop, lines 818-825. *)
Definition turn (ext : Externals) (l : Locals) (w : World) : World :=
  match next_segment ext with
  | PipelineRaises => on_exception w
  | Exhausted => goto (AfterLoop l) w
  | Yields =>
      if negb (is_processing (app w)) then goto (AfterLoop l) w
      else
        let l := counted l in
        let w := if (segment_count l mod 10 =? 0)%nat
                 then say "DEBUG" ("Processed " +:+ pretty (segment_count l)
                                     +:+ " segments...") w
                 else w in
        goto (InLoop l) w
  end.

(** Lines 827-870.  The lines logged at 833, 864 and 865 give numbers
    that are left out here. *)
Definition finish (ext : Externals) (l : Locals) (w : World) : World :=
  match segment_count l with
  | O => on_exception w
  | S _ =>
      let w := say "INFO" "Generated samples at 24kHz"
                 (say "INFO" "Concatenating audio segments..." w) in
      let output_format := output_format (app w) in
      let output_dir := output_path (app w) in
      if negb (mkdir_ok ext) then on_exception w
      else
        let voice := selected_voice (app w) in
        let written :=
          if String.eqb output_format "mp3" && has_ffmpeg (app w) then
            match write ext with
            | WriteRaises partial_file =>
                inl (if partial_file
                     then with_files (files w ∪ {[(output_dir, temp_wav)]}) w
                     else w)
            | WriteOk =>
                let w := with_files (files w ∪ {[(output_dir, temp_wav)]}) w in
                let output_file := output_name voice (segment_count l) ".mp3" in
                let w := say "INFO" "Converting to MP3..." w in
                match ffmpeg ext with
                | FfmpegRaises partial_file =>
                    inl (if partial_file
                         then with_files (files w ∪ {[(output_dir, output_file)]}) w
                         else w)
                | FfmpegOk =>
                    inr (with_files
                           ((files w ∪ {[(output_dir, output_file)]})
                              ∖ {[(output_dir, temp_wav)]}) w,
                         output_file)
                end
            end
          else
            let output_file := output_name voice (segment_count l) ".wav" in
            match write ext with
            | WriteRaises partial_file =>
                inl (if partial_file
                     then with_files (files w ∪ {[(output_dir, output_file)]}) w
                     else w)
            | WriteOk =>
                inr (with_files (files w ∪ {[(output_dir, output_file)]}) w,
                     output_file)
            end in
        match written with
        | inl w => on_exception w
        | inr (w, output_file) =>
            on_success
              (say "INFO" "  File size"
                 (say "INFO" "  Duration"
                    (say "INFO" ("[SUCCESS] Audio saved: " +:+ output_file) w)))
        end
  end.

(** One step of the generation thread. *)
Definition thread_step (ext : Externals) (w : World) : World :=
  match thread w with
  | AtStart => begin ext w
  | InLoop l => turn ext l w
  | AfterLoop l => finish ext l w
  | Ended => w
  end.

Section Interface.

Variable py_strip : string -> string.

(** A widget callback.  [start_generation] starts the thread when it
    sets [is_processing]; the embedding follows one generation thread:
    starting a second one while an earlier thread is still alive (after a
    Stop that the earlier thread has not yet acted on) is outside it, and
    gives [None].  The end of a generation is a step of the thread here,
    not a callback. *)
Definition widget (o : Op) (w : World) : option World :=
  match o with
  | GenerationEnds => Some w
  | ClickPlay =>
      let a := apply_op py_strip ClickPlay (app w) in
      if negb (is_processing (app w)) && is_processing a then
        match thread w with
        | Ended => Some (goto AtStart (with_app a w))
        | _ => None
        end
      else Some (with_app a w)
  | _ => Some (with_app (apply_op py_strip o (app w)) w)
  end.

Inductive Event :=
| Ui (o : Op)
| Thread (ext : Externals).

Definition step (e : Event) (w : World) : option World :=
  match e with
  | Ui o => widget o w
  | Thread ext => Some (thread_step ext w)
  end.

Fixpoint exec (sched : list Event) (w : World) : option World :=
  match sched with
  | [] => Some w
  | e :: sched' =>
      match step e w with
      | Some w' => exec sched' w'
      | None => None
      end
  end.

End Interface.

End Generation.

(** Every external call of the step succeeds. *)
Definition all_succeed (ext : Generation.Externals) : Prop :=
  Generation.mkdir_ok ext = true
  /\ Generation.write ext = Generation.WriteOk
  /\ Generation.ffmpeg ext = Generation.FfmpegOk.

Definition is_click_stop (e : Generation.Event) : bool :=
  match e with
  | Generation.Ui KokoroTTS.ClickStop => true
  | _ => false
  end.

(** The two lines that the [except] clause logs. *)
Definition error_lines : list (string * string) :=
  [("ERROR", "Error during generation"); ("ERROR", "Traceback")].

(** ** Scenarios of a generation *)

Definition smooth : Generation.Externals :=
  {| Generation.pipeline_ok := true;
     Generation.next_segment := Generation.Yields;
     Generation.mkdir_ok := true;
     Generation.write := Generation.WriteOk;
     Generation.ffmpeg := Generation.FfmpegOk |}.

Definition last_segment : Generation.Externals :=
  {| Generation.pipeline_ok := true;
     Generation.next_segment := Generation.Exhausted;
     Generation.mkdir_ok := true;
     Generation.write := Generation.WriteOk;
     Generation.ffmpeg := Generation.FfmpegOk |}.

Definition ffmpeg_fails : Generation.Externals :=
  {| Generation.pipeline_ok := true;
     Generation.next_segment := Generation.Exhausted;
     Generation.mkdir_ok := true;
     Generation.write := Generation.WriteOk;
     Generation.ffmpeg := Generation.FfmpegRaises false |}.

(** The second program at rest with some text, set to [format]. *)
Definition studio (format : string) : Generation.World :=
  {| Generation.app := KokoroTTS.set_format format (chosen "/home/u/audio");
     Generation.files := ∅;
     Generation.pipeline_loaded := false;
     Generation.thread := Generation.Ended |}.

(** The thread in its loop with [n] segments counted. *)
Definition mid_generation (format : string) (processing : bool) (n : nat)
  : Generation.World :=
  {| Generation.app :=
       KokoroTTS.set_processing processing
         (KokoroTTS.set_format format (chosen "/home/u/audio"));
     Generation.files := ∅;
     Generation.pipeline_loaded := true;
     Generation.thread :=
       Generation.InLoop {| Generation.voice := "af_sky";
                            Generation.speed_read := 3 # 2;
                            Generation.segment_count := n |} |}.

(** Play; the thread starts and counts two segments; Stop; the thread
    breaks out of its loop and goes through the lines after it. *)
Definition play_then_stop : list Generation.Event :=
  [Generation.Ui KokoroTTS.ClickPlay; Generation.Thread smooth;
   Generation.Thread smooth; Generation.Thread smooth;
   Generation.Ui KokoroTTS.ClickStop; Generation.Thread smooth;
   Generation.Thread smooth].

(** Two generations one after the other, the second with another
    voice. *)
Definition play_twice : list Generation.Event :=
  [Generation.Ui KokoroTTS.ClickPlay; Generation.Thread smooth;
   Generation.Thread smooth; Generation.Thread last_segment;
   Generation.Thread smooth; Generation.Ui KokoroTTS.ClickPlay;
   Generation.Ui (KokoroTTS.SelectVoice "am_adam");
   Generation.Ui KokoroTTS.ClickPlay; Generation.Thread smooth;
   Generation.Thread last_segment; Generation.Thread ffmpeg_fails].

(** Play pressed during a generation, and again after it has ended. *)
Definition play_again : list Generation.Event :=
  [Generation.Ui KokoroTTS.ClickPlay; Generation.Thread smooth;
   Generation.Ui KokoroTTS.ClickPlay; Generation.Thread smooth;
   Generation.Thread last_segment; Generation.Thread smooth;
   Generation.Ui KokoroTTS.ClickPlay; Generation.Thread smooth].

(** * Properties *)

(** ** The work queue *)

Lemma in_queue_elem_of (file_path : string) (q : list Job) :
  in_queue file_path q = true <-> file_path ∈ path <$> q.
Proof.
  unfold in_queue. induction q as [|item q IH]; simpl.
  - split; [discriminate | intros H; inversion H].
  - rewrite orb_true_iff, IH, elem_of_cons, String.eqb_eq.
    split; intros [H|H]; auto.
Qed.

Lemma add_file_present (root_dir file : string) (acc : list Job * nat) :
  in_queue (os_path_join root_dir file) (fst acc) = true ->
  add_file root_dir file acc = acc.
Proof.
  intros H. unfold add_file. rewrite H. simpl.
  by destruct (endswith _ _).
Qed.

Lemma add_file_NoDup (root_dir file : string) (acc : list Job * nat) :
  NoDup (path <$> fst acc) ->
  NoDup (path <$> fst (add_file root_dir file acc)).
Proof.
  intros Hnd. unfold add_file.
  destruct (endswith _ _); [|done].
  destruct (in_queue _ _) eqn:Hin; simpl; [done|].
  rewrite fmap_app. simpl. apply NoDup_app. split; [done|]. split.
  - intros p Hp Hp'. apply list_elem_of_singleton in Hp'. subst p.
    apply in_queue_elem_of in Hp. congruence.
  - apply NoDup_singleton.
Qed.

Lemma scan_NoDup (walk : list (string * list string)) (acc : list Job * nat) :
  NoDup (path <$> fst acc) -> NoDup (path <$> fst (scan walk acc)).
Proof.
  unfold scan. revert acc.
  induction walk as [|[root_dir fs] walk IH]; intros acc Hnd; simpl; [done|].
  apply IH. clear IH. revert acc Hnd.
  induction fs as [|file fs IHfs]; intros acc Hnd; simpl; [done|].
  apply IHfs. by apply add_file_NoDup.
Qed.

Lemma find_pdfs_NoDup (directory : string) (walk : list (string * list string))
    (a : App) :
  NoDup (path <$> pdf_queue a) ->
  NoDup (path <$> pdf_queue (find_pdfs directory walk a)).
Proof.
  intros Hnd. unfold find_pdfs.
  destruct (String.eqb directory ""); [done|].
  destruct (0 <? _)%nat; simpl; by apply scan_NoDup.
Qed.

(** C6.  Whatever folders are scanned, in whatever order, starting from
    the empty queue of a fresh application or from any queue without a
    repeated path, no two jobs of the queue have the same path; and
    adding a file whose path is already in the queue leaves the queue
    (and the counter of added files) as it was. *)
Theorem find_pdfs_never_duplicates :
  (forall downloads calls,
      NoDup (path <$> pdf_queue (find_all calls (initial downloads)))) /\
  (forall calls a,
      NoDup (path <$> pdf_queue a) ->
      NoDup (path <$> pdf_queue (find_all calls a))) /\
  (forall root_dir file q n,
      os_path_join root_dir file ∈ path <$> q ->
      add_file root_dir file (q, n) = (q, n)).
Proof.
  assert (Hpres : forall calls a,
             NoDup (path <$> pdf_queue a) ->
             NoDup (path <$> pdf_queue (find_all calls a))).
  { unfold find_all. induction calls as [|call calls IH]; intros a Hnd; simpl.
    - done.
    - apply IH. by apply find_pdfs_NoDup. }
  split; [|split].
  - intros downloads calls. apply Hpres. simpl. apply NoDup_nil_2.
  - exact Hpres.
  - intros root_dir file q n Hin. apply add_file_present.
    simpl. by apply in_queue_elem_of.
Qed.

(** Two scans of the same folder over a queue that already holds one of
    its files. *)
Lemma find_pdfs_never_duplicates_witness :
  let q := [{| status := "Complete"; path := "/docs/a.pdf"; filename := "a.pdf" |}] in
  let a := with_queue q (initial "/home/u/Downloads") in
  NoDup (path <$> pdf_queue
           (find_all [("/docs", [("/docs", ["a.pdf"; "B.PDF"; "notes.txt"])]);
                      ("/docs", [("/docs", ["B.PDF"])])] a))
  /\ add_file "/docs" "a.pdf" (q, 0) = (q, 0).
Proof.
  intros q a.
  destruct find_pdfs_never_duplicates as (_ & Hpres & Hsame).
  split.
  - apply Hpres. simpl. apply NoDup_singleton.
  - apply Hsame. simpl. apply list_elem_of_singleton. reflexivity.
Defined.

(** C7.  [move] with a target index outside the queue returns the queue
    as it is.  With the target inside (and the selected row [index] one
    of the queue's), the selected job ends at [index + direction], and
    removing it there leaves the other jobs in the order they had. *)
Theorem move_item_bounds (q : list Job) (index : nat) (direction : Z) :
  let new_index := (Z.of_nat index + direction)%Z in
  ((new_index < 0 \/ Z.of_nat (length q) <= new_index)%Z ->
   move index direction q = Ok q) /\
  ((0 <= new_index < Z.of_nat (length q))%Z ->
   (index < length q)%nat ->
   exists item q',
     q !! index = Some item /\
     move index direction q = Ok q' /\
     q' !! Z.to_nat new_index = Some item /\
     delete (Z.to_nat new_index) q' = delete index q /\
     length q' = length q).
Proof.
  intros new_index. unfold move. fold new_index. split.
  - intros Hout.
    destruct (0 <=? new_index)%Z eqn:H0; simpl; [|done].
    destruct (new_index <? Z.of_nat (length q))%Z eqn:H1; [|done].
    apply Z.leb_le in H0. apply Z.ltb_lt in H1. lia.
  - intros [H0 H1] Hidx.
    destruct (lookup_lt_is_Some_2 q index Hidx) as [item Hitem].
    exists item, (list_insert_at (Z.to_nat new_index) item (delete index q)).
    assert (Hlen : (Z.to_nat new_index <= length (delete index q))%nat).
    { rewrite length_delete by eauto. lia. }
    split; [done|]. split; [|split; [|split]].
    + apply Z.leb_le in H0. apply Z.ltb_lt in H1. rewrite H0, H1. simpl.
      unfold list_pop. by rewrite Hitem.
    + unfold list_insert_at.
      rewrite lookup_app_r by (rewrite length_take; lia).
      rewrite length_take, Nat.min_l by lia.
      by rewrite Nat.sub_diag.
    + unfold list_insert_at.
      set (n := Z.to_nat new_index) in *.
      assert (Hn : length (take n (delete index q)) = n)
        by (rewrite length_take; lia).
      rewrite <- Hn at 1. by rewrite delete_middle, take_drop.
    + unfold list_insert_at.
      rewrite length_app. simpl. rewrite length_take, length_drop.
      rewrite length_delete in * by eauto. lia.
Qed.

(** Moving the first job up, the last job down, and the middle job
    down, in a queue of three. *)
Lemma move_item_bounds_witness :
  let a := {| status := "Pending"; path := "/d/a.pdf"; filename := "a.pdf" |} in
  let b := {| status := "Pending"; path := "/d/b.pdf"; filename := "b.pdf" |} in
  let c := {| status := "Complete"; path := "/d/c.pdf"; filename := "c.pdf" |} in
  move 0 (-1) [a; b; c] = Ok [a; b; c] /\
  move 2 1 [a; b; c] = Ok [a; b; c] /\
  exists q', move 1 1 [a; b; c] = Ok q' /\ q' !! 2%nat = Some b
             /\ delete 2%nat q' = [a; c].
Proof.
  intros a b c. split; [|split].
  - apply (move_item_bounds [a; b; c] 0 (-1)). simpl. lia.
  - apply (move_item_bounds [a; b; c] 2 1). simpl. lia.
  - destruct (move_item_bounds [a; b; c] 1 1) as [_ H].
    destruct H as (item & q' & Hitem & Hmove & Hat & Hrest & _);
      [simpl; lia | simpl; lia |].
    exists q'. simpl in Hitem. injection Hitem as <-. auto.
Defined.

(** ** The queue runner *)

Section TryBlock.

Variable sanitize : string -> string.

Abbreviation try_block := (Converter.try_block sanitize).
Abbreviation worker_step := (Converter.worker_step sanitize).
Abbreviation step := (Converter.step sanitize).
Abbreviation exec := (Converter.exec sanitize).
Abbreviation temp_path := (Converter.temp_path sanitize).
Abbreviation final_path := (Converter.final_path sanitize).

Ltac run_try :=
  cbv beta iota zeta delta
    [Converter.try_block on_exception mark say emit bind_temp with_files
     with_app with_queue log final_status
     app files worker temp_output_path pending_stop trace
     pdf_queue destination_folder is_running is_paused selected_tts_model
     selected_voice speaker_wav_path optimize_mp3 tts_loaded console
     extract_ok synth ffmpeg_found encode negb andb].

Ltac split_outcome ext w :=
  let a := fresh "a" in
  let xo := fresh "xo" in
  let ff := fresh "ff" in
  destruct ext as [xo sy ff en], w as [a ? ? tmp ? ?];
  destruct a as [? ? ? ? ? ? ? opt ? ?];
  destruct xo, sy as [|[]], ff, en as [|[]], opt, tmp.

Ltac split_decide :=
  repeat match goal with
         | |- context [bool_decide ?P] => destruct (bool_decide P)
         end.

Lemma try_block_queue ext i item w :
  pdf_queue (app (try_block ext i item w))
  = alter (set_status (final_status (optimize_mp3 (app w)) ext)) i
      (pdf_queue (app w)).
Proof.
  split_outcome ext w; run_try; split_decide; reflexivity.
Qed.

Lemma try_block_flags ext i item w :
  is_running (app (try_block ext i item w)) = is_running (app w)
  /\ is_paused (app (try_block ext i item w)) = is_paused (app w)
  /\ optimize_mp3 (app (try_block ext i item w)) = optimize_mp3 (app w)
  /\ destination_folder (app (try_block ext i item w))
     = destination_folder (app w)
  /\ worker (try_block ext i item w) = worker w
  /\ pending_stop (try_block ext i item w) = pending_stop w.
Proof.
  split_outcome ext w; run_try; split_decide; repeat split; reflexivity.
Qed.

Lemma try_block_trace ext i item w :
  exists tr,
    trace (try_block ext i item w) = trace w ++ tr
    /\ attempts tr = []
    /\ Forall (fun e => effect_job e = i) tr.
Proof.
  split_outcome ext w; run_try; split_decide;
    rewrite <- ?app_assoc; eexists; (split; [reflexivity|]);
    (split; [reflexivity|]); repeat constructor.
Qed.

Lemma attempts_app tr1 tr2 : attempts (tr1 ++ tr2) = attempts tr1 ++ attempts tr2.
Proof.
  induction tr1 as [|e tr1 IH]; simpl; [done|].
  destruct e; simpl; try done.
  case_match; simpl; by rewrite IH.
Qed.

Lemma pending_below_alter f i k (q : list Job) :
  (k <= i)%nat -> pending_below k (alter f i q) = pending_below k q.
Proof.
  induction k as [|k IH]; intros Hk; simpl; [done|].
  rewrite list_lookup_alter_ne by lia. rewrite IH by lia. done.
Qed.

Lemma pending_below_elem_of k (q : list Job) i :
  i ∈ pending_below k q <->
  (i < k)%nat /\ exists item, q !! i = Some item /\ status item <> "Complete".
Proof.
  induction k as [|k IH]; simpl.
  - split; [intros H; inversion H | lia].
  - destruct (q !! k) as [item|] eqn:Hk.
    + destruct (String.eqb (status item) "Complete") eqn:Hs.
      * apply String.eqb_eq in Hs. rewrite IH. split.
        -- intros (? & ?); split; [lia|done].
        -- intros (Hlt & item' & Hi & Hne). split; [|eauto].
           destruct (decide (i = k)) as [->|]; [|lia]. congruence.
      * apply String.eqb_neq in Hs. rewrite elem_of_cons, IH. split.
        -- intros [->|(? & ?)]; [split; [lia|eauto] | split; [lia|done]].
        -- intros (Hlt & Hrest).
           destruct (decide (i = k)) as [->|]; [by left|right].
           split; [lia|done].
    + rewrite IH. split.
      * intros (? & ?); split; [lia|done].
      * intros (Hlt & item' & Hi & Hne). split; [|eauto].
        destruct (decide (i = k)) as [->|]; [|lia]. congruence.
Qed.

Lemma pending_below_descending k (q : list Job) :
  StronglySorted (fun i j => (j < i)%nat) (pending_below k q).
Proof.
  induction k as [|k IH]; simpl; [constructor|].
  repeat case_match; try done.
  constructor; [done|]. apply Forall_forall. intros m Hm.
  apply pending_below_elem_of in Hm. lia.
Qed.

End TryBlock.

Section RunOrder.

Variable sanitize : string -> string.

Abbreviation try_block := (Converter.try_block sanitize).
Abbreviation worker_step := (Converter.worker_step sanitize).
Abbreviation exec := (Converter.exec sanitize).

(** *** A run that is not stopped *)

Ltac keep_invariant tr :=
  split; [exists tr; split; [assumption|done]
        | split; [first [done|lia]
                 | first [done
                         | match goal with
                           | H : _ <> Exited -> _ |- _ =>
                               intros _; apply H; discriminate
                           end]]].

Lemma worker_step_invariant tr0 total ext w :
  run_invariant tr0 total w -> run_invariant tr0 total (worker_step ext w).
Proof.
  intros ((tr & Htr & Hatt) & Hb & Hact).
  unfold Converter.worker_step.
  unfold run_invariant, remaining, in_bounds, active in *.
  destruct (worker w) as [[|k]|i|i|i| |] eqn:Hpc.
  - simpl in *. keep_invariant tr.
  - destruct (Hact ltac:(done)) as [Hrun Hpend]. rewrite Hrun. simpl.
    keep_invariant tr.
  - destruct (Hact ltac:(done)) as [Hrun Hpend]. rewrite Hrun. simpl.
    destruct (is_paused (app w)); simpl in *; rewrite ?Hpc;
      keep_invariant tr.
  - destruct (Hact ltac:(done)) as [Hrun Hpend].
    destruct (lookup_lt_is_Some_2 _ _ Hb) as [item Hitem].
    simpl in Hatt. rewrite Hitem in Hatt. rewrite Hitem.
    destruct (String.eqb (status item) "Complete"); simpl.
    + keep_invariant tr.
    + split; [|split].
      * exists (tr ++ [SetStatus i "Processing"]).
        rewrite Htr, app_assoc. split; [done|].
        rewrite attempts_app. simpl.
        rewrite pending_below_alter by lia.
        by rewrite <- app_assoc.
      * by rewrite length_alter.
      * done.
  - destruct (Hact ltac:(done)) as [Hrun Hpend].
    destruct (lookup_lt_is_Some_2 _ _ Hb) as [item Hitem].
    rewrite Hitem. simpl.
    destruct (try_block_flags sanitize ext i item w) as (Hr & _ & _ & _ & _ & Hp).
    destruct (try_block_trace sanitize ext i item w) as (tr' & Htr' & Hno & _).
    rewrite try_block_queue, Hr, Hp, Htr'.
    split; [|split].
    + exists (tr ++ tr'). rewrite Htr, app_assoc. split; [done|].
      rewrite attempts_app, Hno, app_nil_r.
      by rewrite pending_below_alter by lia.
    + rewrite length_alter. lia.
    + done.
  - destruct (Hact ltac:(done)) as [Hrun Hpend]. rewrite Hrun. simpl.
    keep_invariant tr.
  - rewrite Hpc. keep_invariant tr.
Qed.

Lemma pause_resume_keeps a :
  pdf_queue (pause_resume_conversion a) = pdf_queue a
  /\ is_running (pause_resume_conversion a) = is_running a
  /\ optimize_mp3 (pause_resume_conversion a) = optimize_mp3 a.
Proof. unfold pause_resume_conversion. simpl. by destruct (is_paused a). Qed.

Lemma stop_conversion_keeps a :
  pdf_queue (stop_conversion a) = pdf_queue a
  /\ is_running (stop_conversion a) = false
  /\ is_paused (stop_conversion a) = (negb (is_running a) && is_paused a).
Proof. unfold stop_conversion. by destruct (is_running a) eqn:E. Qed.

Lemma run_invariant_transfer tr0 total w w' :
  worker w' = worker w ->
  trace w' = trace w ->
  pending_stop w' = pending_stop w ->
  pdf_queue (app w') = pdf_queue (app w) ->
  is_running (app w') = is_running (app w) ->
  run_invariant tr0 total w -> run_invariant tr0 total w'.
Proof.
  unfold run_invariant, remaining, in_bounds, active.
  intros -> -> -> -> ->. done.
Qed.

Lemma ui_step_invariant tr0 total e w w' :
  uninterrupted (Ui e) = true ->
  run_invariant tr0 total w ->
  ui_step e w = Some w' ->
  run_invariant tr0 total w'.
Proof.
  intros Hu Hinv Hstep.
  destruct e; simpl in Hu; try discriminate; simpl in Hstep.
  - injection Hstep as <-.
    destruct (pause_resume_keeps (app w)) as (? & ? & ?).
    apply (run_invariant_transfer tr0 total w); simpl; auto.
  - injection Hstep as <-.
    apply (run_invariant_transfer tr0 total w); simpl; auto.
  - destruct (pending_stop w) as [|n] eqn:Hp; injection Hstep as <-; [done|].
    destruct Hinv as ((tr & Htr & Hatt) & Hb & Hact).
    unfold run_invariant, remaining, in_bounds, active in *.
    destruct (worker w) eqn:Hpc;
      try (destruct (Hact ltac:(done)) as [_ ?]; congruence).
    simpl. split; [by exists tr|done].
Qed.

Lemma exec_invariant tr0 total sched w w' :
  forallb uninterrupted sched = true ->
  run_invariant tr0 total w ->
  exec sched w = Some w' ->
  run_invariant tr0 total w'.
Proof.
  revert w. induction sched as [|e sched IH]; intros w Hu Hinv Hex; simpl in *.
  - by injection Hex as <-.
  - apply andb_true_iff in Hu as [Hue Hu].
    destruct e as [u|ext]; simpl in Hex.
    + destruct (ui_step u w) as [w1|] eqn:Hs; [|done].
      apply (IH w1); [done| |done].
      by apply (ui_step_invariant tr0 total u w).
    + apply (IH (worker_step ext w)); [done| |done].
      by apply worker_step_invariant.
Qed.

Lemma worker_step_progress ext w :
  is_paused (app w) = false ->
  is_paused (app (worker_step ext w)) = false
  /\ (steps_left (worker (worker_step ext w)) <= pred (steps_left (worker w)))%nat.
Proof.
  intros Hp. unfold Converter.worker_step.
  destruct (worker w) as [[|k]|i|i|i| |] eqn:Hpc; simpl.
  - split; [done|lia].
  - destruct (is_running (app w)); simpl; split; try done; lia.
  - rewrite Hp. simpl. split; [done|lia].
  - destruct (pdf_queue (app w) !! i) as [item|]; simpl; [|split; [done|lia]].
    destruct (String.eqb (status item) "Complete"); simpl; split;
      try done; lia.
  - destruct (pdf_queue (app w) !! i) as [item|]; simpl; [|split; [done|lia]].
    destruct (try_block_flags sanitize ext i item w) as (_ & -> & _).
    split; [done|lia].
  - destruct (is_running (app w)); simpl; split; try done; lia.
  - rewrite Hpc. simpl. split; [done|lia].
Qed.

Lemma worker_only_exits exts w :
  is_paused (app w) = false ->
  (steps_left (worker w) <= length exts)%nat ->
  exists w', exec (Worker <$> exts) w = Some w' /\ worker w' = Exited.
Proof.
  revert w. induction exts as [|ext exts IH]; intros w Hp Hlen; simpl in *.
  - exists w. split; [done|].
    destruct (worker w) as [k| | | | |]; simpl in Hlen; try lia. done.
  - destruct (worker_step_progress ext w Hp) as [Hp' Hle].
    apply IH; [done|lia].
Qed.

(** One thread at a time.  A run started on a queue [q] while no
    conversion thread is alive and no callback is queued, and never
    stopped (whatever is done with the Pause button and the checkbox
    meanwhile, and however the external calls behave) attempts jobs in
    the order of
    [pending_below (length q) q]: at every moment the jobs attempted so
    far are an initial part of that list, and once the thread has ended
    they are exactly that list.  That list holds the indices of the jobs
    that were not "Complete", each once, from the largest index to the
    smallest.  The thread does end: when it is left to run,
    [4 * length q + 2] steps suffice. *)
Theorem process_queue_reverse_order (w : World) :
  worker w = Exited ->
  is_running (app w) = false ->
  pending_stop w = 0%nat ->
  start_rejected (app w) = false ->
  let q := pdf_queue (app w) in
  exists w1,
    start_conversion w = Some w1 /\
    (forall sched w',
        forallb uninterrupted sched = true ->
        exec sched w1 = Some w' ->
        exists tr rest,
          trace w' = trace w ++ tr /\
          attempts tr ++ rest = pending_below (length q) q /\
          (worker w' = Exited -> rest = [])) /\
    (forall exts,
        (4 * length q + 2 <= length exts)%nat ->
        exists w', exec (Worker <$> exts) w1 = Some w' /\ worker w' = Exited) /\
    StronglySorted (fun i j => (j < i)%nat) (pending_below (length q) q) /\
    (forall i,
        i ∈ pending_below (length q) q <->
        exists item, q !! i = Some item /\ status item <> "Complete").
Proof.
  intros Hpc Hrun Hpend Hok q.
  unfold start_conversion. rewrite Hok, Hrun, Hpc.
  eexists. split; [reflexivity|]. split; [|split; [|split]].
  - intros sched w' Hu Hex.
    eapply (exec_invariant (trace w) (pending_below (length q) q)) in Hex;
      [|done|].
    + destruct Hex as ((tr & Htr & Hatt) & _ & _).
      exists tr, (remaining w'). split; [done|]. split; [done|].
      unfold remaining. by intros ->.
    + split; [|split].
      * exists []. simpl. by rewrite app_nil_r.
      * unfold in_bounds. simpl. lia.
      * intros _. simpl. done.
  - intros exts Hlen. apply worker_only_exits; simpl; [done|]. fold q. lia.
  - apply pending_below_descending.
  - intros i. rewrite pending_below_elem_of. split.
    + intros (_ & H). done.
    + intros (item & Hi & Hs). split; [|eauto].
      by eapply lookup_lt_Some.
Qed.

End RunOrder.

Section OneJob.

Variable sanitize : string -> string.

Abbreviation try_block := (Converter.try_block sanitize).
Abbreviation worker_step := (Converter.worker_step sanitize).
Abbreviation temp_path := (Converter.temp_path sanitize).
Abbreviation final_path := (Converter.final_path sanitize).

(** *** One job *)

Lemma raises_final_status optimize ext :
  final_status optimize ext = (if raises optimize ext then "Error" else "Complete").
Proof.
  unfold final_status, raises.
  destruct ext as [[] [|?] [] [|?]], optimize; reflexivity.
Qed.

Lemma append_inj_l (a b b' : string) : a +:+ b = a +:+ b' -> b = b'.
Proof.
  induction a as [|c a IH]; simpl; [done|].
  intros H. injection H as H. auto.
Qed.

Lemma os_path_join_inj_r (a b b' : string) :
  startswith b "/" = startswith b' "/" ->
  os_path_join a b = os_path_join a b' -> b = b'.
Proof.
  unfold os_path_join. intros <-.
  destruct (startswith b "/"); [done|].
  destruct (_ || _); intros H.
  - by apply append_inj_l in H.
  - apply append_inj_l in H. by apply (append_inj_l "/") in H.
Qed.

Lemma temp_path_ne_final_path dest item :
  temp_path dest item <> final_path dest item.
Proof.
  unfold Converter.temp_path, Converter.final_path. intros H.
  apply os_path_join_inj_r in H.
  - apply append_inj_l in H. discriminate.
  - unfold startswith.
    destruct (base_filename sanitize item) as [|c [|c' s]]; simpl;
      try reflexivity; by destruct (ascii_dec "/" c).
Qed.

Ltac run_try :=
  cbv beta iota zeta delta
    [Converter.try_block on_exception mark say emit bind_temp with_files
     with_app with_queue log final_status raises
     app files worker temp_output_path pending_stop trace
     pdf_queue destination_folder is_running is_paused selected_tts_model
     selected_voice speaker_wav_path optimize_mp3 tts_loaded console
     extract_ok synth ffmpeg_found encode negb andb orb].

Ltac split_outcome ext w :=
  let a := fresh "a" in
  let xo := fresh "xo" in
  let ff := fresh "ff" in
  destruct ext as [xo sy ff en], w as [a ? ? tmp ? ?];
  destruct a as [? ? ? ? ? ? ? opt ? ?];
  destruct xo, sy as [|[]], ff, en as [|[]], opt, tmp.

(** The files after a job that raised. *)
Lemma try_block_files_on_error ext i item w :
  raises (optimize_mp3 (app w)) ext = true ->
  (extract_ok ext = true ->
   temp_path (destination_folder (app w)) item
     ∉ files (try_block ext i item w))
  /\ (extract_ok ext = false -> files (try_block ext i item w) ⊆ files w).
Proof.
  split_outcome ext w; run_try; intros Hraises; try discriminate Hraises;
    (split; intros Hx; try discriminate Hx);
    repeat match goal with
           | |- context [bool_decide ?P] =>
               let Hd := fresh "Hd" in
               destruct (bool_decide P) eqn:Hd;
               [apply bool_decide_eq_true in Hd
               |apply bool_decide_eq_false in Hd]
           end;
    simpl; set_unfold; intuition congruence.
Qed.

(** The files and the effects after a job that went through the rename
    branch. *)
Lemma try_block_rename ext i item w :
  extract_ok ext = true ->
  synth ext = SynthOk ->
  optimize_mp3 (app w) && ffmpeg_found ext = false ->
  files (try_block ext i item w)
  = (files w ∪ {[temp_path (destination_folder (app w)) item]})
      ∖ {[temp_path (destination_folder (app w)) item]}
      ∪ {[final_path (destination_folder (app w)) item]}
  /\ trace (try_block ext i item w)
     = trace w ++ [Extract i; Synthesize i; Rename i; SetStatus i "Complete"].
Proof.
  split_outcome ext w; run_try; intros Hx Hs Hopt;
    try discriminate Hx; try discriminate Hs; try discriminate Hopt;
    rewrite <- ?app_assoc; split; reflexivity.
Qed.



End OneJob.

Section CompleteJobs.

Variable sanitize : string -> string.

Abbreviation try_block := (Converter.try_block sanitize).
Abbreviation worker_step := (Converter.worker_step sanitize).
Abbreviation exec := (Converter.exec sanitize).

(** *** Jobs that are already complete *)

Lemma worker_step_untouched i item tr0 ext w :
  status item = "Complete" ->
  untouched i item tr0 w -> untouched i item tr0 (worker_step ext w).
Proof.
  intros Hdone (Hitem & Hpc & tr & Htr & Hall).
  unfold untouched, Converter.worker_step.
  destruct (worker w) as [[|k]|j|j|j| |] eqn:Hw.
  - simpl. eauto.
  - destruct (is_running (app w)); simpl; eauto.
  - destruct (is_paused (app w)), (is_running (app w)); simpl;
      rewrite ?Hw; eauto.
  - destruct (decide (j = i)) as [->|Hne].
    + rewrite Hitem, Hdone. simpl. eauto.
    + destruct (pdf_queue (app w) !! j) as [other|]; simpl; [|eauto].
      destruct (String.eqb (status other) "Complete"); simpl; [eauto|].
      rewrite list_lookup_alter_ne by done.
      split; [done|]. split; [congruence|].
      exists (tr ++ [SetStatus j "Processing"]).
      rewrite Htr, app_assoc. split; [done|].
      apply Forall_app. split; [done|]. by repeat constructor.
  - assert (Hne : j <> i) by congruence.
    destruct (pdf_queue (app w) !! j) as [other|]; simpl; [|eauto].
    destruct (try_block_trace sanitize ext j other w) as (tr' & Htr' & _ & Hall').
    rewrite try_block_queue, Htr', list_lookup_alter_ne by done.
    split; [done|]. split; [done|].
    exists (tr ++ tr'). rewrite Htr, app_assoc. split; [done|].
    apply Forall_app. split; [done|].
    eapply Forall_impl; [exact Hall'|]. simpl. congruence.
  - destruct (is_running (app w)); simpl; eauto.
  - rewrite Hw. eauto.
Qed.

Lemma ui_step_untouched i item tr0 e w w' :
  untouched i item tr0 w ->
  ui_step e w = Some w' ->
  untouched i item tr0 w'.
Proof.
  intros (Hitem & Hpc & Htr) Hstep. unfold untouched.
  destruct e; simpl in Hstep.
  - unfold start_conversion in Hstep.
    destruct (start_rejected (app w)); [by injection Hstep as <-|].
    destruct (is_running (app w)); [by injection Hstep as <-|].
    destruct (worker w); try discriminate. injection Hstep as <-. simpl.
    done.
  - injection Hstep as <-. simpl.
    by destruct (stop_conversion_keeps (app w)) as (-> & _).
  - injection Hstep as <-. simpl.
    by destruct (pause_resume_keeps (app w)) as (-> & _).
  - injection Hstep as <-. done.
  - destruct (pending_stop w); injection Hstep as <-; [done|]. simpl.
    by destruct (stop_conversion_keeps (app w)) as (-> & _).
Qed.

Lemma exec_untouched i item tr0 sched w w' :
  status item = "Complete" ->
  untouched i item tr0 w ->
  exec sched w = Some w' ->
  untouched i item tr0 w'.
Proof.
  intros Hdone. revert w.
  induction sched as [|e sched IH]; intros w Hinv Hex; simpl in Hex.
  - by injection Hex as <-.
  - destruct e as [u|ext]; simpl in Hex.
    + destruct (ui_step u w) as [w1|] eqn:Hs; [|done].
      apply (IH w1); [|done]. by apply (ui_step_untouched i item tr0 u w).
    + apply (IH (worker_step ext w)); [|done].
      by apply worker_step_untouched.
Qed.

(** One thread at a time.  Take a moment at which no conversion thread
    is alive and a job is "Complete".  Whatever happens from then on (any
    number of runs, paused, resumed and stopped in any way, with any
    behaviour of the external calls, as long as Start is not pressed
    while the thread of an earlier run is alive) the job stays as it is,
    and no status change, extraction, synthesis, encoding, rename or file
    removal is done for it. *)
Theorem complete_jobs_are_skipped (w w' : World) (sched : list Event)
    (i : nat) (item : Job) :
  worker w = Exited ->
  pdf_queue (app w) !! i = Some item ->
  status item = "Complete" ->
  exec sched w = Some w' ->
  pdf_queue (app w') !! i = Some item /\
  exists tr,
    trace w' = trace w ++ tr /\ Forall (fun e => effect_job e <> i) tr.
Proof.
  intros Hpc Hitem Hdone Hex.
  destruct (exec_untouched i item (trace w) sched w w' Hdone) as (? & _ & ?);
    [|done|done].
  split; [done|]. split; [congruence|]. exists []. by rewrite app_nil_r.
Qed.

End CompleteJobs.

(** C2 (the code departs from it).  Stop pressed while the run is
    paused: at that moment the last job is "Complete", the first is
    "Pending" and no job is in flight; the run state does become Idle,
    but the thread, leaving its pause loop, still takes up the first job
    and completes it. *)
Theorem stop_while_paused_still_converts_next_job :
  observe <$> exec sanitize_plain until_paused (at_rest [job_a; job_b])
  = Some (Paused, PauseWait 0, ["Pending"; "Complete"])
  /\ observe <$> exec sanitize_plain (until_paused ++ [Ui Stop])
                   (at_rest [job_a; job_b])
     = Some (Idle, PauseWait 0, ["Pending"; "Complete"])
  /\ observe <$> exec sanitize_plain (until_paused ++ stop_then_run)
                   (at_rest [job_a; job_b])
     = Some (Idle, Exited, ["Complete"; "Complete"])
  /\ (attempts ∘ trace) <$> exec sanitize_plain until_paused
                              (at_rest [job_a; job_b])
     = Some [1%nat]
  /\ (attempts ∘ trace) <$> exec sanitize_plain (until_paused ++ stop_then_run)
                              (at_rest [job_a; job_b])
     = Some [1%nat; 0%nat].
Proof. repeat split; vm_compute; reflexivity. Qed.

(** C1 (the code departs from it).  Stop and then Start are pressed
    while the first thread is inside the last job of a queue of two.  The
    second Start finds the run flag clear and creates a second thread
    next to the first: the run is Running, the first job "Pending", the
    last "Processing".  In the run so started, which is not stopped, the
    last job is attempted once more and the first job twice, once by each
    thread; both threads then end. *)
Theorem restart_during_a_job_attempts_jobs_twice :
  let s1 := Pool.run sanitize_plain restart_during_a_job
              (Pool.idle (ready [job_a; job_b])) in
  let s2 := Pool.run sanitize_plain both_threads_run s1 in
  run_state (Pool.shared s1) = Running
  /\ Pool.pc <$> Pool.threads s1 = [InTry 1; LoopHead 2]
  /\ status <$> pdf_queue (Pool.shared s1) = ["Pending"; "Processing"]
  /\ attempts (Pool.effects s1) = [1%nat]
  /\ (exists tr,
        Pool.effects s2 = Pool.effects s1 ++ tr
        /\ attempts tr = [1%nat; 0%nat; 0%nat])
  /\ Pool.pc <$> Pool.threads s2 = [Exited; Exited]
  /\ status <$> pdf_queue (Pool.shared s2) = ["Complete"; "Complete"].
Proof.
  intros s1 s2. repeat split; try (vm_compute; reflexivity).
  eexists. split; vm_compute; reflexivity.
Qed.

(** C4 (the code departs from it).  A queue of one job.  The thread of a
    stopped run is still inside the job when a second run converts it
    and ends: the run state is Idle and the job "Complete".  A third run
    is started.  The synthesis of the first thread fails and sets the job
    to "Error"; the thread of the third run then finds it not "Complete"
    and extracts, synthesizes and encodes it again. *)
Theorem late_thread_reopens_a_complete_job :
  let s1 := Pool.run sanitize_plain
              (restart_during_a_job ++ second_thread_finishes)
              (Pool.idle (ready [job_b])) in
  let s2 := Pool.run sanitize_plain third_run s1 in
  run_state (Pool.shared s1) = Idle
  /\ Pool.callbacks s1 = 0%nat
  /\ Pool.pc <$> Pool.threads s1 = [InTry 0; Exited]
  /\ status <$> pdf_queue (Pool.shared s1) = ["Complete"]
  /\ Pool.effects s2
     = Pool.effects s1
       ++ [Extract 0; Synthesize 0; SetStatus 0 "Error";
           Remove 0 "/out/docs_b_temp.mp3";
           SetStatus 0 "Processing"; Extract 0; Synthesize 0; Encode 0;
           Remove 0 "/out/docs_b_temp.mp3"; SetStatus 0 "Complete"]
  /\ Pool.pc <$> Pool.threads s2 = [LoopHead 0; Exited; LoopHead 0].
Proof. intros s1 s2. repeat split; vm_compute; reflexivity. Qed.

(** A queue of three whose middle job is complete: the third job is
    attempted, then the first. *)
Lemma process_queue_reverse_order_witness :
  exists w1,
    start_conversion (at_rest [job_a; job_done; job_b]) = Some w1 /\
    (forall exts,
        (14 <= length exts)%nat ->
        exists w', exec sanitize_plain (Worker <$> exts) w1 = Some w'
                   /\ worker w' = Exited) /\
    (forall sched w',
        forallb uninterrupted sched = true ->
        exec sanitize_plain sched w1 = Some w' ->
        exists tr rest,
          trace w' = tr /\ attempts tr ++ rest = [2%nat; 0%nat] /\
          (worker w' = Exited -> rest = [])).
Proof.
  destruct (process_queue_reverse_order sanitize_plain
              (at_rest [job_a; job_done; job_b]))
    as (w1 & Hstart & Horder & Hends & _); try reflexivity.
  exists w1. split; [exact Hstart|]. split; [exact Hends|exact Horder].
Defined.



(** Two runs over a queue whose first job is complete. *)
Lemma complete_jobs_are_skipped_witness :
  exists w',
    exec sanitize_plain two_runs (at_rest [job_done; job_a; job_b]) = Some w' /\
    pdf_queue (app w') !! 0%nat = Some job_done /\
    exists tr, trace w' = tr /\ Forall (fun e => effect_job e <> 0%nat) tr.
Proof.
  destruct (exec sanitize_plain two_runs (at_rest [job_done; job_a; job_b]))
    as [w'|] eqn:Hex; [|vm_compute in Hex; discriminate Hex].
  exists w'. split; [reflexivity|].
  exact (complete_jobs_are_skipped sanitize_plain
           (at_rest [job_done; job_a; job_b]) w' two_runs 0 job_done
           eq_refl eq_refl eq_refl Hex).
Defined.

(** ** The settings stores *)

(** The converter's [load_settings] lets the [AttributeError] of a file
    that holds JSON other than an object leave the method, and with it
    [__init__]. *)
Lemma converter_load_settings_non_object_raises (j : NonObject) (a : Converter.App)
    (downloads : string) (found : bool) :
  Converter.load_settings (NotAnObject j) a = Raises AttributeError
  /\ Converter.init downloads (NotAnObject j) found = Raises AttributeError.
Proof. split; reflexivity. Qed.

(** It lets the exception of a settings file that cannot be read leave
    the method too: [OSError] when [open] fails, [UnicodeDecodeError]
    when the bytes do not decode. *)
Lemma converter_load_settings_unreadable_raises (e : ReadError) (a : Converter.App)
    (downloads : string) (found : bool) :
  Converter.load_settings (Unreadable e) a = Raises (read_error e)
  /\ Converter.init downloads (Unreadable e) found = Raises (read_error e).
Proof. split; reflexivity. Qed.

Section SettingsProperties.

Variable pathlib_str : string -> string.
Variable path_usable : string -> bool.
Variable py_strip : string -> string.

Abbreviation tts_load := (KokoroTTS.load_settings pathlib_str path_usable).
Abbreviation tts_save := (KokoroTTS.save_settings py_strip).
Abbreviation tts_init := (KokoroTTS.init pathlib_str path_usable).
Abbreviation tts_op := (KokoroTTS.apply_op py_strip).
Abbreviation can_load := (loadable pathlib_str path_usable py_strip).

Lemma tts_round_trip (s a0 : KokoroTTS.App) :
  can_load (KokoroTTS.has_ffmpeg a0) s ->
  exists a,
    tts_load (tts_save s) a0 = Ok a
    /\ KokoroTTS.persisted a = KokoroTTS.persisted s
    /\ KokoroTTS.has_ffmpeg a = KokoroTTS.has_ffmpeg a0
    /\ KokoroTTS.loading_settings a = false
    /\ KokoroTTS.is_processing a = KokoroTTS.is_processing a0
    /\ KokoroTTS.log_messages a
       = KokoroTTS.log_messages a0
         ++ [("INFO", "Settings loaded from kokoro-settings.json")].
Proof.
  intros (Hv & Hs & Hf & Hu & Hn & Ht & Hl).
  unfold KokoroTTS.load_settings, KokoroTTS.save_settings.
  eexists. split; [reflexivity|].
  assert (Hfmt : KokoroTTS.output_format s ∈ ["wav"; "mp3"])
    by (destruct Hf as [->|[-> _]]; repeat constructor).
  unfold KokoroTTS.load_object, KokoroTTS.persisted, KokoroTTS.load_voice,
    KokoroTTS.load_speed, KokoroTTS.load_format, KokoroTTS.load_path,
    KokoroTTS.load_text, KokoroTTS.load_console, KokoroTTS.load_filter.
  cbn [KokoroTTS.doc_voice KokoroTTS.doc_speed
    KokoroTTS.doc_output_format KokoroTTS.doc_output_path
    KokoroTTS.doc_text_input KokoroTTS.doc_console_visible
    KokoroTTS.doc_log_level_filter KokoroTTS.and_then].
  rewrite (bool_decide_eq_true_2 _ Hv), Hs, Hu, Hn, Ht,
    (bool_decide_eq_true_2 _ Hl), (bool_decide_eq_true_2 _ Hfmt).
  destruct Hf as [Hf|[Hf Hff]]; rewrite Hf.
  - repeat split; reflexivity.
  - cbn. rewrite Hff. cbn. repeat split; congruence.
Qed.


Lemma subscript_block_keeps key before j a :
  (forall a, all_but_text (before a) = all_but_text a) ->
  match KokoroTTS.subscript_block key before j a with
  | KokoroTTS.Done a' => a' = a
  | KokoroTTS.Raised _ a' => all_but_text a' = all_but_text a
  end.
Proof.
  intros Hb. unfold KokoroTTS.subscript_block.
  destruct (key_in key j) as [[]|]; auto.
Qed.

Lemma load_non_object_keeps j a :
  match KokoroTTS.load_non_object j a with
  | KokoroTTS.Done a' => a' = a
  | KokoroTTS.Raised _ a' => all_but_text a' = all_but_text a
  end.
Proof.
  unfold KokoroTTS.load_non_object, KokoroTTS.speed_block.
  repeat match goal with
         | |- context [KokoroTTS.subscript_block ?k ?b j ?x] =>
             let H := fresh "H" in
             pose proof (subscript_block_keeps k b j x ltac:(done)) as H;
             destruct (KokoroTTS.subscript_block k b j x);
             [subst|exact H]; cbn [KokoroTTS.and_then]
         | |- context [key_in "speed" j] =>
             destruct (key_in "speed" j); [|done]; cbn [KokoroTTS.and_then]
         end.
  done.
Qed.

(** C8, as the code has it.  With the settings file missing, both
    loaders return without raising, change no persisted attribute and log
    nothing.  With a file whose text [json.load] rejects, both return
    without raising and log one warning; no persisted attribute changes,
    except that the converter empties its queue.  The second program's
    loader does not raise on any file: on one that cannot be read it
    logs one warning and changes nothing else, and on JSON that is not
    an object it leaves voice, speed, format, output path, console flag
    and log filter as they were. *)
Theorem load_settings_tolerates_bad_files :
  (forall a : Converter.App,
      Converter.load_settings Missing a = Ok a) /\
  (forall a : Converter.App,
      Converter.load_settings Unparseable a
      = Ok (Converter.with_queue []
              (Converter.log
                 "Could not read settings.json, it might be corrupted. Starting fresh."
                 a))) /\
  (forall a : KokoroTTS.App,
      tts_load Missing a = Ok (KokoroTTS.set_loading false a)) /\
  (forall a : KokoroTTS.App,
      tts_load Unparseable a
      = Ok (KokoroTTS.set_loading false
              (KokoroTTS.log "WARNING" "Error loading settings" a))) /\
  (forall (e : ReadError) (a : KokoroTTS.App),
      tts_load (Unreadable e) a
      = Ok (KokoroTTS.set_loading false
              (KokoroTTS.log "WARNING" "Error loading settings" a))) /\
  (forall (file : SettingsFile KokoroTTS.SettingsDoc) (a : KokoroTTS.App),
      exists a', tts_load file a = Ok a') /\
  (forall (j : NonObject) (a : KokoroTTS.App),
      exists a', tts_load (NotAnObject j) a = Ok a'
                 /\ all_but_text a' = all_but_text a).
Proof.
  split; [|split; [|split; [|split; [|split; [|split]]]]]; try reflexivity.
  - intros [|e| |j|d] a; eexists; reflexivity.
  - intros j a. unfold KokoroTTS.load_settings.
    eexists. split; [reflexivity|].
    pose proof (load_non_object_keeps j (KokoroTTS.set_loading true a)) as H.
    destruct (KokoroTTS.load_non_object j _) as [a1|e a1];
      cbn [KokoroTTS.and_then]; [by subst|].
    exact H.
Qed.

Lemma load_voice_keeps v : keeps_format (KokoroTTS.load_voice v).
Proof.
  intros a. unfold KokoroTTS.load_voice.
  destruct v as [v|]; [|done]. by destruct (bool_decide _).
Qed.

Lemma load_speed_keeps q : keeps_format (KokoroTTS.load_speed q).
Proof.
  intros a. unfold KokoroTTS.load_speed.
  destruct q as [q|]; [|done]. by destruct (_ && _).
Qed.

Lemma load_path_keeps p :
  keeps_format (KokoroTTS.load_path pathlib_str path_usable p).
Proof.
  intros a. unfold KokoroTTS.load_path.
  destruct p as [p|]; [|done]. by destruct (path_usable p).
Qed.

Lemma load_text_keeps t : keeps_format (KokoroTTS.load_text t).
Proof. intros a. by destruct t. Qed.

Lemma load_console_keeps c : keeps_format (KokoroTTS.load_console c).
Proof. intros a. by destruct c. Qed.

Lemma load_filter_keeps l : keeps_format (KokoroTTS.load_filter l).
Proof.
  intros a. unfold KokoroTTS.load_filter.
  destruct l as [l|]; [|done]. by destruct (bool_decide _).
Qed.

Lemma keeps_format_guarded f a :
  keeps_format f -> mp3_guarded a ->
  mp3_guarded (f a) /\ KokoroTTS.has_ffmpeg (f a) = KokoroTTS.has_ffmpeg a.
Proof.
  intros Hk Hg. destruct (Hk a) as [Hf Hh]. unfold mp3_guarded in *.
  rewrite Hf, Hh. done.
Qed.

Lemma load_format_guarded f a :
  mp3_guarded a ->
  mp3_guarded (KokoroTTS.load_format f a)
  /\ KokoroTTS.has_ffmpeg (KokoroTTS.load_format f a) = KokoroTTS.has_ffmpeg a.
Proof.
  intros Hg. unfold KokoroTTS.load_format, mp3_guarded in *.
  destruct f as [f|]; [|done].
  destruct (bool_decide _); [|done].
  destruct (String.eqb f "mp3") eqn:Hf; cbn [andb].
  - destruct (KokoroTTS.has_ffmpeg a) eqn:Hff; cbn; split; try done.
  - apply String.eqb_neq in Hf. cbn. split; [congruence|done].
Qed.

Lemma load_object_guarded d a :
  mp3_guarded a ->
  mp3_guarded (KokoroTTS.load_object pathlib_str path_usable d a)
  /\ KokoroTTS.has_ffmpeg (KokoroTTS.load_object pathlib_str path_usable d a)
     = KokoroTTS.has_ffmpeg a.
Proof.
  intros Hg. unfold KokoroTTS.load_object. cbv zeta.
  destruct (keeps_format_guarded _ a (load_voice_keeps (KokoroTTS.doc_voice d)) Hg)
    as [Hg1 Hh1].
  destruct (keeps_format_guarded _ _ (load_speed_keeps (KokoroTTS.doc_speed d)) Hg1)
    as [Hg2 Hh2].
  destruct (load_format_guarded (KokoroTTS.doc_output_format d) _ Hg2)
    as [Hg3 Hh3].
  destruct (keeps_format_guarded _ _ (load_path_keeps (KokoroTTS.doc_output_path d)) Hg3)
    as [Hg4 Hh4].
  destruct (keeps_format_guarded _ _ (load_text_keeps (KokoroTTS.doc_text_input d)) Hg4)
    as [Hg5 Hh5].
  destruct (keeps_format_guarded _ _
              (load_console_keeps (KokoroTTS.doc_console_visible d)) Hg5)
    as [Hg6 Hh6].
  destruct (keeps_format_guarded _ _
              (load_filter_keeps (KokoroTTS.doc_log_level_filter d)) Hg6)
    as [Hg7 Hh7].
  split; [exact Hg7|]. congruence.
Qed.

Lemma load_non_object_guarded j a :
  mp3_guarded a ->
  match KokoroTTS.load_non_object j a with
  | KokoroTTS.Done a' | KokoroTTS.Raised _ a' =>
      mp3_guarded a' /\ KokoroTTS.has_ffmpeg a' = KokoroTTS.has_ffmpeg a
  end.
Proof.
  intros Hg. unfold KokoroTTS.load_non_object, KokoroTTS.speed_block,
    KokoroTTS.subscript_block.
  repeat match goal with
         | |- context [key_in ?k j] =>
             destruct (key_in k j) as [[]|]; cbn [KokoroTTS.and_then];
             try (split; [exact Hg|reflexivity])
         end.
Qed.

Lemma load_settings_guarded file a :
  mp3_guarded a ->
  exists a', tts_load file a = Ok a'
             /\ mp3_guarded a'
             /\ KokoroTTS.has_ffmpeg a' = KokoroTTS.has_ffmpeg a.
Proof.
  intros Hg. unfold KokoroTTS.load_settings.
  destruct file as [|e| |j|d]; eexists; (split; [reflexivity|]).
  - done.
  - done.
  - done.
  - pose proof (load_non_object_guarded j (KokoroTTS.set_loading true a) Hg) as H.
    destruct (KokoroTTS.load_non_object j _); cbn [KokoroTTS.and_then]; exact H.
  - cbn [KokoroTTS.and_then].
    exact (load_object_guarded d (KokoroTTS.set_loading true a) Hg).
Qed.

Lemma init_guarded (p : KokoroTTS.Platform) file :
  exists a, tts_init p file = Ok a
            /\ mp3_guarded a
            /\ KokoroTTS.has_ffmpeg a = KokoroTTS.which_ffmpeg p.
Proof.
  unfold KokoroTTS.init.
  destruct (load_settings_guarded file
              (KokoroTTS.setup_ui p (KokoroTTS.initial p)))
    as (a1 & -> & Hg & Hff).
  { unfold mp3_guarded, KokoroTTS.setup_ui. destruct (KokoroTTS.device p); discriminate. }
  cbn [bind]. eexists. split; [reflexivity|].
  assert (Hp : KokoroTTS.has_ffmpeg a1 = KokoroTTS.which_ffmpeg p).
  { rewrite Hff. unfold KokoroTTS.setup_ui. by destruct (KokoroTTS.device p). }
  assert (Hc : KokoroTTS.has_ffmpeg (KokoroTTS.check_cuda p a1)
               = KokoroTTS.has_ffmpeg a1
               /\ KokoroTTS.output_format (KokoroTTS.check_cuda p a1)
                  = KokoroTTS.output_format a1).
  { unfold KokoroTTS.check_cuda. by destruct (KokoroTTS.device p). }
  destruct Hc as [Hc1 Hc2].
  destruct (KokoroTTS.has_ffmpeg (KokoroTTS.check_cuda p a1)) eqn:Hh; cbn.
  - split; [|congruence]. unfold mp3_guarded. rewrite Hh. done.
  - split; [|congruence]. unfold mp3_guarded. cbn. discriminate.
Qed.

Lemma apply_op_guarded o a :
  mp3_guarded a ->
  mp3_guarded (tts_op o a)
  /\ KokoroTTS.has_ffmpeg (tts_op o a) = KokoroTTS.has_ffmpeg a.
Proof.
  intros Hg. unfold mp3_guarded in *.
  destruct o; cbn -[String.eqb];
    repeat match goal with
           | |- context [bool_decide ?P] => destruct (bool_decide P)
           | |- context [Qle_bool ?x ?y] => destruct (Qle_bool x y)
           | |- context [String.eqb ?x ?y] => destruct (String.eqb x y)
           | |- context [if KokoroTTS.is_processing a then _ else _] =>
               destruct (KokoroTTS.is_processing a)
           end;
    cbn; try (split; [exact Hg|reflexivity]).
  - split; [discriminate|reflexivity].
  - destruct (KokoroTTS.has_ffmpeg a) eqn:Hff; cbn; split; try done.
    rewrite Hff. exact Hg.
Qed.

(** C10.  In the second program: start-up never raises and ends with the
    format "mp3" only if ffmpeg was found; whatever the user then does,
    the ffmpeg flag stays what the probe at start-up gave, the format is
    "mp3" only with ffmpeg, and generation takes the ffmpeg branch only
    with ffmpeg.  When ffmpeg is absent, loading a file that asks for
    "mp3" is in every respect (attributes and log) the same as loading
    that file with "wav" in its place. *)
Theorem mp3_only_with_ffmpeg :
  (forall (p : KokoroTTS.Platform)
          (file : SettingsFile KokoroTTS.SettingsDoc) (ops : list KokoroTTS.Op),
      exists a0,
        tts_init p file = Ok a0 /\
        let a := foldl (fun a o => tts_op o a) a0 ops in
        KokoroTTS.has_ffmpeg a = KokoroTTS.which_ffmpeg p /\
        (KokoroTTS.output_format a = "mp3" -> KokoroTTS.which_ffmpeg p = true) /\
        (forall n name,
            KokoroTTS.output_plan n a = KokoroTTS.EncodeMp3 name ->
            KokoroTTS.which_ffmpeg p = true)) /\
  (forall (d : KokoroTTS.SettingsDoc) (a : KokoroTTS.App),
      KokoroTTS.has_ffmpeg a = false ->
      KokoroTTS.doc_output_format d = Some "mp3" ->
      tts_load (Object d) a = tts_load (Object (with_doc_format "wav" d)) a
      /\ exists a', tts_load (Object d) a = Ok a'
                    /\ KokoroTTS.output_format a' = "wav").
Proof.
  split.
  - intros p file ops.
    destruct (init_guarded p file) as (a0 & Hinit & Hg & Hff).
    exists a0. split; [exact Hinit|]. cbn zeta.
    assert (H : mp3_guarded (foldl (fun a o => tts_op o a) a0 ops)
                /\ KokoroTTS.has_ffmpeg (foldl (fun a o => tts_op o a) a0 ops)
                   = KokoroTTS.which_ffmpeg p).
    { clear Hinit. revert a0 Hg Hff.
      induction ops as [|o ops IH]; intros a0 Hg Hff; cbn [foldl]; [done|].
      destruct (apply_op_guarded o a0 Hg) as [Hg' Hff'].
      apply IH; [done|congruence]. }
    destruct H as [Hg' Hff']. split; [exact Hff'|]. split.
    + intros Hf. rewrite <- Hff'. by apply Hg'.
    + intros n name. unfold KokoroTTS.output_plan. rewrite Hff'.
      destruct (KokoroTTS.which_ffmpeg p); [done|].
      rewrite andb_false_r. discriminate.
  - intros d a Hff Hf.
    set (a1 := KokoroTTS.load_speed (KokoroTTS.doc_speed d)
                 (KokoroTTS.load_voice (KokoroTTS.doc_voice d)
                    (KokoroTTS.set_loading true a))).
    assert (Hff1 : KokoroTTS.has_ffmpeg a1 = false).
    { unfold a1.
      destruct (load_speed_keeps (KokoroTTS.doc_speed d)
                  (KokoroTTS.load_voice (KokoroTTS.doc_voice d)
                     (KokoroTTS.set_loading true a))) as [_ ->].
      destruct (load_voice_keeps (KokoroTTS.doc_voice d)
                  (KokoroTTS.set_loading true a)) as [_ ->].
      exact Hff. }
    assert (Hsame : KokoroTTS.load_format (Some "mp3") a1
                    = KokoroTTS.load_format (Some "wav") a1).
    { unfold KokoroTTS.load_format.
      rewrite !bool_decide_eq_true_2 by repeat constructor.
      rewrite Hff1. reflexivity. }
    assert (Hload : KokoroTTS.load_object pathlib_str path_usable d
                      (KokoroTTS.set_loading true a)
                    = KokoroTTS.load_object pathlib_str path_usable
                        (with_doc_format "wav" d)
                        (KokoroTTS.set_loading true a)).
    { unfold KokoroTTS.load_object. cbv zeta.
      cbn [with_doc_format KokoroTTS.doc_voice KokoroTTS.doc_speed
        KokoroTTS.doc_output_format KokoroTTS.doc_output_path
        KokoroTTS.doc_text_input KokoroTTS.doc_console_visible
        KokoroTTS.doc_log_level_filter].
      rewrite Hf. fold a1. by rewrite Hsame. }
    unfold KokoroTTS.load_settings. cbn [KokoroTTS.and_then].
    rewrite Hload. split; [reflexivity|].
    eexists. split; [reflexivity|].
    cbn [KokoroTTS.output_format KokoroTTS.set_loading KokoroTTS.log].
    unfold KokoroTTS.load_object. cbv zeta.
    cbn [with_doc_format KokoroTTS.doc_voice KokoroTTS.doc_speed
      KokoroTTS.doc_output_format KokoroTTS.doc_output_path
      KokoroTTS.doc_text_input KokoroTTS.doc_console_visible
      KokoroTTS.doc_log_level_filter].
    fold a1.
    destruct (load_filter_keeps (KokoroTTS.doc_log_level_filter d)
                (KokoroTTS.load_console (KokoroTTS.doc_console_visible d)
                   (KokoroTTS.load_text (KokoroTTS.doc_text_input d)
                      (KokoroTTS.load_path pathlib_str path_usable
                         (KokoroTTS.doc_output_path d)
                         (KokoroTTS.load_format (Some "wav") a1)))))
      as [-> _].
    destruct (load_console_keeps (KokoroTTS.doc_console_visible d)
                (KokoroTTS.load_text (KokoroTTS.doc_text_input d)
                   (KokoroTTS.load_path pathlib_str path_usable
                      (KokoroTTS.doc_output_path d)
                      (KokoroTTS.load_format (Some "wav") a1))))
      as [-> _].
    destruct (load_text_keeps (KokoroTTS.doc_text_input d)
                (KokoroTTS.load_path pathlib_str path_usable
                   (KokoroTTS.doc_output_path d)
                   (KokoroTTS.load_format (Some "wav") a1)))
      as [-> _].
    destruct (load_path_keeps (KokoroTTS.doc_output_path d)
                (KokoroTTS.load_format (Some "wav") a1))
      as [-> _].
    unfold KokoroTTS.load_format.
    rewrite bool_decide_eq_true_2 by repeat constructor. reflexivity.
Qed.

End SettingsProperties.



(** C8 as stated fails.  With no settings file, neither loader logs
    anything: the converter's console stays empty, and the second
    program's log is what [setup_ui] wrote, with no warning in it. *)
Lemma missing_settings_file_logs_nothing :
  (exists a,
      Converter.load_settings Missing (Converter.initial "/home/u/Downloads")
      = Ok a
      /\ Converter.console a = [])
  /\ (exists a,
         KokoroTTS.load_settings plain_path disk_usable Missing (fresh true)
         = Ok a
         /\ KokoroTTS.log_messages a = KokoroTTS.log_messages (fresh true)
         /\ Forall (fun entry => fst entry <> "WARNING")
              (KokoroTTS.log_messages a)).
Proof.
  split; eexists; (split; [reflexivity|]).
  - reflexivity.
  - split; [reflexivity|]. vm_compute. repeat constructor; discriminate.
Qed.

(** A settings file that asks for MP3, loaded with and without
    ffmpeg. *)
Lemma mp3_only_with_ffmpeg_witness :
  (exists a0,
      KokoroTTS.init plain_path disk_usable (desktop true) (Object asks_mp3)
      = Ok a0
      /\ KokoroTTS.output_format a0 = "mp3"
      /\ KokoroTTS.which_ffmpeg (desktop true) = true)
  /\ (exists a,
         KokoroTTS.load_settings plain_path disk_usable (Object asks_mp3)
           (fresh false) = Ok a
         /\ KokoroTTS.output_format a = "wav").
Proof.
  destruct (mp3_only_with_ffmpeg plain_path disk_usable plain_strip)
    as [Hops Hload].
  split.
  - destruct (Hops (desktop true) (Object asks_mp3) []) as (a0 & Hinit & Hrest).
    exists a0. split; [exact Hinit|].
    assert (Hfmt : KokoroTTS.output_format a0 = "mp3").
    { vm_compute in Hinit. injection Hinit as <-. reflexivity. }
    split; [exact Hfmt|].
    destruct Hrest as (_ & Hmp3 & _). exact (Hmp3 Hfmt).
  - exact (proj2 (Hload asks_mp3 (fresh false) eq_refl eq_refl)).
Defined.

(** * Further properties *)

(** ** The other queue operations *)

Lemma rows_except_none {A} k sel (q : list A) :
  Forall (fun j => (j < k)%nat) sel -> rows_except k sel q = q.
Proof.
  revert k. induction q as [|x q IH]; intros k Hsel; simpl; [done|].
  rewrite bool_decide_eq_false_2.
  - rewrite IH; [done|]. eapply Forall_impl; [exact Hsel|]. simpl. lia.
  - intros Hk. rewrite Forall_forall in Hsel. apply Hsel in Hk. lia.
Qed.

Lemma rows_except_delete {A} k i sel (q : list A) :
  (i < length q)%nat ->
  Forall (fun j => (j < k + i)%nat) sel ->
  rows_except k sel (delete i q) = rows_except k ((k + i)%nat :: sel) q.
Proof.
  revert k i. induction q as [|x q IH]; intros k i Hi Hsel; simpl in *; [lia|].
  destruct i as [|i]; simpl.
  - rewrite Nat.add_0_r in *.
    rewrite (bool_decide_eq_true_2 (k ∈ k :: sel)) by apply list_elem_of_here.
    rewrite rows_except_none by done.
    rewrite rows_except_none; [done|].
    constructor; [lia|]. eapply Forall_impl; [exact Hsel|]. simpl. lia.
  - assert (Hiff : k ∈ (k + S i)%nat :: sel <-> k ∈ sel).
    { rewrite elem_of_cons. split; [intros [?|?]; [lia|done]|auto]. }
    rewrite (bool_decide_ext _ _ Hiff).
    replace (k + S i)%nat with (S k + i)%nat by lia.
    rewrite <- IH; [done|lia|].
    eapply Forall_impl; [exact Hsel|]. simpl. lia.
Qed.

Lemma rows_except_ext {A} k sel sel' (q : list A) :
  (forall j, j ∈ sel <-> j ∈ sel') ->
  rows_except k sel q = rows_except k sel' q.
Proof.
  intros Hiff. revert k. induction q as [|x q IH]; intros k; simpl; [done|].
  by rewrite (bool_decide_ext _ _ (Hiff k)), IH.
Qed.

Lemma delete_rows_descending (s : list nat) (q : list Job) :
  StronglySorted (fun x y => (y <= x)%nat) s ->
  NoDup s ->
  Forall (fun j => (j < length q)%nat) s ->
  QueueOps.delete_rows s q = (rows_except 0 s q, None)
  /\ (length (rows_except 0 s q) + length s = length q)%nat.
Proof.
  unfold QueueOps.delete_rows. revert q.
  induction s as [|i s IH]; intros q Hsorted Hnd Hvalid; simpl.
  - rewrite rows_except_none by done. split; [done|lia].
  - apply StronglySorted_inv in Hsorted as [Hsorted Hle].
    apply NoDup_cons in Hnd as [Hi Hnd].
    apply Forall_cons in Hvalid as [Hiq Hvalid].
    assert (Hbelow : Forall (fun j => (j < i)%nat) s).
    { apply Forall_forall. intros j Hj.
      rewrite Forall_forall in Hle. specialize (Hle j Hj).
      assert (j <> i) by congruence. lia. }
    destruct (lookup_lt_is_Some_2 q i Hiq) as [x Hx]. rewrite Hx.
    destruct (IH (delete i q) Hsorted Hnd) as [Hrows Hlen].
    { rewrite length_delete by eauto.
      eapply Forall_impl; [exact Hbelow|]. simpl. lia. }
    rewrite Hrows.
    rewrite (rows_except_delete 0 i s q Hiq) in * by done.
    split; [done|]. rewrite length_delete in Hlen by eauto. simpl in *. lia.
Qed.

Lemma sorted_reverse_spec (sel : list nat) :
  StronglySorted (fun x y => (y <= x)%nat) (QueueOps.sorted_reverse sel)
  /\ QueueOps.sorted_reverse sel ≡ₚ sel.
Proof.
  unfold QueueOps.sorted_reverse. split.
  - apply (@StronglySorted_merge_sort nat (fun x y => (y <= x)%nat)).
    + intros x y z. lia.
    + intros x y. lia.
  - apply merge_sort_Permutation.
Qed.

(** X1.  "Delete Selected", once confirmed, removes exactly the selected
    rows and leaves the other jobs in the order they had: deleting from
    the largest index down, no deletion shifts a row that is still to be
    deleted.  Declined, it changes nothing. *)
Theorem delete_selected_removes_exactly_the_selection (sel : list nat)
    (a : App) :
  sel <> [] ->
  NoDup sel ->
  Forall (fun j => (j < length (pdf_queue a))%nat) sel ->
  (exists a',
      QueueOps.delete_selected_pdfs sel true a = (a', None)
      /\ pdf_queue a' = rows_except 0 sel (pdf_queue a)
      /\ (length (pdf_queue a') + length sel = length (pdf_queue a))%nat)
  /\ QueueOps.delete_selected_pdfs sel false a = (a, None).
Proof.
  intros Hne Hnd Hvalid.
  destruct (sorted_reverse_spec sel) as [Hsorted Hperm].
  destruct (delete_rows_descending (QueueOps.sorted_reverse sel) (pdf_queue a))
    as [Hrows Hlen]; [done| | |].
  { by rewrite Hperm. }
  { by rewrite Hperm. }
  unfold QueueOps.delete_selected_pdfs.
  destruct sel as [|i sel]; [done|]. rewrite Hrows. cbn [fst snd].
  split; [|done]. eexists. split; [reflexivity|]. cbn [pdf_queue log with_queue].
  assert (Hsame : rows_except 0 (QueueOps.sorted_reverse (i :: sel)) (pdf_queue a)
                  = rows_except 0 (i :: sel) (pdf_queue a)).
  { apply rows_except_ext. intros j. by rewrite Hperm. }
  rewrite Hsame in *. split; [done|].
  rewrite <- Hlen. f_equal. symmetry. by apply Permutation_length.
Qed.

Lemma delete_selected_removes_exactly_the_selection_witness :
  exists a',
    QueueOps.delete_selected_pdfs [1%nat; 3%nat] true
      (ready [job_a; job_b; job_done; job_a]) = (a', None)
    /\ pdf_queue a' = [job_a; job_done].
Proof.
  destruct (delete_selected_removes_exactly_the_selection [1%nat; 3%nat]
              (ready [job_a; job_b; job_done; job_a]))
    as [(a' & Hdel & Hq & _) _].
  - discriminate.
  - apply (bool_decide_unpack _). vm_compute. exact I.
  - repeat constructor; simpl; lia.
  - exists a'. split; [exact Hdel|exact Hq].
Defined.

(** *** Moving a job *)

Lemma move_in_bounds (q : list Job) (index : nat) (direction : Z) (item : Job) :
  q !! index = Some item ->
  (0 <= Z.of_nat index + direction < Z.of_nat (length q))%Z ->
  move index direction q
  = Ok (list_insert_at (Z.to_nat (Z.of_nat index + direction)) item
          (delete index q)).
Proof.
  intros Hitem [H0 H1]. unfold move.
  apply Z.leb_le in H0. apply Z.ltb_lt in H1. rewrite H0, H1. simpl.
  unfold list_pop. by rewrite Hitem.
Qed.

Lemma list_insert_at_spec {A} (n : nat) (x : A) (l : list A) :
  (n <= length l)%nat ->
  list_insert_at n x l !! n = Some x
  /\ delete n (list_insert_at n x l) = l
  /\ length (list_insert_at n x l) = S (length l).
Proof.
  intros Hn. unfold list_insert_at.
  assert (Hlen : length (take n l) = n) by (rewrite length_take; lia).
  split; [|split].
  - rewrite lookup_app_r by lia. by rewrite Hlen, Nat.sub_diag.
  - rewrite <- Hlen at 1. by rewrite delete_middle, take_drop.
  - rewrite length_app. simpl. rewrite length_take, length_drop. lia.
Qed.

Lemma list_insert_at_delete {A} (i : nat) (x : A) (l : list A) :
  l !! i = Some x -> list_insert_at i x (delete i l) = l.
Proof.
  intros Hx. unfold list_insert_at.
  rewrite (delete_take_drop l i).
  assert (Hlen : length (take i l) = i).
  { rewrite length_take. apply lookup_lt_Some in Hx. lia. }
  rewrite take_app_length' by done.
  rewrite drop_app_length' by done.
  by apply take_drop_middle.
Qed.

(** X2.  A move inside the queue is undone by the opposite move from
    the new place ("Move Up" then "Move Down" on the same job gives the
    queue back), and a move only permutes the queue. *)
Theorem move_item_is_undone_by_the_opposite_move (q : list Job) (index : nat)
    (direction : Z) :
  (index < length q)%nat ->
  (0 <= Z.of_nat index + direction < Z.of_nat (length q))%Z ->
  exists q',
    move index direction q = Ok q'
    /\ move (Z.to_nat (Z.of_nat index + direction)) (- direction) q' = Ok q
    /\ q' ≡ₚ q.
Proof.
  intros Hidx Hnew.
  destruct (lookup_lt_is_Some_2 q index Hidx) as [item Hitem].
  set (n := Z.to_nat (Z.of_nat index + direction)).
  assert (Hn : (n <= length (delete index q))%nat).
  { rewrite length_delete by eauto. lia. }
  destruct (list_insert_at_spec n item (delete index q) Hn)
    as (Hat & Hdel & Hlen).
  exists (list_insert_at n item (delete index q)).
  split; [by apply move_in_bounds|]. split.
  - rewrite (move_in_bounds _ n (- direction) item Hat).
    + rewrite Hdel.
      replace (Z.to_nat (Z.of_nat n + - direction)) with index by lia.
      by rewrite list_insert_at_delete.
    + rewrite Hlen, length_delete by eauto. lia.
  - unfold list_insert_at.
    rewrite <- Permutation_middle, take_drop.
    symmetry. by apply delete_Permutation.
Qed.

Lemma move_item_is_undone_by_the_opposite_move_witness :
  exists q',
    move 2 (-1) [job_a; job_b; job_done] = Ok q'
    /\ move 1 1 q' = Ok [job_a; job_b; job_done].
Proof.
  destruct (move_item_is_undone_by_the_opposite_move
              [job_a; job_b; job_done] 2 (-1)) as (q' & Hup & Hdown & _);
    [simpl; lia | simpl; lia |].
  exists q'. split; [exact Hup|exact Hdown].
Defined.

(** *** Scanning a folder *)

Lemma add_file_appends (root_dir file : string) (acc : list Job * nat) :
  exists added,
    fst (add_file root_dir file acc) = fst acc ++ added
    /\ snd (add_file root_dir file acc) = (snd acc + length added)%nat
    /\ Forall (fun item =>
                 status item = "Pending"
                 /\ endswith (lower (filename item)) ".pdf" = true
                 /\ path item ∉ path <$> fst acc) added.
Proof.
  unfold add_file.
  destruct (endswith (lower file) ".pdf") eqn:Hpdf.
  - destruct (in_queue _ _) eqn:Hin; simpl.
    + exists []. rewrite app_nil_r. split; [done|]. split; [simpl; lia|constructor].
    + exists [{| status := "Pending"; path := os_path_join root_dir file;
                 filename := file |}].
      split; [reflexivity|]. split; [simpl; lia|].
      repeat constructor; simpl; [done|].
      intros Hp. apply in_queue_elem_of in Hp. congruence.
  - exists []. rewrite app_nil_r. split; [done|]. split; [simpl; lia|constructor].
Qed.

Lemma scan_appends (walk : list (string * list string)) (acc : list Job * nat) :
  exists added,
    fst (scan walk acc) = fst acc ++ added
    /\ snd (scan walk acc) = (snd acc + length added)%nat
    /\ Forall (fun item =>
                 status item = "Pending"
                 /\ endswith (lower (filename item)) ".pdf" = true
                 /\ path item ∉ path <$> fst acc) added.
Proof.
  unfold scan. revert acc.
  assert (Hfiles : forall root_dir files acc,
    exists added,
      fst (foldl (fun acc file => add_file root_dir file acc) acc files)
      = fst acc ++ added
      /\ snd (foldl (fun acc file => add_file root_dir file acc) acc files)
         = (snd acc + length added)%nat
      /\ Forall (fun item =>
                   status item = "Pending"
                   /\ endswith (lower (filename item)) ".pdf" = true
                   /\ path item ∉ path <$> fst acc) added).
  { intros root_dir files.
    induction files as [|file files IH]; intros acc; simpl.
    - exists []. rewrite app_nil_r. split; [done|]. split; [simpl; lia|constructor].
    - destruct (add_file_appends root_dir file acc) as (l1 & H1 & N1 & F1).
      destruct (IH (add_file root_dir file acc)) as (l2 & H2 & N2 & F2).
      exists (l1 ++ l2). rewrite H2, H1, N2, N1, app_assoc, length_app.
      split; [done|]. split; [lia|]. apply Forall_app. split; [done|].
      eapply Forall_impl; [exact F2|]. simpl.
      intros item (? & ? & Hp). split; [done|]. split; [done|].
      intros Hin. apply Hp. rewrite H1, fmap_app, elem_of_app. auto. }
  induction walk as [|[root_dir files] walk IH]; intros acc; simpl.
  - exists []. rewrite app_nil_r. split; [done|]. split; [simpl; lia|constructor].
  - destruct (Hfiles root_dir files acc) as (l1 & H1 & N1 & F1).
    destruct (IH (foldl (fun acc file => add_file root_dir file acc) acc files))
      as (l2 & H2 & N2 & F2).
    exists (l1 ++ l2). rewrite H2, H1, N2, N1, app_assoc, length_app.
    split; [done|]. split; [lia|]. apply Forall_app. split; [done|].
    eapply Forall_impl; [exact F2|]. simpl.
    intros item (? & ? & Hp). split; [done|]. split; [done|].
    intros Hin. apply Hp. rewrite H1, fmap_app, elem_of_app. auto.
Qed.

(** X3.  "Find PDFs" only appends: the jobs already in the queue stay
    where they are, with their status; every job it adds is "Pending",
    has a file name ending in ".pdf" whatever the case of the letters,
    and a path that was not in the queue.  A cancelled dialog changes
    nothing at all. *)
Theorem find_pdfs_only_appends_pending_pdfs (directory : string)
    (walk : list (string * list string)) (a : App) :
  (exists added,
      pdf_queue (find_pdfs directory walk a) = pdf_queue a ++ added
      /\ Forall (fun item =>
                   status item = "Pending"
                   /\ endswith (lower (filename item)) ".pdf" = true
                   /\ path item ∉ path <$> pdf_queue a) added)
  /\ find_pdfs "" walk a = a.
Proof.
  split; [|reflexivity]. unfold find_pdfs.
  destruct (String.eqb directory "").
  - exists []. by rewrite app_nil_r.
  - destruct (scan_appends walk (pdf_queue a, 0%nat)) as (added & Hq & _ & Hall).
    exists added. split; [|exact Hall].
    by destruct (0 <? _)%nat.
Qed.

Lemma in_queue_app p q added :
  in_queue p q = true -> in_queue p (q ++ added) = true.
Proof.
  rewrite !in_queue_elem_of, fmap_app, elem_of_app. auto.
Qed.

Lemma add_file_covers root_dir file acc :
  (endswith (lower file) ".pdf" = true ->
   in_queue (os_path_join root_dir file) (fst (add_file root_dir file acc)) = true).
Proof.
  intros Hpdf. unfold add_file. rewrite Hpdf.
  destruct (in_queue (os_path_join root_dir file) (fst acc)) eqn:Hin; simpl;
    [done|].
  apply in_queue_elem_of. rewrite fmap_app, elem_of_app. right.
  simpl. apply list_elem_of_here.
Qed.

Lemma scan_unchanged walk acc :
  covers walk (fst acc) -> scan walk acc = acc.
Proof.
  unfold scan. revert acc.
  induction walk as [|[root_dir files] walk IH]; intros acc Hc; simpl; [done|].
  assert (Hfiles : foldl (fun acc file => add_file root_dir file acc) acc files
                   = acc).
  { assert (Hin : forall file, file ∈ files ->
                    endswith (lower file) ".pdf" = true ->
                    in_queue (os_path_join root_dir file) (fst acc) = true).
    { intros file Hf. apply (Hc root_dir files); [apply list_elem_of_here|done]. }
    clear Hc IH. induction files as [|file files IHf]; simpl; [done|].
    assert (Hone : add_file root_dir file acc = acc).
    { unfold add_file.
      destruct (endswith (lower file) ".pdf") eqn:Hpdf; [|done].
      rewrite (Hin file); [done|apply list_elem_of_here|done]. }
    rewrite Hone. apply IHf. intros f Hf. apply Hin.
    by apply list_elem_of_further. }
  rewrite Hfiles. apply IH.
  intros r fs f Hr. apply (Hc r fs f). by apply list_elem_of_further.
Qed.

Lemma folder_covers root_dir files acc file :
  file ∈ files ->
  endswith (lower file) ".pdf" = true ->
  in_queue (os_path_join root_dir file)
    (fst (foldl (fun acc file => add_file root_dir file acc) acc files)) = true.
Proof.
  revert acc. induction files as [|f files IH]; intros acc Hf Hpdf; simpl.
  - by apply elem_of_nil in Hf.
  - apply elem_of_cons in Hf as [->|Hf]; [|by apply IH].
    destruct (scan_appends [(root_dir, files)] (add_file root_dir f acc))
      as (added & Hq & _).
    unfold scan in Hq. simpl in Hq. rewrite Hq.
    apply in_queue_app. by apply add_file_covers.
Qed.

Lemma scan_covers walk acc : covers walk (fst (scan walk acc)).
Proof.
  unfold scan, covers. revert acc.
  induction walk as [|[root_dir files] walk IH]; intros acc r fs f Hr Hf Hpdf.
  - by apply elem_of_nil in Hr.
  - simpl. apply elem_of_cons in Hr as [Heq|Hr].
    + injection Heq as -> ->.
      destruct (scan_appends walk
                  (foldl (fun acc file => add_file root_dir file acc) acc files))
        as (added & Hq & _).
      unfold scan in Hq. rewrite Hq.
      apply in_queue_app. by apply folder_covers.
    + by apply (IH _ r fs f).
Qed.

(** X4.  Scanning the same folder again adds nothing: the queue is the
    same after the second "Find PDFs", which only logs that no new file
    was found. *)
Theorem find_pdfs_twice_adds_nothing (directory : string)
    (walk : list (string * list string)) (a : App) :
  directory <> "" ->
  find_pdfs directory walk (find_pdfs directory walk a)
  = log ("No new PDF files found in " +:+ directory)
      (find_pdfs directory walk a).
Proof.
  intros Hdir. apply String.eqb_neq in Hdir.
  assert (Hq : covers walk (pdf_queue (find_pdfs directory walk a))).
  { unfold find_pdfs. rewrite Hdir.
    pose proof (scan_covers walk (pdf_queue a, 0%nat)) as Hc.
    by destruct (0 <? _)%nat. }
  unfold find_pdfs at 1. rewrite Hdir.
  rewrite (scan_unchanged walk (pdf_queue (find_pdfs directory walk a), 0%nat))
    by done.
  cbn [fst snd]. simpl.
  by destruct (find_pdfs directory walk a).
Qed.

Lemma find_pdfs_twice_adds_nothing_witness :
  let walk := [("/docs", ["a.pdf"; "B.PDF"; "notes.txt"])] in
  pdf_queue (find_pdfs "/docs" walk
               (find_pdfs "/docs" walk (initial "/home/u/Downloads")))
  = pdf_queue (find_pdfs "/docs" walk (initial "/home/u/Downloads")).
Proof.
  intros walk.
  rewrite (find_pdfs_twice_adds_nothing "/docs" walk
             (initial "/home/u/Downloads")); [reflexivity|discriminate].
Defined.

(** ** The queue runner: stopping, finishing, files *)

Section StoppedRun.

Variable sanitize : string -> string.

Abbreviation worker_step := (Converter.worker_step sanitize).
Abbreviation exec := (Converter.exec sanitize).

Lemma only_job_refl i w : only_job i w w.
Proof.
  split; [done|]. exists []. rewrite app_nil_r. by repeat split.
Qed.

Lemma only_job_transfer i w0 w w' :
  pdf_queue (app w') = pdf_queue (app w) ->
  trace w' = trace w ->
  only_job i w0 w -> only_job i w0 w'.
Proof. unfold only_job. intros -> ->. done. Qed.

Lemma worker_step_winding_down i w0 ext w :
  winding_down i w /\ only_job i w0 w ->
  winding_down i (worker_step ext w) /\ only_job i w0 (worker_step ext w).
Proof.
  intros [[Hrun Hpc] Honly].
  unfold winding_down, Converter.worker_step in *.
  destruct (worker w) as [[|k]|j|j|j| |] eqn:Hw; try done.
  - simpl. rewrite Hrun. simpl. done.
  - subst j. destruct (pdf_queue (app w) !! i) as [item|] eqn:Hitem; simpl;
      [|done].
    destruct (try_block_flags sanitize ext i item w) as (Hr & _).
    destruct (try_block_trace sanitize ext i item w) as (tr' & Htr' & Hno & Hall).
    rewrite Hr. split; [done|].
    destruct Honly as (Hother & tr & Htr & Hatt & Hi).
    unfold only_job. simpl. split.
    + intros j Hj. rewrite try_block_queue, list_lookup_alter_ne by done. auto.
    + exists (tr ++ tr'). rewrite Htr', Htr, app_assoc. split; [done|].
      rewrite attempts_app, Hatt, Hno. split; [done|].
      apply Forall_app. done.
  - rewrite Hrun. simpl. done.
  - rewrite Hw. done.
Qed.

Lemma ui_step_winding_down i w0 e w w' :
  is_start (Ui e) = false ->
  winding_down i w /\ only_job i w0 w ->
  ui_step e w = Some w' ->
  winding_down i w' /\ only_job i w0 w'.
Proof.
  intros He [[Hrun Hpc] Honly] Hstep.
  assert (Hstop : stop_conversion (app w) = app w).
  { unfold stop_conversion. by rewrite Hrun. }
  destruct e; simpl in He; try discriminate; simpl in Hstep.
  - injection Hstep as <-. rewrite Hstop. by destruct w.
  - injection Hstep as <-.
    destruct (pause_resume_keeps (app w)) as (Hq & Hr & _).
    split; [split; simpl; [congruence|done]|].
    by apply (only_job_transfer i w0 w).
  - injection Hstep as <-. split; [done|].
    by apply (only_job_transfer i w0 w).
  - destruct (pending_stop w); injection Hstep as <-; [done|].
    rewrite Hstop. split; [done|]. by apply (only_job_transfer i w0 w).
Qed.

Lemma exec_winding_down i w0 sched w w' :
  forallb (fun e => negb (is_start e)) sched = true ->
  winding_down i w /\ only_job i w0 w ->
  exec sched w = Some w' ->
  winding_down i w' /\ only_job i w0 w'.
Proof.
  revert w. induction sched as [|e sched IH]; intros w Hs Hinv Hex;
    simpl in Hs, Hex.
  - by injection Hex as <-.
  - apply andb_true_iff in Hs as [He Hs]. apply negb_true_iff in He.
    destruct e as [u|ext]; simpl in Hex.
    + destruct (ui_step u w) as [w1|] eqn:Hu; [|done].
      apply (IH w1); [done| |done].
      by apply (ui_step_winding_down i w0 u w).
    + apply (IH (worker_step ext w)); [done| |done].
      by apply worker_step_winding_down.
Qed.

Lemma winding_down_exits i exts w :
  winding_down i w ->
  (3 <= length exts)%nat ->
  exists w', exec (Worker <$> exts) w = Some w' /\ worker w' = Exited.
Proof.
  intros Hwd Hlen.
  assert (Hgen : forall exts w,
             winding_down i w ->
             (match worker w with
              | InTry _ => 3 | LoopHead _ => 2 | AfterLoop => 1 | _ => 0
              end <= length exts)%nat ->
             exists w', exec (Worker <$> exts) w = Some w' /\ worker w' = Exited).
  { clear exts w Hwd Hlen. intros exts.
    induction exts as [|ext exts IH]; intros w Hwd Hlen; simpl in *.
    - exists w. split; [done|].
      destruct Hwd as [_ Hpc].
      destruct (worker w); simpl in Hlen; try lia; done.
    - destruct (worker_step_winding_down i w ext w (conj Hwd (only_job_refl i w)))
        as [Hwd' _].
      apply IH; [done|].
      destruct Hwd as [Hrun Hpc].
      unfold Converter.worker_step.
      destruct (worker w) as [[|k]|j|j|j| |] eqn:Hw; try done; simpl;
        rewrite ?Hrun; simpl; try lia.
      + destruct (pdf_queue (app w) !! j) as [item|]; simpl; lia.
      + rewrite Hw. lia. }
  apply Hgen; [done|]. destruct (worker w); lia.
Qed.


End StoppedRun.


Section FinishedRun.

Variable sanitize : string -> string.

Abbreviation worker_step := (Converter.worker_step sanitize).
Abbreviation exec := (Converter.exec sanitize).

Lemma entries_alter s i (q : list Job) :
  entries (alter (set_status s) i q) = entries q.
Proof.
  unfold entries. revert i.
  induction q as [|item q IH]; intros [|i]; try done.
  change (alter (set_status s) (S i) (item :: q))
    with (item :: alter (set_status s) i q).
  rewrite !fmap_cons. by rewrite IH.
Qed.

Lemma try_block_destination ext i item w :
  destination_folder (app (Converter.try_block sanitize ext i item w))
  = destination_folder (app w).
Proof. by destruct (try_block_flags sanitize ext i item w) as (_ & _ & _ & -> & _). Qed.

Lemma worker_step_entries ext w :
  entries (pdf_queue (app (worker_step ext w))) = entries (pdf_queue (app w))
  /\ destination_folder (app (worker_step ext w)) = destination_folder (app w).
Proof.
  unfold Converter.worker_step.
  destruct (worker w) as [[|k]|i|i|i| |] eqn:Hw; simpl; try done.
  - by destruct (is_running (app w)).
  - by destruct (is_paused (app w)), (is_running (app w)).
  - destruct (pdf_queue (app w) !! i) as [item|]; simpl; [|done].
    destruct (String.eqb (status item) "Complete"); simpl; [done|].
    by rewrite entries_alter.
  - destruct (pdf_queue (app w) !! i) as [item|]; simpl; [|done].
    by rewrite try_block_queue, entries_alter, try_block_destination.
  - by destruct (is_running (app w)).
Qed.

Lemma thread_step_entries k ext s :
  entries (pdf_queue (Pool.shared (Pool.thread_step sanitize k ext s)))
  = entries (pdf_queue (Pool.shared s))
  /\ destination_folder (Pool.shared (Pool.thread_step sanitize k ext s))
     = destination_folder (Pool.shared s).
Proof.
  unfold Pool.thread_step.
  destruct (Pool.threads s !! k) as [t|]; [|done].
  exact (worker_step_entries ext (Pool.view t s)).
Qed.

Lemma pool_ui_step_entries e s :
  entries (pdf_queue (Pool.shared (Pool.ui_step e s)))
  = entries (pdf_queue (Pool.shared s))
  /\ destination_folder (Pool.shared (Pool.ui_step e s))
     = destination_folder (Pool.shared s).
Proof.
  destruct e; simpl.
  - unfold Pool.start_conversion.
    destruct (start_rejected (Pool.shared s)); [done|].
    by destruct (is_running (Pool.shared s)).
  - unfold stop_conversion. by destruct (is_running (Pool.shared s)).
  - unfold pause_resume_conversion. simpl.
    by destruct (is_paused (Pool.shared s)).
  - done.
  - destruct (Pool.callbacks s); [done|]. simpl.
    unfold stop_conversion. by destruct (is_running (Pool.shared s)).
Qed.

(** X6.  The run-control callbacks and the conversion threads change
    nothing of the queue but the status column: after any schedule of
    button presses, checkbox changes, queued callbacks and steps of any
    of the threads, also of several threads alive at once, the queue has
    the same rows, with the same paths and file names in the same order,
    and the destination folder is the same. *)
Theorem runner_changes_only_the_status_column (sched : list Pool.Event)
    (s : Pool.State) :
  let s' := Pool.run sanitize sched s in
  entries (pdf_queue (Pool.shared s')) = entries (pdf_queue (Pool.shared s))
  /\ length (pdf_queue (Pool.shared s')) = length (pdf_queue (Pool.shared s))
  /\ destination_folder (Pool.shared s') = destination_folder (Pool.shared s).
Proof.
  intros s'.
  assert (H : entries (pdf_queue (Pool.shared s'))
              = entries (pdf_queue (Pool.shared s))
              /\ destination_folder (Pool.shared s')
                 = destination_folder (Pool.shared s)).
  { unfold s'. clear s'. revert s.
    induction sched as [|e sched IH]; intros s; simpl; [done|].
    destruct (IH (Pool.step sanitize e s)) as [-> ->].
    destruct e as [u|k ext]; simpl.
    - apply pool_ui_step_entries.
    - apply thread_step_entries. }
  destruct H as [He Hd]. split; [done|]. split; [|done].
  apply (f_equal length) in He. unfold entries in He.
  by rewrite !length_fmap in He.
Qed.

Lemma final_status_settled optimize ext :
  final_status optimize ext = "Complete" \/ final_status optimize ext = "Error".
Proof.
  unfold final_status.
  destruct (negb (extract_ok ext)); [by right|].
  destruct (synth ext); [|by right].
  destruct (optimize && ffmpeg_found ext); [|by left].
  destruct (encode ext); [by left|by right].
Qed.

Lemma worker_step_settled tr0 total ext w :
  run_invariant tr0 total w ->
  settled_from (dealt_from (worker w)) (pdf_queue (app w)) /\ ended_cleanly w ->
  settled_from (dealt_from (worker (worker_step ext w)))
    (pdf_queue (app (worker_step ext w)))
  /\ ended_cleanly (worker_step ext w).
Proof.
  intros (_ & Hb & Hact) [Hset Hend].
  unfold Converter.worker_step, ended_cleanly, in_bounds, active in *.
  destruct (worker w) as [[|k]|i|i|i| |] eqn:Hw.
  - simpl. done.
  - destruct (Hact ltac:(done)) as [Hrun Hpend]. rewrite Hrun. simpl. done.
  - destruct (Hact ltac:(done)) as [Hrun Hpend]. rewrite Hrun. simpl.
    destruct (is_paused (app w)); simpl; rewrite ?Hw; done.
  - destruct (lookup_lt_is_Some_2 _ _ Hb) as [item Hitem]. rewrite Hitem.
    destruct (String.eqb (status item) "Complete") eqn:Hs; simpl.
    + apply String.eqb_eq in Hs. split; [|done].
      intros j item' Hj Hitem'.
      destruct (decide (j = i)) as [->|Hne]; [left; congruence|].
      apply (Hset j); [simpl; lia|done].
    + split; [|done]. intros j item' Hj Hitem'.
      rewrite list_lookup_alter_ne in Hitem' by lia.
      by apply (Hset j).
  - destruct (lookup_lt_is_Some_2 _ _ Hb) as [item Hitem]. rewrite Hitem.
    simpl. split; [|done]. rewrite try_block_queue.
    intros j item' Hj Hitem'.
    destruct (decide (j = i)) as [->|Hne].
    + rewrite list_lookup_alter_eq, Hitem in Hitem'. injection Hitem' as <-.
      apply final_status_settled.
    + rewrite list_lookup_alter_ne in Hitem' by done.
      apply (Hset j); [simpl; lia|done].
  - destruct (Hact ltac:(done)) as [Hrun Hpend]. rewrite Hrun. simpl.
    split; [done|]. intros _. left. split; [done|]. by rewrite Hpend.
  - rewrite Hw. done.
Qed.

Lemma ui_step_settled tr0 total e w w' :
  uninterrupted (Ui e) = true ->
  run_invariant tr0 total w ->
  settled_from (dealt_from (worker w)) (pdf_queue (app w)) /\ ended_cleanly w ->
  ui_step e w = Some w' ->
  settled_from (dealt_from (worker w')) (pdf_queue (app w')) /\ ended_cleanly w'.
Proof.
  intros Hu (_ & _ & Hact) [Hset Hend] Hstep.
  unfold ended_cleanly, active in *.
  destruct e; simpl in Hu; try discriminate; simpl in Hstep.
  - injection Hstep as <-. simpl.
    destruct (pause_resume_keeps (app w)) as (-> & -> & _). done.
  - injection Hstep as <-. done.
  - destruct (pending_stop w) as [|n] eqn:Hp; injection Hstep as <-;
      [by rewrite Hp|].
    simpl. destruct (stop_conversion_keeps (app w)) as (-> & -> & _).
    split; [done|]. intros Hex. right. split; [done|].
    destruct (Hend Hex) as [[_ H1]|[_ H0]]; lia.
Qed.

Lemma exec_settled tr0 total sched w w' :
  forallb uninterrupted sched = true ->
  run_invariant tr0 total w ->
  settled_from (dealt_from (worker w)) (pdf_queue (app w)) /\ ended_cleanly w ->
  exec sched w = Some w' ->
  settled_from (dealt_from (worker w')) (pdf_queue (app w')) /\ ended_cleanly w'.
Proof.
  revert w. induction sched as [|e sched IH]; intros w Hu Hinv Hset Hex;
    simpl in Hu, Hex.
  - by injection Hex as <-.
  - apply andb_true_iff in Hu as [Hue Hu].
    destruct e as [u|ext]; simpl in Hex.
    + destruct (ui_step u w) as [w1|] eqn:Hs; [|done].
      apply (IH w1); [done| | |done].
      * by apply (ui_step_invariant tr0 total u w).
      * by apply (ui_step_settled tr0 total u w).
    + apply (IH (worker_step ext w)); [done| | |done].
      * by apply worker_step_invariant.
      * by apply (worker_step_settled tr0 total).
Qed.


End FinishedRun.


Section FilesOfAJob.

Variable sanitize : string -> string.

Abbreviation try_block := (Converter.try_block sanitize).
Abbreviation worker_step := (Converter.worker_step sanitize).
Abbreviation exec := (Converter.exec sanitize).
Abbreviation temp_path := (Converter.temp_path sanitize).
Abbreviation final_path := (Converter.final_path sanitize).

Ltac run_try :=
  cbv beta iota zeta delta
    [Converter.try_block on_exception mark say emit bind_temp with_files
     with_app with_queue log final_status raises
     app files worker temp_output_path pending_stop trace
     pdf_queue destination_folder is_running is_paused selected_tts_model
     selected_voice speaker_wav_path optimize_mp3 tts_loaded console
     extract_ok synth ffmpeg_found encode negb andb orb].

Ltac split_outcome ext w :=
  let a := fresh "a" in
  let xo := fresh "xo" in
  let ff := fresh "ff" in
  destruct ext as [xo sy ff en], w as [a ? ? tmp ? ?];
  destruct a as [? ? ? ? ? ? ? opt ? ?];
  destruct xo, sy as [|[]], ff, en as [|[]], opt, tmp.

Ltac split_decide :=
  repeat match goal with
         | |- context [bool_decide ?P] => destruct (bool_decide P)
         end.

(** The files after a job that did not raise. *)
Lemma try_block_files_on_success ext i item w :
  raises (optimize_mp3 (app w)) ext = false ->
  forall p,
    p ∈ files (try_block ext i item w) <->
    p = final_path (destination_folder (app w)) item
    \/ (p ∈ files w /\ p <> temp_path (destination_folder (app w)) item).
Proof.
  pose proof (temp_path_ne_final_path sanitize (destination_folder (app w)) item)
    as Hne.
  revert Hne.
  split_outcome ext w; run_try; intros Hne Hraises; try discriminate Hraises;
    intros p; set_unfold; intuition congruence.
Qed.

(** Whether ffmpeg is run in a job. *)
Lemma try_block_encode ext i item w :
  exists tr,
    trace (try_block ext i item w) = trace w ++ tr
    /\ (existsb is_encode tr = true ->
        optimize_mp3 (app w) && ffmpeg_found ext = true)
    /\ (raises (optimize_mp3 (app w)) ext = false ->
        existsb is_encode tr = optimize_mp3 (app w) && ffmpeg_found ext).
Proof.
  split_outcome ext w; run_try; split_decide;
    rewrite <- ?app_assoc; eexists; (split; [reflexivity|]);
    split; simpl; intros H; first [reflexivity|discriminate H].
Qed.


Lemma worker_step_optimize ext w :
  optimize_mp3 (app (worker_step ext w)) = optimize_mp3 (app w).
Proof.
  unfold Converter.worker_step.
  destruct (worker w) as [[|k]|i|i|i| |] eqn:Hw; simpl; try done.
  - by destruct (is_running (app w)).
  - by destruct (is_paused (app w)), (is_running (app w)).
  - destruct (pdf_queue (app w) !! i) as [item|]; simpl; [|done].
    by destruct (String.eqb (status item) "Complete").
  - destruct (pdf_queue (app w) !! i) as [item|]; simpl; [|done].
    by destruct (try_block_flags sanitize ext i item w) as (_ & _ & -> & _).
  - by destruct (is_running (app w)).
Qed.

Lemma worker_step_encode ext w :
  exists tr,
    trace (worker_step ext w) = trace w ++ tr
    /\ (existsb is_encode tr = true ->
        optimize_mp3 (app w) && ffmpeg_found ext = true).
Proof.
  unfold Converter.worker_step.
  assert (Hnil : forall w' : World,
             trace w' = trace w ->
             exists tr, trace w' = trace w ++ tr
                        /\ (existsb is_encode tr = true ->
                            optimize_mp3 (app w) && ffmpeg_found ext = true)).
  { intros w' ->. exists []. by rewrite app_nil_r. }
  destruct (worker w) as [[|k]|i|i|i| |] eqn:Hw; try (by apply Hnil).
  - destruct (is_running (app w)); by apply Hnil.
  - destruct (is_paused (app w)), (is_running (app w)); by apply Hnil.
  - destruct (pdf_queue (app w) !! i) as [item|]; [|by apply Hnil].
    destruct (String.eqb (status item) "Complete"); [by apply Hnil|].
    exists [SetStatus i "Processing"]. done.
  - destruct (pdf_queue (app w) !! i) as [item|]; [|by apply Hnil].
    destruct (try_block_encode ext i item w) as (tr & Htr & Henc & _).
    exists tr. done.
  - destruct (is_running (app w)); by apply Hnil.
Qed.

Lemma thread_step_optimize k ext s :
  optimize_mp3 (Pool.shared (Pool.thread_step sanitize k ext s))
  = optimize_mp3 (Pool.shared s).
Proof.
  unfold Pool.thread_step.
  destruct (Pool.threads s !! k) as [t|]; [|done].
  exact (worker_step_optimize ext (Pool.view t s)).
Qed.

Lemma thread_step_encode k ext s :
  exists tr,
    Pool.effects (Pool.thread_step sanitize k ext s) = Pool.effects s ++ tr
    /\ (existsb is_encode tr = true ->
        optimize_mp3 (Pool.shared s) && ffmpeg_found ext = true).
Proof.
  unfold Pool.thread_step.
  destruct (Pool.threads s !! k) as [t|].
  - exact (worker_step_encode ext (Pool.view t s)).
  - exists []. by rewrite app_nil_r.
Qed.

Lemma pool_ui_step_optimize e s :
  Pool.effects (Pool.ui_step e s) = Pool.effects s
  /\ (leaves_optimize_off (Pool.Ui e) = true ->
      optimize_mp3 (Pool.shared s) = false ->
      optimize_mp3 (Pool.shared (Pool.ui_step e s)) = false).
Proof.
  destruct e; simpl.
  - unfold Pool.start_conversion.
    destruct (start_rejected (Pool.shared s)); [done|].
    by destruct (is_running (Pool.shared s)).
  - unfold stop_conversion. by destruct (is_running (Pool.shared s)).
  - by destruct (pause_resume_keeps (Pool.shared s)) as (_ & _ & ->).
  - split; [done|]. intros Hb _. by apply negb_true_iff in Hb.
  - destruct (Pool.callbacks s); [done|]. simpl.
    unfold stop_conversion. by destruct (is_running (Pool.shared s)).
Qed.

Lemma run_never_encodes (sched : list Pool.Event) (s : Pool.State) :
  forallb without_ffmpeg sched = true
  \/ (optimize_mp3 (Pool.shared s) = false
      /\ forallb leaves_optimize_off sched = true) ->
  exists tr,
    Pool.effects (Pool.run sanitize sched s) = Pool.effects s ++ tr
    /\ existsb is_encode tr = false.
Proof.
  revert s. induction sched as [|e sched IH]; intros s Hcond; simpl.
  - exists []. by rewrite app_nil_r.
  - assert (Hnext :
      (exists tr1, Pool.effects (Pool.step sanitize e s) = Pool.effects s ++ tr1
                   /\ existsb is_encode tr1 = false)
      /\ (forallb without_ffmpeg sched = true
          \/ (optimize_mp3 (Pool.shared (Pool.step sanitize e s)) = false
              /\ forallb leaves_optimize_off sched = true))).
    { destruct e as [u|k ext]; simpl.
      - destruct (pool_ui_step_optimize u s) as [Htr Hopt].
        split; [exists []; by rewrite app_nil_r|].
        destruct Hcond as [Hff|[Hoff Hkeep]]; simpl in *.
        + by left.
        + apply andb_true_iff in Hkeep as [Hu Hkeep]. right. auto.
      - destruct (thread_step_encode k ext s) as (tr1 & Htr1 & Henc).
        split.
        + exists tr1. split; [done|].
          destruct (existsb is_encode tr1) eqn:Hany; [|done].
          specialize (Henc eq_refl). apply andb_true_iff in Henc as [Ho Hf].
          destruct Hcond as [Hff|[Hoff _]]; simpl in *; [|congruence].
          apply andb_true_iff in Hff as [Hff _]. rewrite Hf in Hff. done.
        + rewrite thread_step_optimize.
          destruct Hcond as [Hff|[Hoff Hkeep]]; simpl in *.
          * apply andb_true_iff in Hff as [_ Hff]. by left.
          * right. done. }
    destruct Hnext as [(tr1 & Htr1 & Hno1) Hcond1].
    destruct (IH _ Hcond1) as (tr & Htr & Hno).
    exists (tr1 ++ tr). rewrite Htr, Htr1, app_assoc. split; [done|].
    rewrite existsb_app, Hno1, Hno. done.
Qed.

(** X9.  Over a whole session ffmpeg is never run when no call of
    [shutil.which] finds it, nor when the "Optimize MP3" flag is clear at
    the start and is not set during the session: this holds after any
    schedule of button presses, checkbox changes, queued callbacks and
    steps of the conversion threads, also with several threads alive at
    once. *)
Theorem ffmpeg_is_run_only_when_asked_for_and_found (sched : list Pool.Event)
    (s : Pool.State) :
  forallb without_ffmpeg sched = true
  \/ (optimize_mp3 (Pool.shared s) = false
      /\ forallb leaves_optimize_off sched = true) ->
  exists tr,
    Pool.effects (Pool.run sanitize sched s) = Pool.effects s ++ tr
    /\ existsb is_encode tr = false.
Proof. apply run_never_encodes. Qed.

(** X14.  Started on a machine without ffmpeg, the converter clears the
    "Optimize MP3" flag whatever settings.json says (and disables the
    checkbox); in a session that begins with the flag as start-up left
    it, and as long as the flag is not set again, ffmpeg is never run,
    even if it becomes available, whatever is pressed and however many
    conversion threads are alive at once. *)
Theorem start_without_ffmpeg_never_runs_it (downloads : string)
    (file : SettingsFile SettingsDoc) (a : App) (sched : list Pool.Event)
    (s : Pool.State) :
  init downloads file false = Ok a ->
  optimize_mp3 (Pool.shared s) = optimize_mp3 a ->
  forallb leaves_optimize_off sched = true ->
  optimize_mp3 a = false
  /\ exists tr,
       Pool.effects (Pool.run sanitize sched s) = Pool.effects s ++ tr
       /\ existsb is_encode tr = false.
Proof.
  intros Hinit Happ Hoff.
  assert (Hopt : optimize_mp3 a = false).
  { unfold init in Hinit.
    destruct (load_settings file (initial downloads)) as [a0|e]; [|done].
    simpl in Hinit. injection Hinit as <-. done. }
  split; [done|].
  apply (run_never_encodes sched s). right. by rewrite Happ, Hopt.
Qed.

End FilesOfAJob.


(** Two jobs on a machine without ffmpeg, with two threads at once. *)
Lemma ffmpeg_is_run_only_when_asked_for_and_found_witness :
  let s' := Pool.run sanitize_plain run_without_ffmpeg
              (Pool.idle (ready [job_a; job_b])) in
  status <$> pdf_queue (Pool.shared s') = ["Complete"; "Complete"]
  /\ Pool.pc <$> Pool.threads s' = [Exited; Exited]
  /\ exists tr, Pool.effects s' = tr /\ existsb is_encode tr = false.
Proof.
  intros s'. split; [vm_compute; reflexivity|].
  split; [vm_compute; reflexivity|].
  exact (ffmpeg_is_run_only_when_asked_for_and_found sanitize_plain
           run_without_ffmpeg (Pool.idle (ready [job_a; job_b]))
           (or_introl eq_refl)).
Defined.

(** A settings file with the flag set, read on a machine without
    ffmpeg; a model is then loaded and two jobs are converted with ffmpeg
    back on the path. *)
Lemma start_without_ffmpeg_never_runs_it_witness :
  exists a,
    init "/home/u/Downloads" (save_settings (ready [job_a; job_b])) false = Ok a
    /\ optimize_mp3 a = false
    /\ let s' := Pool.run sanitize_plain run_to_the_end (session_of a) in
       status <$> pdf_queue (Pool.shared s') = ["Complete"; "Complete"]
       /\ exists tr, Pool.effects s' = tr /\ existsb is_encode tr = false.
Proof.
  destruct (init "/home/u/Downloads" (save_settings (ready [job_a; job_b])) false)
    as [a|e] eqn:Hinit; [|vm_compute in Hinit; discriminate Hinit].
  exists a.
  destruct (start_without_ffmpeg_never_runs_it sanitize_plain
              "/home/u/Downloads" (save_settings (ready [job_a; job_b]))
              a run_to_the_end (session_of a) Hinit eq_refl eq_refl)
    as [Hopt Htr].
  split; [reflexivity|]. split; [exact Hopt|].
  split; [|exact Htr].
  vm_compute in Hinit. injection Hinit as <-. vm_compute. reflexivity.
Defined.

Section OneThread.

Variable sanitize : string -> string.

Abbreviation worker_step := (Converter.worker_step sanitize).
Abbreviation exec := (Converter.exec sanitize).

Lemma worker_step_one_thread ext w :
  one_thread w -> one_thread (worker_step ext w).
Proof.
  intros (Halive & Hidle & Hle).
  unfold one_thread, Converter.worker_step in *.
  destruct (worker w) as [[|k]|i|i|i| |] eqn:Hw;
    try (destruct (Halive ltac:(done)) as [Hrun Hp]; rewrite ?Hrun).
  - simpl. done.
  - simpl. done.
  - destruct (is_paused (app w)); simpl; rewrite ?Hw; done.
  - destruct (pdf_queue (app w) !! i) as [item|]; simpl.
    + destruct (String.eqb (status item) "Complete"); simpl; done.
    + rewrite Hp. split; [done|]. split; [done|lia].
  - destruct (pdf_queue (app w) !! i) as [item|]; simpl.
    + destruct (try_block_flags sanitize ext i item w)
        as (-> & _ & _ & _ & _ & ->). done.
    + rewrite Hp. split; [done|]. split; [done|lia].
  - simpl. rewrite Hp. split; [done|]. split; [congruence|lia].
  - rewrite Hw. done.
Qed.

Lemma ui_step_one_thread e w :
  is_stop (Ui e) = false ->
  one_thread w ->
  exists w', ui_step e w = Some w' /\ one_thread w'.
Proof.
  intros He Hinv. pose proof Hinv as (Halive & Hidle & Hle).
  destruct e; simpl in He; try discriminate; simpl.
  - unfold start_conversion.
    destruct (start_rejected (app w)); [by exists w|].
    destruct (is_running (app w)) eqn:Hrun; [by exists w|].
    destruct (worker w) eqn:Hw;
      try (destruct (Halive ltac:(done)) as [? _]; congruence).
    eexists. split; [reflexivity|].
    unfold one_thread. simpl.
    rewrite (Hidle eq_refl). split; [done|]. split; [done|lia].
  - eexists. split; [reflexivity|]. unfold one_thread. simpl.
    by destruct (pause_resume_keeps (app w)) as (_ & -> & _).
  - eexists. split; [reflexivity|]. done.
  - destruct (pending_stop w) as [|n] eqn:Hp; [by exists w|].
    eexists. split; [reflexivity|]. unfold one_thread. simpl.
    destruct (stop_conversion_keeps (app w)) as (_ & -> & _).
    split; [|split; [|lia]].
    + intros Hw. destruct (Halive Hw) as [_ ?]. lia.
    + intros _. lia.
Qed.

(** X10.  As long as the Stop button is not pressed, the Start button
    never starts a conversion thread while an earlier one is alive: from
    a state with no thread and no run, every schedule of Start, Pause,
    checkbox changes, queued callbacks and thread steps can be executed,
    and at its end a live thread still has the run flag set. *)
Theorem start_never_meets_a_live_thread_unless_stopped (sched : list Event)
    (w : World) :
  worker w = Exited ->
  is_running (app w) = false ->
  pending_stop w = 0%nat ->
  forallb (fun e => negb (is_stop e)) sched = true ->
  exists w',
    exec sched w = Some w'
    /\ (worker w' <> Exited -> is_running (app w') = true)
    /\ (pending_stop w' <= 1)%nat.
Proof.
  intros Hpc Hrun Hp Hs.
  assert (Hinv : one_thread w).
  { split; [by rewrite Hpc|]. split; [done|lia]. }
  clear Hpc Hrun Hp. revert w Hinv.
  induction sched as [|e sched IH]; intros w Hinv; simpl in Hs |- *.
  - exists w. split; [done|]. destruct Hinv as (Halive & _ & Hle).
    split; [|done]. intros Hw. by destruct (Halive Hw).
  - apply andb_true_iff in Hs as [He Hs]. apply negb_true_iff in He.
    destruct e as [u|ext]; simpl.
    + destruct (ui_step_one_thread u w He Hinv) as (w1 & -> & Hinv1).
      by apply IH.
    + apply IH; [done|]. by apply worker_step_one_thread.
Qed.

End OneThread.

(** Start pressed again and again during and after a run. *)
Lemma start_never_meets_a_live_thread_unless_stopped_witness :
  exists w',
    Converter.exec sanitize_plain restarts (at_rest [job_a]) = Some w'
    /\ (worker w' <> Exited -> is_running (app w') = true).
Proof.
  destruct (start_never_meets_a_live_thread_unless_stopped sanitize_plain
              restarts (at_rest [job_a]) eq_refl eq_refl eq_refl eq_refl)
    as (w' & Hex & Halive & _).
  exists w'. split; [exact Hex|exact Halive].
Defined.

Section EditedQueue.

Variable sanitize : string -> string.

Abbreviation worker_step := (Converter.worker_step sanitize).
Abbreviation exec := (Converter.exec sanitize).

Lemma delete_selected_pdfs_flags sel confirmed a :
  is_running (fst (QueueOps.delete_selected_pdfs sel confirmed a)) = is_running a.
Proof.
  unfold QueueOps.delete_selected_pdfs.
  destruct sel as [|i sel]; [done|].
  destruct confirmed; [|done].
  by destruct (snd (QueueOps.delete_rows _ _)).
Qed.

(** The thread has died on line 410 with the run flag still set. *)
Lemma dead_thread_stays_dead sched w :
  worker w = Exited ->
  is_running (app w) = true ->
  pending_stop w = 0%nat ->
  forallb (fun e => negb (is_stop e)) sched = true ->
  exists w',
    exec sched w = Some w'
    /\ worker w' = Exited
    /\ is_running (app w') = true
    /\ trace w' = trace w
    /\ pdf_queue (app w') = pdf_queue (app w).
Proof.
  revert w. induction sched as [|e sched IH]; intros w Hpc Hrun Hp Hs;
    simpl in Hs |- *.
  - by exists w.
  - apply andb_true_iff in Hs as [He Hs]. apply negb_true_iff in He.
    assert (Hnext : exists w1,
               step sanitize e w = Some w1
               /\ worker w1 = Exited /\ is_running (app w1) = true
               /\ pending_stop w1 = 0%nat
               /\ trace w1 = trace w
               /\ pdf_queue (app w1) = pdf_queue (app w)).
    { destruct e as [u|ext]; simpl.
      - destruct u; simpl in He; try discriminate; simpl.
        + unfold start_conversion. rewrite Hrun.
          destruct (start_rejected (app w)); by exists w.
        + eexists. split; [reflexivity|]. simpl.
          destruct (pause_resume_keeps (app w)) as (-> & -> & _). done.
        + eexists. split; [reflexivity|]. done.
        + rewrite Hp. by exists w.
      - eexists. split; [reflexivity|].
        unfold Converter.worker_step. rewrite Hpc. done. }
    destruct Hnext as (w1 & -> & Hpc1 & Hrun1 & Hp1 & Htr1 & Hq1).
    destruct (IH w1 Hpc1 Hrun1 Hp1 Hs) as (w' & Hex & ? & ? & ? & ?).
    exists w'. repeat split; congruence.
Qed.

(** X11.  Rows deleted from the list while the thread is about to read
    row [i] (line 410, outside the [try] block): when row [i] is gone,
    the [IndexError] ends the thread without the clean-up of lines
    458-460.  The run flag stays set, so until Stop is pressed Start does
    nothing and no job is converted. *)
Theorem deleting_rows_under_the_thread_ends_it (w : World) (i : nat)
    (sel : list nat) (a' : App) (ext : Outcome) (sched : list Event) :
  worker w = Fetch i ->
  is_running (app w) = true ->
  pending_stop w = 0%nat ->
  QueueOps.delete_selected_pdfs sel true (app w) = (a', None) ->
  (length (pdf_queue a') <= i)%nat ->
  forallb (fun e => negb (is_stop e)) sched = true ->
  exists w',
    exec (Worker ext :: sched) (with_app a' w) = Some w'
    /\ worker w' = Exited
    /\ run_state (app w') <> Idle
    /\ trace w' = trace w
    /\ pdf_queue (app w') = pdf_queue a'.
Proof.
  intros Hpc Hrun Hp Hdel Hlen Hs.
  pose proof (delete_selected_pdfs_flags sel true (app w)) as Hflag.
  rewrite Hdel, Hrun in Hflag. simpl in Hflag.
  assert (Hstep : worker_step ext (with_app a' w) = goto Exited (with_app a' w)).
  { unfold Converter.worker_step. simpl. rewrite Hpc.
    by rewrite (lookup_ge_None_2 _ _ Hlen). }
  simpl. rewrite Hstep.
  destruct (dead_thread_stays_dead sched (goto Exited (with_app a' w)))
    as (w' & Hex & Hw' & Hrun' & Htr' & Hq'); try done.
  exists w'. split; [done|]. split; [done|]. split; [|done].
  unfold run_state. rewrite Hrun'. by destruct (is_paused (app w')).
Qed.

End EditedQueue.

(** The last of two rows is deleted while the thread is about to read
    it; Start is then pressed twice. *)
Lemma deleting_rows_under_the_thread_ends_it_witness :
  exists w',
    Converter.exec sanitize_plain
      [Worker all_ok; Ui Start; Worker all_ok; Ui Start]
      (with_app
         (fst (QueueOps.delete_selected_pdfs [1%nat] true
                 (app (about_to_fetch [job_a; job_b] 1))))
         (about_to_fetch [job_a; job_b] 1)) = Some w'
    /\ worker w' = Exited
    /\ run_state (app w') <> Idle
    /\ pdf_queue (app w') = [job_a].
Proof.
  destruct (deleting_rows_under_the_thread_ends_it sanitize_plain
              (about_to_fetch [job_a; job_b] 1) 1 [1%nat]
              (fst (QueueOps.delete_selected_pdfs [1%nat] true
                      (app (about_to_fetch [job_a; job_b] 1))))
              all_ok [Ui Start; Worker all_ok; Ui Start]
              eq_refl eq_refl eq_refl eq_refl ltac:(simpl; lia) eq_refl)
    as (w' & Hex & Hpc & Hstate & _ & Hq).
  exists w'. split; [exact Hex|]. split; [exact Hpc|]. split; [exact Hstate|].
  exact Hq.
Defined.

(** ** Voices: from the combobox to the engine *)

Lemma pretty_N_go_no_open_paren x s :
  no_open_paren s = true -> no_open_paren (pretty_N_go x s) = true.
Proof.
  revert s. induction (N.lt_wf_0 x) as [x _ IH]; intros s Hs.
  assert (x = 0 \/ 0 < x)%N as [->|Hpos] by lia.
  - by rewrite pretty_N_go_0.
  - rewrite pretty_N_go_step by done. apply IH.
    + by apply N.div_lt.
    + simpl. rewrite Hs, andb_true_r.
      unfold pretty_N_char. by repeat case_match.
Qed.

Lemma pretty_nat_no_open_paren (n : nat) : no_open_paren (pretty n) = true.
Proof.
  unfold pretty, pretty_nat, pretty, pretty_N.
  destruct (decide (N.of_nat n = 0%N)); [done|].
  by apply pretty_N_go_no_open_paren.
Qed.

Lemma no_open_paren_app s1 s2 :
  no_open_paren (s1 +:+ s2) = no_open_paren s1 && no_open_paren s2.
Proof.
  induction s1 as [|c s1 IH]; simpl; [done|].
  by rewrite IH, andb_assoc.
Qed.

Lemma match_here_not_open c s :
  Ascii.eqb c "(" = false -> Voices.match_here (String c s) = None.
Proof.
  destruct c as [[] [] [] [] [] [] [] []]; simpl; intros H;
    first [reflexivity|discriminate H].
Qed.

Lemma re_search_skip s1 s2 :
  no_open_paren s1 = true ->
  Voices.re_search (s1 +:+ s2) = Voices.re_search s2.
Proof.
  induction s1 as [|c s1 IH]; intros Hs; [done|].
  simpl in Hs. apply andb_true_iff in Hs as [Hc Hs].
  apply negb_true_iff in Hc.
  change (String c s1 +:+ s2) with (String c (s1 +:+ s2)).
  cbn [Voices.re_search]. rewrite (match_here_not_open c _ Hc). auto.
Qed.

Lemma re_search_none s :
  no_open_paren s = true -> Voices.re_search s = None.
Proof.
  induction s as [|c s IH]; intros Hs; [done|].
  simpl in Hs. apply andb_true_iff in Hs as [Hc Hs].
  apply negb_true_iff in Hc.
  cbn [Voices.re_search]. rewrite (match_here_not_open c _ Hc). auto.
Qed.

Lemma is_digit_not_paren c : Voices.is_digit c = true -> Voices.is_paren c = false.
Proof.
  destruct c as [[] [] [] [] [] [] [] []]; vm_compute; intros H;
    first [reflexivity|discriminate H].
Qed.

Lemma span_digits_run ds rest :
  forallb Voices.is_digit (list_ascii_of_string ds) = true ->
  Voices.span_digits (ds +:+ String ")" rest) = (ds, String ")" rest).
Proof.
  induction ds as [|d ds IH]; intros Hds; [done|].
  simpl in Hds. apply andb_true_iff in Hds as [Hd Hds].
  change (String d ds +:+ String ")" rest)
    with (String d (ds +:+ String ")" rest)).
  cbn [Voices.span_digits]. rewrite Hd, (IH Hds). done.
Qed.

Lemma rstrip_parens_run d ds :
  forallb Voices.is_digit (list_ascii_of_string (String d ds)) = true ->
  Voices.rstrip_parens (String d ds +:+ ")") = String d ds.
Proof.
  revert d. induction ds as [|d' ds IH]; intros d Hds.
  - simpl in Hds. rewrite andb_true_r in Hds.
    apply is_digit_not_paren in Hds.
    change (Voices.rstrip_parens (String d ")")
            = String d EmptyString).
    cbn [Voices.rstrip_parens]. simpl Voices.is_paren at 1.
    by rewrite Hds.
  - simpl in Hds. apply andb_true_iff in Hds as [Hd Hds].
    change (String d (String d' ds) +:+ ")")
      with (String d (String d' ds +:+ ")")).
    cbn [Voices.rstrip_parens]. fold Voices.rstrip_parens.
    rewrite (IH d') by done. done.
Qed.

(** The search passes over the text before the parenthesis. *)
Lemma re_search_format_voice i speaker_id :
  Voices.re_search (Voices.format_voice i speaker_id)
  = Voices.re_search ("(" +:+ speaker_id +:+ ")").
Proof.
  unfold Voices.format_voice.
  rewrite (re_search_skip "Speaker ") by done.
  rewrite (re_search_skip (pretty (S i))) by apply pretty_nat_no_open_paren.
  change (" (" +:+ speaker_id +:+ ")")
    with (" " +:+ "(" +:+ speaker_id +:+ ")").
  by rewrite (re_search_skip " ").
Qed.

(** The pattern finds a VCTK id in the text of its combobox entry, and
    stripping the parentheses gives the id back. *)
Lemma format_voice_parsed i speaker_id :
  vctk_id speaker_id ->
  Voices.re_search (Voices.format_voice i speaker_id)
  = Some ("(" +:+ speaker_id +:+ ")")
  /\ Voices.strip_parens ("(" +:+ speaker_id +:+ ")") = speaker_id.
Proof.
  intros (d & ds & -> & Hds).
  split.
  - rewrite re_search_format_voice.
    change ("(" +:+ String "p" (String d ds) +:+ ")")
      with (String "(" (String "p" (String d ds +:+ ")"))).
    cbn [Voices.re_search Voices.match_here].
    rewrite (span_digits_run (String d ds) EmptyString Hds). done.
  - unfold Voices.strip_parens.
    change (Voices.lstrip_parens ("(" +:+ String "p" (String d ds) +:+ ")"))
      with (String "p" (String d ds +:+ ")")).
    cbn [Voices.rstrip_parens]. fold Voices.rstrip_parens.
    rewrite (rstrip_parens_run d ds Hds). done.
Qed.

Lemma format_voice_not_empty i speaker_id :
  String.eqb (Voices.format_voice i speaker_id) "" = false.
Proof. done. Qed.

(** X12.  After a multi-speaker model whose speakers are named as those
    of VCTK has been loaded, the voice shown in the combobox is one of
    the entries made from the speaker list (the saved voice when it is
    one of them, the first entry otherwise), and the speaker id that
    [process_queue] reads back out of that text is the id the entry was
    made from. *)
Theorem selected_voice_reaches_the_engine (m : Voices.Model)
    (all : list string) (a : App) :
  Voices.is_multi_speaker m = true ->
  Voices.speakers m = Some all ->
  all <> [] ->
  Forall vctk_id all ->
  let a' := Voices.update_model_status (Voices.LoadOk m) a in
  (exists i speaker_id,
      all !! i = Some speaker_id
      /\ selected_voice a' = Voices.format_voice i speaker_id
      /\ Voices.speaker_id_for m (selected_voice a') = Ok (Some speaker_id))
  /\ (selected_voice a ∈ Voices.formatted_voices all ->
      selected_voice a' = selected_voice a)
  /\ tts_loaded a' = true.
Proof.
  intros Hmulti Hsp Hne Hall a'.
  assert (Hparse : forall i speaker_id,
             all !! i = Some speaker_id ->
             Voices.speaker_id_for m (Voices.format_voice i speaker_id)
             = Ok (Some speaker_id)).
  { intros i speaker_id Hi.
    assert (Hid : vctk_id speaker_id).
    { eapply Forall_forall; [exact Hall|]. by eapply list_elem_of_lookup_2. }
    destruct (format_voice_parsed i speaker_id Hid) as [Hre Hstrip].
    unfold Voices.speaker_id_for. by rewrite Hmulti, Hre, Hsp, Hstrip. }
  destruct all as [|first others]; [done|].
  unfold a', Voices.update_model_status, Voices.load_model_returns.
  rewrite Hmulti, Hsp.
  cbn [selected_voice log Voices.set_tts_loaded].
  destruct (String.eqb (selected_voice a) "") eqn:Hempty; cbn [negb andb].
  - apply String.eqb_eq in Hempty.
    cbn [selected_voice log Voices.set_selected_voice tts_loaded].
    split; [|split; [|done]].
    + exists 0%nat, first. split; [done|]. split; [done|]. by apply Hparse.
    + intros Hin. rewrite Hempty in Hin.
      apply elem_of_lookup_imap in Hin as (i & y & Hy & _).
      symmetry in Hy. apply String.eqb_eq in Hy.
      by rewrite format_voice_not_empty in Hy.
  - destruct (bool_decide (selected_voice a ∈ Voices.formatted_voices (first :: others)))
      eqn:Hin;
      cbn [selected_voice log Voices.set_selected_voice tts_loaded].
    + apply bool_decide_eq_true in Hin.
      split; [|split; [done|done]].
      apply elem_of_lookup_imap in Hin as (i & y & Hy & Hi).
      exists i, y. split; [done|]. split; [done|].
      rewrite Hy. by apply Hparse.
    + apply bool_decide_eq_false in Hin.
      split; [|split; [done|done]].
      exists 0%nat, first. split; [done|]. split; [done|]. by apply Hparse.
Qed.

(** The saved voice is the second of three. *)
Lemma selected_voice_reaches_the_engine_witness :
  let a' := Voices.update_model_status (Voices.LoadOk vctk_only)
              (Voices.set_selected_voice "Speaker 2 (p226)" (ready [])) in
  selected_voice a' = "Speaker 2 (p226)"
  /\ exists i speaker_id,
       [("p225" : string); "p226"; "p227"] !! i = Some speaker_id
       /\ selected_voice a' = Voices.format_voice i speaker_id
       /\ Voices.speaker_id_for vctk_only (selected_voice a')
          = Ok (Some speaker_id).
Proof.
  intros a'.
  assert (Hids : Forall vctk_id ["p225"; "p226"; "p227"]).
  { repeat constructor; eexists _, _; (split; [reflexivity|reflexivity]). }
  destruct (selected_voice_reaches_the_engine vctk_only
              ["p225"; "p226"; "p227"]
              (Voices.set_selected_voice "Speaker 2 (p226)" (ready []))
              eq_refl eq_refl ltac:(discriminate) Hids)
    as (Hparse & Hkept & _).
  split; [|exact Hparse].
  apply Hkept. apply (bool_decide_unpack _). vm_compute. exact I.
Defined.

(** X13.  A combobox entry made from a speaker id that the pattern
    cannot match (no parenthesis opens in it, and if it begins with p,
    then p is its only character or is followed by an ASCII character
    that is no digit) is not read back: [process_queue] passes the first
    speaker of the model to the engine, whichever entry was selected. *)
Theorem voice_outside_the_pattern_falls_back_to_first_speaker
    (m : Voices.Model) (first : string) (others : list string) (i : nat)
    (speaker_id : string) :
  Voices.is_multi_speaker m = true ->
  Voices.speakers m = Some (first :: others) ->
  outside_pattern speaker_id = true ->
  Voices.speaker_id_for m (Voices.format_voice i speaker_id)
  = Ok (Some first).
Proof.
  intros Hmulti Hsp Hout.
  apply andb_true_iff in Hout as [Hnop Hhead].
  assert (Hre : Voices.re_search (Voices.format_voice i speaker_id) = None).
  { rewrite re_search_format_voice.
    change ("(" +:+ speaker_id +:+ ")") with (String "(" (speaker_id +:+ ")")).
    cbn [Voices.re_search].
    assert (Hhere : Voices.match_here (String "(" (speaker_id +:+ ")")) = None).
    { destruct speaker_id as [|c rest]; [done|].
      destruct (Ascii.eqb c "p") eqn:Hc.
      - apply Ascii.eqb_eq in Hc. subst c.
        destruct rest as [|c' rest']; [done|].
        apply andb_true_iff in Hhead as [_ Hhead].
        apply negb_true_iff in Hhead.
        change (String "p" (String c' rest') +:+ ")")
          with (String "p" (String c' (rest' +:+ ")"))).
        cbn [Voices.match_here Voices.span_digits]. rewrite Hhead. done.
      - change (String c rest +:+ ")") with (String c (rest +:+ ")")).
        destruct c as [[] [] [] [] [] [] [] []]; simpl in Hc |- *;
          first [reflexivity|discriminate Hc]. }
    rewrite Hhere. apply re_search_none.
    rewrite no_open_paren_app. by rewrite Hnop. }
  unfold Voices.speaker_id_for. by rewrite Hmulti, Hre, Hsp.
Qed.

(** The second speaker of the model is selected, the first is used. *)
Lemma voice_outside_the_pattern_falls_back_to_first_speaker_witness :
  Voices.format_voice 1 "s5" = "Speaker 2 (s5)"
  /\ Voices.speaker_id_for vctk_like "Speaker 2 (s5)" = Ok (Some "p225").
Proof.
  split; [reflexivity|].
  exact (voice_outside_the_pattern_falls_back_to_first_speaker vctk_like
           "p225" ["s5"; "p226"] 1 "s5" eq_refl eq_refl eq_refl).
Defined.

(** ** Closing the window and starting again *)

(** X15.  When the window is closed (at rest, or during a run after the
    quit has been confirmed) the settings written bring the next start
    back to the same queue, with the status of every job, the same
    destination folder, model name, voice and voice file; the "Optimize
    MP3" flag comes back unless ffmpeg is missing at that start.  The new
    session is Idle and, no model being loaded yet, Start is refused.  A
    quit that is declined during a run writes nothing and changes
    nothing. *)
Theorem closing_and_restarting_restores_the_session (a a' : App)
    (confirmed found : bool) (file : SettingsFile SettingsDoc)
    (downloads : string) :
  Lifecycle.on_closing confirmed a = (a', Some file) ->
  (exists a'',
      init downloads file found = Ok a''
      /\ pdf_queue a'' = pdf_queue a
      /\ destination_folder a'' = destination_folder a
      /\ selected_tts_model a'' = selected_tts_model a
      /\ selected_voice a'' = selected_voice a
      /\ speaker_wav_path a'' = speaker_wav_path a
      /\ optimize_mp3 a'' = optimize_mp3 a && found
      /\ run_state a'' = Idle
      /\ start_rejected a'' = true)
  /\ run_state a' = Idle
  /\ (is_running a = true -> Lifecycle.on_closing false a = (a, None)).
Proof.
  intros Hclose.
  assert (Hfile : file = save_settings a /\ is_running a' = false).
  { unfold Lifecycle.on_closing in Hclose.
    destruct (is_running a) eqn:Hrun.
    - destruct confirmed; [|discriminate Hclose].
      injection Hclose as <- <-. unfold stop_conversion. rewrite Hrun. done.
    - injection Hclose as <- <-. done. }
  destruct Hfile as [-> Hrun']. split; [|split].
  - unfold init, save_settings, load_settings, check_ffmpeg.
    cbn [bind default doc_pdf_queue doc_destination_folder doc_selected_voice
         doc_speaker_wav_path doc_selected_tts_model doc_optimize_mp3].
    eexists. split; [reflexivity|].
    destruct found; simpl; rewrite ?andb_true_r, ?andb_false_r; done.
  - unfold run_state. by rewrite Hrun'.
  - intros Hrun. unfold Lifecycle.on_closing. by rewrite Hrun.
Qed.

(** The window is closed during a run, one job done and one in flight;
    the next start finds ffmpeg. *)
Lemma closing_and_restarting_restores_the_session_witness :
  let a := with_flags true false
             (ready [job_a; set_status "Processing" job_b; job_done]) in
  exists a' file a'',
    Lifecycle.on_closing true a = (a', Some file)
    /\ init "/home/u/Downloads" file true = Ok a''
    /\ pdf_queue a'' = [job_a; set_status "Processing" job_b; job_done]
    /\ run_state a'' = Idle.
Proof.
  intros a.
  destruct (Lifecycle.on_closing true a) as [a' [file|]] eqn:Hclose;
    [|vm_compute in Hclose; discriminate Hclose].
  destruct (closing_and_restarting_restores_the_session a a' true true file
              "/home/u/Downloads" Hclose)
    as ((a'' & Hinit & Hq & _ & _ & _ & _ & _ & Hstate & _) & _).
  exists a', file, a''. split; [reflexivity|]. split; [exact Hinit|].
  split; [exact Hq|exact Hstate].
Defined.

(** ** The second program: the console filter *)

Lemma level_order_bound level rank :
  Console.level_order level = Some rank -> (rank <= 4)%nat.
Proof.
  unfold Console.level_order.
  repeat (destruct (String.eqb level _); [intros [= <-]; lia|]).
  discriminate.
Qed.

Lemma LOG_LEVELS_rank i level :
  KokoroTTS.LOG_LEVELS !! i = Some level ->
  (i = 0%nat /\ level = "ALL")
  \/ Console.level_order level = Some (pred i) /\ (1 <= i)%nat.
Proof.
  unfold KokoroTTS.LOG_LEVELS.
  destruct i as [|[|[|[|[|[|i]]]]]]; simpl; intros [= <-];
    first [left; done | right; split; [reflexivity|lia]].
Qed.

Lemma should_show_monotone i j lower higher entry_level :
  KokoroTTS.LOG_LEVELS !! i = Some lower ->
  KokoroTTS.LOG_LEVELS !! j = Some higher ->
  (i <= j)%nat ->
  Console.should_show higher entry_level = true ->
  Console.should_show lower entry_level = true.
Proof.
  intros Hi Hj Hle.
  destruct (LOG_LEVELS_rank i lower Hi) as [[-> ->]|[Hlo Hi1]]; [done|].
  destruct (LOG_LEVELS_rank j higher Hj) as [[-> ->]|[Hhi Hj1]]; [lia|].
  unfold Console.should_show. rewrite Hlo, Hhi.
  assert (Hl : String.eqb lower "ALL" = false).
  { destruct (String.eqb lower "ALL") eqn:E; [|done].
    apply String.eqb_eq in E. subst. discriminate Hlo. }
  assert (Hh : String.eqb higher "ALL" = false).
  { destruct (String.eqb higher "ALL") eqn:E; [|done].
    apply String.eqb_eq in E. subst. discriminate Hhi. }
  rewrite Hl, Hh.
  destruct (Console.level_order entry_level) as [rank|]; [|done].
  intros H. apply Nat.leb_le in H. apply Nat.leb_le. lia.
Qed.

Lemma sublist_filter_impl {A} (p q : A -> bool) (l : list A) :
  (forall x, p x = true -> q x = true) ->
  sublist (List.filter p l) (List.filter q l).
Proof.
  intros Himpl. induction l as [|x l IH]; simpl; [constructor|].
  destruct (p x) eqn:Hp.
  - rewrite (Himpl x Hp). by constructor.
  - destruct (q x); [by constructor|done].
Qed.

(** X16.  The console shows the log entries in the order they were
    logged, and the filter only hides lines: with "ALL" every entry is
    shown; moving the filter up the list of levels leaves a sub-sequence
    of what was shown before; an entry logged at "CRITICAL" is shown
    under every filter, and so is an entry whose level is none of the
    five. *)
Theorem raising_the_log_filter_only_hides_lines (a : KokoroTTS.App) :
  Console.filter_logs (KokoroTTS.set_filter "ALL" a)
  = Console.line_of <$> KokoroTTS.log_messages a
  /\ (forall i j lower higher,
        KokoroTTS.LOG_LEVELS !! i = Some lower ->
        KokoroTTS.LOG_LEVELS !! j = Some higher ->
        (i <= j)%nat ->
        sublist (Console.filter_logs (KokoroTTS.set_filter higher a))
                (Console.filter_logs (KokoroTTS.set_filter lower a)))
  /\ (forall selected entry,
        entry ∈ KokoroTTS.log_messages a ->
        fst entry = "CRITICAL" \/ Console.level_order (fst entry) = None ->
        Console.line_of entry
          ∈ Console.filter_logs (KokoroTTS.set_filter selected a)).
Proof.
  unfold Console.filter_logs. cbn [KokoroTTS.log_level_filter KokoroTTS.set_filter
                                   KokoroTTS.log_messages].
  split; [|split].
  - f_equal. induction (KokoroTTS.log_messages a) as [|e l IH]; simpl; [done|].
    by rewrite IH.
  - intros i j lower higher Hi Hj Hle.
    apply fmap_sublist, sublist_filter_impl.
    intros entry. by apply (should_show_monotone i j).
  - intros selected entry Hin Hlevel.
    apply list_elem_of_fmap_2. apply list_elem_of_In, filter_In.
    split; [by apply list_elem_of_In|].
    unfold Console.should_show.
    destruct (String.eqb selected "ALL"); [done|].
    destruct (Console.level_order selected) as [rank|] eqn:Hsel; [|done].
    destruct Hlevel as [->| ->]; [|done].
    simpl. apply Nat.leb_le. by apply (level_order_bound selected).
Qed.

(** From "INFO" to "ERROR" the "INFO" line goes away; the "CRITICAL" line
    stays. *)
Lemma raising_the_log_filter_only_hides_lines_witness :
  Console.filter_logs (KokoroTTS.set_filter "ERROR" four_entries)
  = ["[ERROR] Error during generation"; "[CRITICAL] out of memory"]
  /\ sublist (Console.filter_logs (KokoroTTS.set_filter "ERROR" four_entries))
             (Console.filter_logs (KokoroTTS.set_filter "INFO" four_entries))
  /\ "[CRITICAL] out of memory"
       ∈ Console.filter_logs (KokoroTTS.set_filter "CRITICAL" four_entries).
Proof.
  destruct (raising_the_log_filter_only_hides_lines four_entries)
    as (_ & Hmono & Hcritical).
  split; [reflexivity|]. split.
  - exact (Hmono 2%nat 4%nat "INFO" "ERROR" eq_refl eq_refl ltac:(lia)).
  - refine (Hcritical "CRITICAL" ("CRITICAL", "out of memory") _ (or_introl eq_refl)).
    apply (bool_decide_unpack _). vm_compute. exact I.
Defined.

(** ** The second program: what the attributes can hold *)

Section Widgets.

Variable pathlib_str : string -> string.
Variable path_usable : string -> bool.
Variable py_strip : string -> string.

Abbreviation tts_load := (KokoroTTS.load_settings pathlib_str path_usable).
Abbreviation tts_init := (KokoroTTS.init pathlib_str path_usable).
Abbreviation tts_op := (KokoroTTS.apply_op py_strip).

Lemma within_widgets_same a b :
  KokoroTTS.selected_voice b = KokoroTTS.selected_voice a ->
  KokoroTTS.speed b = KokoroTTS.speed a ->
  KokoroTTS.output_format b = KokoroTTS.output_format a ->
  KokoroTTS.log_level_filter b = KokoroTTS.log_level_filter a ->
  within_widgets a -> within_widgets b.
Proof. unfold within_widgets. intros -> -> -> ->. done. Qed.

Lemma load_voice_within v a :
  within_widgets a -> within_widgets (KokoroTTS.load_voice v a).
Proof.
  intros Hw. unfold KokoroTTS.load_voice.
  destruct v as [v|]; [|done].
  destruct (bool_decide (v ∈ KokoroTTS.KOKORO_VOICES)) eqn:Hv; [|done].
  apply bool_decide_eq_true in Hv.
  destruct Hw as (_ & ? & ? & ?). by repeat split.
Qed.

Lemma load_speed_within q a :
  within_widgets a -> within_widgets (KokoroTTS.load_speed q a).
Proof.
  intros Hw. unfold KokoroTTS.load_speed.
  destruct q as [q|]; [|done].
  destruct (Qle_bool (1 # 2) q && Qle_bool q 2) eqn:Hq; [|done].
  destruct Hw as (? & _ & ? & ?). by repeat split.
Qed.

Lemma load_format_within f a :
  within_widgets a -> within_widgets (KokoroTTS.load_format f a).
Proof.
  intros Hw. unfold KokoroTTS.load_format.
  destruct f as [f|]; [|done].
  destruct (bool_decide (f ∈ ["wav"; "mp3"])) eqn:Hf; [|done].
  apply bool_decide_eq_true in Hf.
  destruct Hw as (? & ? & _ & ?).
  destruct (String.eqb f "mp3" && negb (KokoroTTS.has_ffmpeg a));
    repeat split; try done.
  cbn. repeat constructor.
Qed.

Lemma load_filter_within l a :
  within_widgets a -> within_widgets (KokoroTTS.load_filter l a).
Proof.
  intros Hw. unfold KokoroTTS.load_filter.
  destruct l as [l|]; [|done].
  destruct (bool_decide (l ∈ KokoroTTS.LOG_LEVELS)) eqn:Hl; [|done].
  apply bool_decide_eq_true in Hl.
  destruct Hw as (? & ? & ? & _). by repeat split.
Qed.

Lemma load_object_within d a :
  within_widgets a ->
  within_widgets (KokoroTTS.load_object pathlib_str path_usable d a).
Proof.
  intros Hw. unfold KokoroTTS.load_object. cbv zeta.
  apply load_filter_within.
  eapply (within_widgets_same
            (KokoroTTS.load_format (KokoroTTS.doc_output_format d)
               (KokoroTTS.load_speed (KokoroTTS.doc_speed d)
                  (KokoroTTS.load_voice (KokoroTTS.doc_voice d) a)))).
  5:{ by apply load_format_within, load_speed_within, load_voice_within. }
  all: destruct (KokoroTTS.doc_console_visible d), (KokoroTTS.doc_text_input d),
         (KokoroTTS.doc_output_path d) as [p|]; cbn;
       try destruct (path_usable p); reflexivity.
Qed.

Lemma all_but_text_within a b :
  all_but_text b = all_but_text a -> within_widgets a -> within_widgets b.
Proof.
  unfold all_but_text. intros [= Hv Hs Hf _ _ Hl].
  by apply within_widgets_same.
Qed.

Lemma load_settings_within file a :
  within_widgets a ->
  exists a', tts_load file a = Ok a' /\ within_widgets a'.
Proof.
  intros Hw. unfold KokoroTTS.load_settings.
  destruct file as [|e| |j|d]; eexists; (split; [reflexivity|]).
  - done.
  - done.
  - done.
  - pose proof (load_non_object_keeps j (KokoroTTS.set_loading true a)) as H.
    destruct (KokoroTTS.load_non_object j _) as [a1|e a1];
      cbn [KokoroTTS.and_then].
    + subst a1. done.
    + by apply (all_but_text_within (KokoroTTS.set_loading true a)).
  - cbn [KokoroTTS.and_then].
    pose proof (load_object_within d (KokoroTTS.set_loading true a) Hw) as H.
    revert H. apply within_widgets_same; reflexivity.
Qed.

Lemma init_within (p : KokoroTTS.Platform) file :
  exists a, tts_init p file = Ok a /\ within_widgets a.
Proof.
  unfold KokoroTTS.init.
  destruct (load_settings_within file
              (KokoroTTS.setup_ui p (KokoroTTS.initial p)))
    as (a1 & -> & Hw).
  { unfold KokoroTTS.setup_ui.
    destruct (KokoroTTS.device p); cbn;
      (split; [|split; [|split]]);
      first [reflexivity | apply (bool_decide_unpack _); vm_compute; exact I]. }
  cbn [bind]. eexists. split; [reflexivity|].
  assert (Hc : within_widgets (KokoroTTS.check_cuda p a1)).
  { revert Hw. apply within_widgets_same;
      unfold KokoroTTS.check_cuda; by destruct (KokoroTTS.device p). }
  destruct (negb (KokoroTTS.has_ffmpeg (KokoroTTS.check_cuda p a1))); [|done].
  destruct Hc as (? & ? & _ & ?). repeat split; try done.
  cbn. repeat constructor.
Qed.

Lemma apply_op_within o a :
  within_widgets a -> within_widgets (tts_op o a).
Proof.
  intros Hw. pose proof Hw as (Hv & Hs & Hf & Hl).
  destruct o; cbn -[String.eqb KokoroTTS.KOKORO_VOICES KokoroTTS.LOG_LEVELS].
  - repeat split; try done. cbn. repeat constructor.
  - destruct (KokoroTTS.has_ffmpeg a); [|done].
    repeat split; try done. cbn. repeat constructor.
  - destruct (bool_decide (v ∈ KokoroTTS.KOKORO_VOICES)) eqn:E; [|done].
    apply bool_decide_eq_true in E. by repeat split.
  - destruct (Qle_bool (1 # 2) q && Qle_bool q 2) eqn:E; [|done].
    by repeat split.
  - done.
  - done.
  - done.
  - destruct (bool_decide (l ∈ KokoroTTS.LOG_LEVELS)) eqn:E; [|done].
    apply bool_decide_eq_true in E. by repeat split.
  - destruct (KokoroTTS.is_processing a); [done|].
    by destruct (String.eqb _ _).
  - done.
  - done.
Qed.

Lemma KOKORO_VOICES_lang_code voice :
  voice ∈ KokoroTTS.KOKORO_VOICES -> lang_code voice = Ok "a"%char.
Proof.
  unfold KokoroTTS.KOKORO_VOICES. intros Hin.
  repeat (apply elem_of_cons in Hin as [->|Hin]; [reflexivity|]).
  by apply elem_of_nil in Hin.
Qed.

(** X17.  Whatever the settings file holds (a voice, a format or a
    filter that is not on offer and a speed out of range included) and
    whatever the user then does, the voice is
    one of [KOKORO_VOICES], the speed lies between 0.5 and 2.0, the format
    is "wav" or "mp3" and the log filter is one of [LOG_LEVELS]; so the
    language code [voice[0]] that [generate_speech] passes to the
    pipeline is always there, and is always "a". *)
Theorem settings_stay_within_the_widgets (p : KokoroTTS.Platform)
    (file : SettingsFile KokoroTTS.SettingsDoc) (ops : list KokoroTTS.Op) :
  exists a0,
    tts_init p file = Ok a0 /\
    let a := foldl (fun a o => tts_op o a) a0 ops in
    within_widgets a
    /\ lang_code (KokoroTTS.selected_voice a) = Ok "a"%char.
Proof.
  destruct (init_within p file) as (a0 & Hinit & Hw).
  exists a0. split; [exact Hinit|]. cbn zeta.
  assert (H : within_widgets (foldl (fun a o => tts_op o a) a0 ops)).
  { clear Hinit. revert a0 Hw.
    induction ops as [|o ops IH]; intros a0 Hw; cbn [foldl]; [done|].
    by apply IH, apply_op_within. }
  split; [exact H|]. apply KOKORO_VOICES_lang_code. by destruct H.
Qed.

End Widgets.

(** ** The second program: when the settings are written *)

Section SavingProperties.

Variable pathlib_str : string -> string.
Variable path_usable : string -> bool.
Variable py_strip : string -> string.

Abbreviation tts_init := (KokoroTTS.init pathlib_str path_usable).
Abbreviation tts_save := (KokoroTTS.save_settings py_strip).
Abbreviation session_init := (Saving.init pathlib_str path_usable).
Abbreviation timer_fires := (Saving.timer_fires py_strip).
Abbreviation act := (Saving.act py_strip).

Lemma load_settings_not_loading file a :
  exists a',
    KokoroTTS.load_settings pathlib_str path_usable file a = Ok a'
    /\ KokoroTTS.loading_settings a' = false.
Proof.
  unfold KokoroTTS.load_settings.
  destruct file; eexists; (split; [reflexivity|]); reflexivity.
Qed.

Lemma check_cuda_keeps p a :
  KokoroTTS.loading_settings (KokoroTTS.check_cuda p a)
  = KokoroTTS.loading_settings a
  /\ KokoroTTS.has_ffmpeg (KokoroTTS.check_cuda p a) = KokoroTTS.has_ffmpeg a.
Proof. unfold KokoroTTS.check_cuda. by destruct (KokoroTTS.device p). Qed.

(** X18.  Start-up and the settings file.  With ffmpeg found, start-up
    schedules no save: the file stays as it was found.  Without ffmpeg,
    the write of the format at line 261 goes through the write trace and
    schedules a save, so 400 ms after every such start the file is
    written anew from the attributes, with "wav" as its format, whatever
    it held before (a file asking for "mp3" included, and also when there
    was no file). *)
Theorem start_without_ffmpeg_rewrites_the_settings_file
    (p : KokoroTTS.Platform) (file : SettingsFile KokoroTTS.SettingsDoc) :
  exists s,
    session_init p file = Ok s
    /\ tts_init p file = Ok (Saving.attrs s)
    /\ Saving.save_timer s = negb (KokoroTTS.which_ffmpeg p)
    /\ Saving.settings_file s = file
    /\ (KokoroTTS.which_ffmpeg p = true ->
        timer_fires s = s)
    /\ (KokoroTTS.which_ffmpeg p = false ->
        Saving.writes (timer_fires s) = 1%nat
        /\ Saving.settings_file (timer_fires s) = tts_save (Saving.attrs s)
        /\ exists d,
             Saving.settings_file (timer_fires s) = Object d
             /\ KokoroTTS.doc_output_format d = Some "wav").
Proof.
  unfold Saving.init, KokoroTTS.init.
  destruct (load_settings_not_loading file
              (KokoroTTS.setup_ui p (KokoroTTS.initial p)))
    as (a1 & Hload & Hnot).
  destruct (load_settings_guarded pathlib_str path_usable file
              (KokoroTTS.setup_ui p (KokoroTTS.initial p)))
    as (a1' & Hload' & _ & Hff).
  { unfold mp3_guarded, KokoroTTS.setup_ui.
    destruct (KokoroTTS.device p); discriminate. }
  rewrite Hload in Hload'. injection Hload' as <-.
  rewrite Hload. cbn [bind].
  destruct (check_cuda_keeps p a1) as [Hc1 Hc2].
  assert (Hp : KokoroTTS.has_ffmpeg (KokoroTTS.check_cuda p a1)
               = KokoroTTS.which_ffmpeg p).
  { rewrite Hc2, Hff. unfold KokoroTTS.setup_ui.
    by destruct (KokoroTTS.device p). }
  cbn [Saving.attrs]. rewrite Hp.
  destruct (KokoroTTS.which_ffmpeg p); cbn [negb].
  - eexists. split; [reflexivity|]. repeat split; try done.
  - eexists. split; [reflexivity|].
    unfold Saving.traced_write, Saving.debounced_save.
    cbn [Saving.attrs Saving.with_attrs KokoroTTS.loading_settings
         KokoroTTS.set_format].
    rewrite Hc1, Hnot.
    cbn [Saving.attrs Saving.with_attrs Saving.save_timer Saving.settings_file
         Saving.writes].
    split; [done|]. split; [done|]. split; [done|].
    split; [done|]. intros _.
    unfold Saving.timer_fires.
    cbn [Saving.attrs Saving.save_timer Saving.settings_file Saving.writes].
    split; [done|]. split; [done|].
    eexists. split; [reflexivity|]. done.
Qed.

Lemma save_settings_persisted a b :
  KokoroTTS.persisted a = KokoroTTS.persisted b -> tts_save a = tts_save b.
Proof.
  unfold KokoroTTS.persisted, KokoroTTS.save_settings.
  intros [= -> -> -> -> -> -> ->]. done.
Qed.

(** A widget action that does not end in [debounced_save] changes no
    saved attribute. *)
Lemma apply_op_persisted o a :
  KokoroTTS.loading_settings (KokoroTTS.apply_op py_strip o a)
  = KokoroTTS.loading_settings a
  /\ (Saving.schedules_save o a = false ->
      KokoroTTS.persisted (KokoroTTS.apply_op py_strip o a)
      = KokoroTTS.persisted a).
Proof.
  destruct o; cbn -[String.eqb KokoroTTS.KOKORO_VOICES KokoroTTS.LOG_LEVELS];
    repeat match goal with
           | |- context [bool_decide ?P] => destruct (bool_decide P)
           | |- context [Qle_bool ?x ?y] => destruct (Qle_bool x y)
           | |- context [String.eqb ?x ?y] => destruct (String.eqb x y)
           | |- context [if KokoroTTS.is_processing a then _ else _] =>
               destruct (KokoroTTS.is_processing a)
           | |- context [if KokoroTTS.has_ffmpeg a then _ else _] =>
               destruct (KokoroTTS.has_ffmpeg a)
           end;
    cbn; split; try done.
Qed.

Lemma persisted_set_text t a b :
  KokoroTTS.persisted a = KokoroTTS.persisted b ->
  KokoroTTS.persisted (KokoroTTS.set_text t a)
  = KokoroTTS.persisted (KokoroTTS.set_text t b)
  /\ all_but_text a = all_but_text b.
Proof.
  unfold KokoroTTS.persisted, all_but_text.
  intros [= H1 H2 H3 H4 _ H6 H7]. cbn.
  by rewrite H1, H2, H3, H4, H6, H7.
Qed.

Lemma act_not_loading (x : Saving.Action) (s : Saving.Session) :
  KokoroTTS.loading_settings (Saving.attrs (act x s))
  = KokoroTTS.loading_settings (Saving.attrs s).
Proof.
  destruct x as [o|t|]; cbn [Saving.act].
  - destruct (apply_op_persisted o (Saving.attrs s)) as [Hload _].
    destruct (Saving.schedules_save o (Saving.attrs s)); [|exact Hload].
    unfold Saving.debounced_save. cbn [Saving.attrs Saving.with_attrs].
    destruct (KokoroTTS.loading_settings
                (KokoroTTS.apply_op py_strip o (Saving.attrs s))) eqn:Hl;
      cbn [Saving.attrs Saving.with_attrs]; congruence.
  - done.
  - unfold Saving.timer_fires. by destruct (Saving.save_timer s).
Qed.

(** What holds between the start [s0] of a sequence of actions and the
    session it has led to. *)
Lemma act_saved (s0 s : Saving.Session) (n : nat) (x : Saving.Action) :
  KokoroTTS.loading_settings (Saving.attrs s) = false
  /\ (Saving.writes s <= Saving.writes s0 + n)%nat
  /\ (Saving.save_timer s = true
      \/ saved_but_text py_strip (Saving.settings_file s) (Saving.attrs s)
      \/ (Saving.settings_file s = Saving.settings_file s0
          /\ all_but_text (Saving.attrs s) = all_but_text (Saving.attrs s0)
          /\ Saving.writes s = Saving.writes s0)) ->
  KokoroTTS.loading_settings (Saving.attrs (act x s)) = false
  /\ (Saving.writes (act x s)
      <= Saving.writes s0 + (n + (if is_timer x then 1 else 0)))%nat
  /\ (Saving.save_timer (act x s) = true
      \/ saved_but_text py_strip (Saving.settings_file (act x s))
           (Saving.attrs (act x s))
      \/ (Saving.settings_file (act x s) = Saving.settings_file s0
          /\ all_but_text (Saving.attrs (act x s))
             = all_but_text (Saving.attrs s0)
          /\ Saving.writes (act x s) = Saving.writes s0)).
Proof.
  intros (Hnot & Hw & Hstate).
  split; [by rewrite act_not_loading|].
  unfold saved_but_text in *.
  destruct x as [o|t|]; cbn [Saving.act is_timer].
  - destruct (apply_op_persisted o (Saving.attrs s)) as [Hload Hkeep].
    destruct (Saving.schedules_save o (Saving.attrs s)) eqn:Hsched.
    + unfold Saving.debounced_save.
      cbn [Saving.attrs Saving.with_attrs]. rewrite Hload, Hnot.
      cbn [Saving.attrs Saving.save_timer Saving.writes Saving.with_attrs].
      split; [lia|]. by left.
    + specialize (Hkeep eq_refl).
      cbn [Saving.attrs Saving.save_timer Saving.writes Saving.with_attrs
           Saving.settings_file].
      split; [lia|].
      destruct Hstate as [Ht|[[t Hf]|(Hf & Hp & Hn)]]; [by left| |].
      * right. left. exists t. rewrite Hf.
        apply save_settings_persisted. symmetry.
        by apply persisted_set_text.
      * right. right. split; [done|]. split; [|done].
        destruct (persisted_set_text "" _ _ Hkeep) as [_ ->]. done.
  - cbn [Saving.attrs Saving.save_timer Saving.writes Saving.with_attrs
         Saving.settings_file].
    split; [lia|].
    destruct Hstate as [Ht|[[t' Hf]|(Hf & Hp & Hn)]]; [by left| |].
    + right. left. exists t'. exact Hf.
    + right. right. done.
  - unfold Saving.timer_fires.
    destruct (Saving.save_timer s) eqn:Ht;
      cbn [Saving.attrs Saving.save_timer Saving.writes Saving.settings_file].
    + split; [lia|]. right. left.
      exists (KokoroTTS.text_input (Saving.attrs s)). done.
    + split; [lia|].
      destruct Hstate as [?|[?|?]]; [congruence|by right; left|by right; right].
Qed.

(** The same, as long as nothing is pasted with the mouse. *)
Lemma act_saved_exactly (s0 s : Saving.Session) (x : Saving.Action) :
  is_paste x = false ->
  KokoroTTS.loading_settings (Saving.attrs s) = false ->
  Saving.save_timer s = true
  \/ Saving.settings_file s = tts_save (Saving.attrs s)
  \/ (Saving.settings_file s = Saving.settings_file s0
      /\ KokoroTTS.persisted (Saving.attrs s)
         = KokoroTTS.persisted (Saving.attrs s0)
      /\ Saving.writes s = Saving.writes s0) ->
  Saving.save_timer (act x s) = true
  \/ Saving.settings_file (act x s) = tts_save (Saving.attrs (act x s))
  \/ (Saving.settings_file (act x s) = Saving.settings_file s0
      /\ KokoroTTS.persisted (Saving.attrs (act x s))
         = KokoroTTS.persisted (Saving.attrs s0)
      /\ Saving.writes (act x s) = Saving.writes s0).
Proof.
  intros Hx Hnot Hstate.
  destruct x as [o|t|]; [|discriminate Hx|]; cbn [Saving.act].
  - destruct (apply_op_persisted o (Saving.attrs s)) as [Hload Hkeep].
    destruct (Saving.schedules_save o (Saving.attrs s)) eqn:Hsched.
    + unfold Saving.debounced_save.
      cbn [Saving.attrs Saving.with_attrs]. rewrite Hload, Hnot.
      cbn [Saving.attrs Saving.save_timer Saving.writes Saving.with_attrs].
      by left.
    + specialize (Hkeep eq_refl).
      cbn [Saving.attrs Saving.save_timer Saving.writes Saving.with_attrs
           Saving.settings_file].
      destruct Hstate as [Ht|[Hf|(Hf & Hp & Hn)]]; [by left| |].
      * right. left. rewrite Hf. by apply save_settings_persisted.
      * right. right. split; [done|]. split; [congruence|done].
  - unfold Saving.timer_fires.
    destruct (Saving.save_timer s) eqn:Ht;
      cbn [Saving.attrs Saving.save_timer Saving.writes Saving.settings_file].
    + right. by left.
    + destruct Hstate as [?|[?|?]]; [congruence|by right; left|by right; right].
Qed.

(** X19.  Saving is debounced, and loses no change that the program
    sees.  After any sequence of widget actions, pastes with the mouse
    and timer expiries, once the timer has fired a last time, no save is
    pending, and either the settings file holds the current attributes
    except possibly the text, or it has not been written and no saved
    attribute other than the text has changed.  When nothing was pasted
    with the mouse, the text is included: the file holds exactly the
    current attributes, or it has not been written and no saved attribute
    has changed.  A text pasted with the mouse while no save is pending
    is in the text area and not in the file: the timer has nothing to
    write.  The file is written at most once per firing of the timer: a
    burst of changes without a firing in between costs one write. *)
Theorem debounced_save_loses_no_change (s : Saving.Session)
    (xs : list Saving.Action) :
  KokoroTTS.loading_settings (Saving.attrs s) = false ->
  let s1 := foldl (fun s x => act x s) s xs in
  let s2 := timer_fires s1 in
  Saving.attrs s2 = Saving.attrs s1
  /\ Saving.save_timer s2 = false
  /\ (Saving.writes s2 <= Saving.writes s + timer_count xs + 1)%nat
  /\ (saved_but_text py_strip (Saving.settings_file s2) (Saving.attrs s2)
      \/ (Saving.settings_file s2 = Saving.settings_file s
          /\ all_but_text (Saving.attrs s2) = all_but_text (Saving.attrs s)
          /\ Saving.writes s2 = Saving.writes s))
  /\ (forallb (fun x => negb (is_paste x)) xs = true ->
      Saving.settings_file s2 = tts_save (Saving.attrs s2)
      \/ (Saving.settings_file s2 = Saving.settings_file s
          /\ KokoroTTS.persisted (Saving.attrs s2)
             = KokoroTTS.persisted (Saving.attrs s)
          /\ Saving.writes s2 = Saving.writes s))
  /\ (forall t,
        let s3 := timer_fires (act (Saving.MousePaste t) s2) in
        KokoroTTS.text_input (Saving.attrs s3) = t
        /\ Saving.settings_file s3 = Saving.settings_file s2
        /\ Saving.writes s3 = Saving.writes s2).
Proof.
  intros Hnot s1 s2.
  assert (Hinv : forall s' n,
             KokoroTTS.loading_settings (Saving.attrs s') = false
             /\ (Saving.writes s' <= Saving.writes s + n)%nat
             /\ (Saving.save_timer s' = true
                 \/ saved_but_text py_strip (Saving.settings_file s')
                      (Saving.attrs s')
                 \/ (Saving.settings_file s' = Saving.settings_file s
                     /\ all_but_text (Saving.attrs s')
                        = all_but_text (Saving.attrs s)
                     /\ Saving.writes s' = Saving.writes s)) ->
             let s1 := foldl (fun s x => act x s) s' xs in
             KokoroTTS.loading_settings (Saving.attrs s1) = false
             /\ (Saving.writes s1 <= Saving.writes s + (n + timer_count xs))%nat
             /\ (Saving.save_timer s1 = true
                 \/ saved_but_text py_strip (Saving.settings_file s1)
                      (Saving.attrs s1)
                 \/ (Saving.settings_file s1 = Saving.settings_file s
                     /\ all_but_text (Saving.attrs s1)
                        = all_but_text (Saving.attrs s)
                     /\ Saving.writes s1 = Saving.writes s))).
  { clear s1 s2. induction xs as [|x xs IH]; intros s' n H; cbn [foldl].
    - unfold timer_count. simpl. by rewrite Nat.add_0_r.
    - pose proof (act_saved s s' n x H) as H'.
      specialize (IH (act x s') _ H'). cbn zeta in IH.
      destruct IH as (? & Hw & ?). split; [done|]. split; [|done].
      unfold timer_count in *. simpl.
      destruct (is_timer x); simpl in *; lia. }
  assert (Hexact : forallb (fun x => negb (is_paste x)) xs = true ->
             forall s',
               KokoroTTS.loading_settings (Saving.attrs s') = false ->
               Saving.save_timer s' = true
               \/ Saving.settings_file s' = tts_save (Saving.attrs s')
               \/ (Saving.settings_file s' = Saving.settings_file s
                   /\ KokoroTTS.persisted (Saving.attrs s')
                      = KokoroTTS.persisted (Saving.attrs s)
                   /\ Saving.writes s' = Saving.writes s) ->
               let s1 := foldl (fun s x => act x s) s' xs in
               Saving.save_timer s1 = true
               \/ Saving.settings_file s1 = tts_save (Saving.attrs s1)
               \/ (Saving.settings_file s1 = Saving.settings_file s
                   /\ KokoroTTS.persisted (Saving.attrs s1)
                      = KokoroTTS.persisted (Saving.attrs s)
                   /\ Saving.writes s1 = Saving.writes s)).
  { clear s1 s2 Hinv. induction xs as [|x xs IH]; intros Hxs s' Hl H;
      cbn [foldl]; [done|].
    simpl in Hxs. apply andb_true_iff in Hxs as [Hx Hxs].
    apply negb_true_iff in Hx.
    apply (IH Hxs); [by rewrite act_not_loading|].
    by apply act_saved_exactly. }
  destruct (Hinv s 0%nat) as (_ & Hw & Hstate).
  { split; [done|]. split; [lia|]. right. right. done. }
  fold s1 in Hw, Hstate.
  assert (Hs2 : Saving.attrs s2 = Saving.attrs s1
                /\ Saving.save_timer s2 = false).
  { unfold s2, Saving.timer_fires. by destruct (Saving.save_timer s1) eqn:Ht. }
  destruct Hs2 as [Hattrs Htimer].
  split; [done|]. split; [done|].
  split; [|split; [|split]].
  - unfold s2, Saving.timer_fires.
    destruct (Saving.save_timer s1); cbn [Saving.writes]; lia.
  - unfold s2, Saving.timer_fires.
    destruct (Saving.save_timer s1) eqn:Ht;
      cbn [Saving.attrs Saving.save_timer Saving.writes Saving.settings_file].
    + left. exists (KokoroTTS.text_input (Saving.attrs s1)). done.
    + destruct Hstate as [?|[?|?]]; [congruence|by left|by right].
  - intros Hxs. specialize (Hexact Hxs s Hnot). cbn zeta in Hexact.
    fold s1 in Hexact.
    unfold s2, Saving.timer_fires.
    destruct (Saving.save_timer s1) eqn:Ht;
      cbn [Saving.attrs Saving.save_timer Saving.writes Saving.settings_file].
    + by left.
    + destruct Hexact as [?|[?|?]]; [|congruence|by left|by right].
      right. right. done.
  - intros t s3. unfold s3, Saving.timer_fires. cbn [Saving.act].
    cbn [Saving.with_attrs Saving.save_timer]. rewrite Htimer.
    done.
Qed.

End SavingProperties.

(** A settings file that asks for MP3, read on a machine without
    ffmpeg. *)
Lemma start_without_ffmpeg_rewrites_the_settings_file_witness :
  exists s,
    Saving.init plain_path disk_usable (desktop false) (Object asks_mp3) = Ok s
    /\ Saving.save_timer s = true
    /\ exists d,
         Saving.settings_file (Saving.timer_fires plain_strip s) = Object d
         /\ KokoroTTS.doc_output_format d = Some "wav".
Proof.
  destruct (start_without_ffmpeg_rewrites_the_settings_file plain_path
              disk_usable plain_strip (desktop false) (Object asks_mp3))
    as (s & Hinit & _ & Htimer & _ & _ & Hwithout).
  exists s. split; [exact Hinit|]. split; [exact Htimer|].
  destruct (Hwithout eq_refl) as (_ & _ & Hdoc). exact Hdoc.
Defined.

(** A burst of five changes after a start with ffmpeg and no settings
    file, one firing of the timer, then a paste with the mouse: one
    write, and the file holds the new voice and the word typed, not the
    sentence pasted. *)
Lemma debounced_save_loses_no_change_witness :
  exists s,
    Saving.init plain_path disk_usable (desktop true) Missing = Ok s
    /\ let s2 := Saving.timer_fires plain_strip
                   (foldl (fun s x => Saving.act plain_strip x s) s
                      burst_then_paste) in
       Saving.writes s2 = 1%nat
       /\ saved_but_text plain_strip (Saving.settings_file s2) (Saving.attrs s2)
       /\ KokoroTTS.selected_voice (Saving.attrs s2) = "am_adam"
       /\ KokoroTTS.text_input (Saving.attrs s2) = "hello world"
       /\ Saving.settings_file s2
          = KokoroTTS.save_settings plain_strip
              (KokoroTTS.set_text "hello" (Saving.attrs s2)).
Proof.
  destruct (Saving.init plain_path disk_usable (desktop true) Missing)
    as [s|e] eqn:Hinit; [|vm_compute in Hinit; discriminate Hinit].
  exists s. split; [reflexivity|].
  assert (Hnot : KokoroTTS.loading_settings (Saving.attrs s) = false).
  { vm_compute in Hinit. injection Hinit as <-. reflexivity. }
  destruct (debounced_save_loses_no_change plain_strip s burst_then_paste Hnot)
    as (_ & _ & _ & Hstate & _).
  cbn zeta in *.
  assert (Hw : Saving.writes
                 (Saving.timer_fires plain_strip
                    (foldl (fun s x => Saving.act plain_strip x s) s
                       burst_then_paste))
               = 1%nat).
  { vm_compute in Hinit. injection Hinit as <-. reflexivity. }
  split; [exact Hw|]. split.
  - destruct Hstate as [Hfile|(_ & _ & Hsame)]; [exact Hfile|].
    rewrite Hw in Hsame. vm_compute in Hinit. injection Hinit as <-.
    discriminate Hsame.
  - vm_compute in Hinit. injection Hinit as <-.
    split; [reflexivity|]. split; reflexivity.
Defined.

(** ** The second program: a generation *)

Ltac run_thread :=
  cbv beta iota zeta delta
    [Generation.thread_step Generation.begin Generation.turn Generation.finish
     Generation.on_exception Generation.on_success Generation.say
     Generation.goto Generation.with_app Generation.with_files
     Generation.counted
     Generation.app Generation.files Generation.pipeline_loaded
     Generation.thread Generation.voice Generation.speed_read
     Generation.segment_count
     Generation.pipeline_ok Generation.next_segment Generation.mkdir_ok
     Generation.write Generation.ffmpeg
     KokoroTTS.log KokoroTTS.set_processing
     KokoroTTS.selected_voice KokoroTTS.speed KokoroTTS.output_format
     KokoroTTS.output_path KokoroTTS.text_input KokoroTTS.console_visible
     KokoroTTS.log_level_filter KokoroTTS.has_ffmpeg
     KokoroTTS.loading_settings KokoroTTS.is_processing
     KokoroTTS.log_messages negb].

(** The thread ends with the flag cleared, whatever the step did. *)
Lemma thread_step_ended ext w :
  Generation.thread (Generation.thread_step ext w) = Generation.Ended ->
  Generation.thread w <> Generation.Ended ->
  KokoroTTS.is_processing (Generation.app (Generation.thread_step ext w))
  = false.
Proof.
  destruct w as [a fs loaded pc], a as [v ? f ? ? ? ? ff ? proc ?],
    ext as [pok nxt mk wr fm].
  destruct pc as [|l|l|]; [| | |done]; intros Hend _; revert Hend.
  - run_thread. destruct v; [done|].
    destruct loaded; [discriminate|]. destruct pok; [discriminate|done].
  - run_thread. destruct nxt; [|discriminate|done].
    destruct proc; [|discriminate].
    destruct (_ =? _)%nat; discriminate.
  - run_thread. destruct l as [? ? [|n]]; [done|].
    destruct mk; [|done].
    destruct (String.eqb f "mp3" && ff), wr as [|[]], fm as [|[]]; done.
Qed.

(** While the flag is set the thread stays in its loop or leaves it by
    the exhaustion of the pipeline or by an exception. *)
Lemma thread_step_flag ext w :
  Generation.thread w <> Generation.Ended ->
  Generation.thread (Generation.thread_step ext w) <> Generation.Ended ->
  KokoroTTS.is_processing (Generation.app (Generation.thread_step ext w))
  = KokoroTTS.is_processing (Generation.app w).
Proof.
  destruct w as [a fs loaded pc], a as [v ? f ? ? ? ? ff ? proc ?],
    ext as [pok nxt mk wr fm].
  destruct pc as [|l|l|]; [| | |done]; intros _.
  - run_thread. destruct v; [done|].
    destruct loaded; [done|]. destruct pok; done.
  - run_thread. destruct nxt; [|done|done].
    destruct proc; [|done]. by destruct (_ =? _)%nat.
  - run_thread. destruct l as [? ? [|n]]; [done|].
    destruct mk; [|done].
    destruct (String.eqb f "mp3" && ff), wr as [|[]], fm as [|[]]; done.
Qed.

(** The lines after the loop, every external call succeeding. *)
Lemma finish_succeeds ext l w :
  (0 < Generation.segment_count l)%nat ->
  all_succeed ext ->
  let a := Generation.app w in
  let dir := KokoroTTS.output_path a in
  let to_mp3 := String.eqb (KokoroTTS.output_format a) "mp3"
                && KokoroTTS.has_ffmpeg a in
  let name := Generation.output_name (KokoroTTS.selected_voice a)
                (Generation.segment_count l)
                (if to_mp3 then ".mp3" else ".wav") in
  let w' := Generation.finish ext l w in
  Generation.files w'
  = (if to_mp3
     then (Generation.files w ∪ {[(dir, Generation.temp_wav)]}
             ∪ {[(dir, name)]}) ∖ {[(dir, Generation.temp_wav)]}
     else Generation.files w ∪ {[(dir, name)]})
  /\ KokoroTTS.log_messages (Generation.app w')
     = KokoroTTS.log_messages a
         ++ [("INFO", "Concatenating audio segments...");
             ("INFO", "Generated samples at 24kHz")]
         ++ (if to_mp3 then [("INFO", "Converting to MP3...")] else [])
         ++ [("INFO", "[SUCCESS] Audio saved: " +:+ name);
             ("INFO", "  Duration"); ("INFO", "  File size")].
Proof.
  intros Hcount (Hmk & Hwr & Hfm).
  destruct w as [a fs loaded pc], a as [v ? f ? ? ? ? ff ? proc msgs],
    ext as [pok nxt mk wr fm], l as [? ? [|n]]; [simpl in Hcount; lia|].
  simpl in Hmk, Hwr, Hfm. subst mk wr fm.
  run_thread.
  destruct (String.eqb f "mp3" && ff); run_thread;
    repeat rewrite <- app_assoc; split; reflexivity.
Qed.

(** The lines after the loop when the ffmpeg process fails. *)
Lemma finish_ffmpeg_fails ext l w partial_file :
  (0 < Generation.segment_count l)%nat ->
  Generation.mkdir_ok ext = true ->
  Generation.write ext = Generation.WriteOk ->
  Generation.ffmpeg ext = Generation.FfmpegRaises partial_file ->
  KokoroTTS.output_format (Generation.app w) = "mp3" ->
  KokoroTTS.has_ffmpeg (Generation.app w) = true ->
  let a := Generation.app w in
  let dir := KokoroTTS.output_path a in
  let w' := Generation.finish ext l w in
  Generation.files w'
  = (if partial_file
     then Generation.files w ∪ {[(dir, Generation.temp_wav)]}
            ∪ {[(dir, Generation.output_name (KokoroTTS.selected_voice a)
                        (Generation.segment_count l) ".mp3")]}
     else Generation.files w ∪ {[(dir, Generation.temp_wav)]})
  /\ KokoroTTS.log_messages (Generation.app w')
     = KokoroTTS.log_messages a
         ++ [("INFO", "Concatenating audio segments...");
             ("INFO", "Generated samples at 24kHz");
             ("INFO", "Converting to MP3...")]
         ++ error_lines
  /\ Generation.thread w' = Generation.Ended
  /\ KokoroTTS.is_processing (Generation.app w') = false.
Proof.
  intros Hcount Hmk Hwr Hfm Hf Hff.
  destruct w as [a fs loaded pc], a as [v ? f ? ? ? ? ff ? proc msgs],
    ext as [pok nxt mk wr fm], l as [? ? [|n]]; [simpl in Hcount; lia|].
  simpl in Hmk, Hwr, Hfm, Hf, Hff. subst mk wr fm f ff.
  run_thread. cbn [String.eqb Ascii.eqb Bool.eqb andb].
  destruct partial_file; run_thread; repeat rewrite <- app_assoc;
    repeat split; reflexivity.
Qed.

(** X20.  Stop pressed during a generation does not discard it: at its
    next turn the loop is left without another segment being taken, and
    the lines after the loop run as after a complete generation.  With
    segments already counted the audio is written, under the name of the
    voice selected at that moment and the number of segments counted,
    and success is logged; with none counted the generation ends in the
    error "No audio generated" and writes nothing.  Either way the flag
    is clear and the thread has ended after two steps. *)
Theorem stop_keeps_the_audio_generated_so_far (w : Generation.World)
    (l : Generation.Locals) (ext1 ext2 : Generation.Externals) :
  Generation.thread w = Generation.InLoop l ->
  KokoroTTS.is_processing (Generation.app w) = false ->
  Generation.next_segment ext1 <> Generation.PipelineRaises ->
  let w1 := Generation.thread_step ext1 w in
  let w2 := Generation.thread_step ext2 w1 in
  w1 = Generation.goto (Generation.AfterLoop l) w
  /\ Generation.thread w2 = Generation.Ended
  /\ KokoroTTS.is_processing (Generation.app w2) = false
  /\ (Generation.segment_count l = 0%nat ->
      Generation.files w2 = Generation.files w
      /\ KokoroTTS.log_messages (Generation.app w2)
         = KokoroTTS.log_messages (Generation.app w) ++ error_lines)
  /\ ((0 < Generation.segment_count l)%nat ->
      all_succeed ext2 ->
      match KokoroTTS.output_plan (Generation.segment_count l)
              (Generation.app w) with
      | KokoroTTS.EncodeMp3 name | KokoroTTS.WriteWav name =>
          ((KokoroTTS.output_path (Generation.app w), name)
             ∈ Generation.files w2)
          /\ ("INFO", "[SUCCESS] Audio saved: " +:+ name)
               ∈ KokoroTTS.log_messages (Generation.app w2)
      end).
Proof.
  intros Hpc Hstop Hnext w1 w2.
  assert (Hw1 : w1 = Generation.goto (Generation.AfterLoop l) w).
  { unfold w1, Generation.thread_step, Generation.turn. rewrite Hpc, Hstop.
    by destruct (Generation.next_segment ext1). }
  assert (Hw2 : w2 = Generation.finish ext2 l w1).
  { unfold w2, Generation.thread_step. by rewrite Hw1. }
  split; [exact Hw1|].
  assert (Hend : Generation.thread w2 = Generation.Ended).
  { rewrite Hw2, Hw1. clear.
    destruct w as [a fs loaded pc], a as [v ? f ? ? ? ? ff ? proc ?],
      ext2 as [pok nxt mk wr fm], l as [? ? [|n]]; run_thread; [done|].
    destruct mk; [|done].
    destruct (String.eqb f "mp3" && ff), wr as [|[]], fm as [|[]]; done. }
  split; [exact Hend|]. split.
  { apply thread_step_ended; [exact Hend|]. by rewrite Hw1. }
  split.
  - intros Hzero. rewrite Hw2, Hw1. unfold Generation.finish. rewrite Hzero.
    clear. destruct w as [a fs loaded pc], a. run_thread.
    split; [reflexivity|]. by rewrite <- app_assoc.
  - intros Hcount Hok.
    destruct (finish_succeeds ext2 l w1 Hcount Hok) as [Hfiles Hlog].
    rewrite <- Hw2 in Hfiles, Hlog. rewrite Hw1 in Hfiles, Hlog.
    cbn [Generation.app Generation.goto Generation.files] in Hfiles, Hlog.
    unfold KokoroTTS.output_plan, Generation.output_name in *.
    destruct (String.eqb (KokoroTTS.output_format (Generation.app w)) "mp3"
              && KokoroTTS.has_ffmpeg (Generation.app w)).
    + rewrite Hfiles, Hlog. split.
      * apply elem_of_difference. split; [set_unfold; tauto|].
        rewrite elem_of_singleton. intros [=].
      * set_unfold. tauto.
    + rewrite Hfiles, Hlog. split; set_unfold; tauto.
Qed.

(** X21.  The files of a generation whose audio is written.  Every
    external call succeeding, exactly one file is added to the output
    folder, named after the voice selected when the loop was left and
    the number of segments, and the temporary WAV file of the MP3 branch
    is not on disk afterwards.  When the ffmpeg process fails, the
    temporary WAV file is left in the output folder (no clean-up follows
    the error), the error is logged, the flag is cleared and the thread
    ends. *)
Theorem generation_files (w : Generation.World) (l : Generation.Locals)
    (ext : Generation.Externals) :
  Generation.thread w = Generation.AfterLoop l ->
  (0 < Generation.segment_count l)%nat ->
  Generation.mkdir_ok ext = true ->
  Generation.write ext = Generation.WriteOk ->
  let a := Generation.app w in
  let dir := KokoroTTS.output_path a in
  let w' := Generation.thread_step ext w in
  (Generation.ffmpeg ext = Generation.FfmpegOk ->
   exists name,
     (KokoroTTS.output_plan (Generation.segment_count l) a
      = KokoroTTS.EncodeMp3 name
      \/ KokoroTTS.output_plan (Generation.segment_count l) a
         = KokoroTTS.WriteWav name)
     /\ ((dir, name) ∈ Generation.files w')
     /\ (forall file,
           file <> (dir, name) ->
           file ∈ Generation.files w' ->
           file ∈ Generation.files w)
     /\ (forall name',
           KokoroTTS.output_plan (Generation.segment_count l) a
           = KokoroTTS.EncodeMp3 name' ->
           (dir, Generation.temp_wav) ∉ Generation.files w'))
  /\ (forall partial_file,
        Generation.ffmpeg ext = Generation.FfmpegRaises partial_file ->
        KokoroTTS.output_format a = "mp3" ->
        KokoroTTS.has_ffmpeg a = true ->
        ((dir, Generation.temp_wav) ∈ Generation.files w')
        /\ Generation.thread w' = Generation.Ended
        /\ KokoroTTS.is_processing (Generation.app w') = false
        /\ exists earlier,
             KokoroTTS.log_messages (Generation.app w')
             = earlier ++ error_lines).
Proof.
  intros Hpc Hcount Hmk Hwr a dir w'.
  assert (Hw' : w' = Generation.finish ext l w).
  { unfold w', Generation.thread_step. by rewrite Hpc. }
  split.
  - intros Hfm.
    destruct (finish_succeeds ext l w Hcount (conj Hmk (conj Hwr Hfm)))
      as [Hfiles _].
    rewrite <- Hw' in Hfiles. fold a dir in Hfiles.
    unfold KokoroTTS.output_plan, Generation.output_name in *.
    destruct (String.eqb (KokoroTTS.output_format a) "mp3"
              && KokoroTTS.has_ffmpeg a);
      eexists; (split; [first [left; reflexivity|right; reflexivity]|]);
      rewrite Hfiles.
    + split; [|split].
      * apply elem_of_difference. split; [set_unfold; tauto|].
        rewrite elem_of_singleton. intros [=].
      * intros file Hne Hin. set_unfold. tauto.
      * intros _ _. set_unfold. tauto.
    + split; [|split].
      * set_unfold. tauto.
      * intros file Hne Hin. set_unfold. tauto.
      * intros name' [=].
  - intros partial_file Hfm Hf Hff.
    destruct (finish_ffmpeg_fails ext l w partial_file Hcount Hmk Hwr Hfm Hf Hff)
      as (Hfiles & Hlog & Hend & Hflag).
    rewrite <- Hw' in Hfiles, Hlog, Hend, Hflag. fold a dir in Hfiles, Hlog.
    split; [|split; [exact Hend|split; [exact Hflag|]]].
    + rewrite Hfiles. destruct partial_file; set_unfold; tauto.
    + eexists. rewrite Hlog, app_assoc. reflexivity.
Qed.

Section GenerationProperties.

Variable py_strip : string -> string.

Abbreviation gen_exec := (Generation.exec py_strip).

Lemma widget_keeps_flag o w w' :
  Generation.widget py_strip o w = Some w' ->
  (Generation.thread w = Generation.Ended ->
   KokoroTTS.is_processing (Generation.app w) = false) ->
  (Generation.thread w' = Generation.Ended ->
   KokoroTTS.is_processing (Generation.app w') = false).
Proof.
  intros Hstep Hinv.
  destruct o; cbn -[String.eqb KokoroTTS.KOKORO_VOICES KokoroTTS.LOG_LEVELS]
    in Hstep;
    try (injection Hstep as <-;
         cbn -[String.eqb KokoroTTS.KOKORO_VOICES KokoroTTS.LOG_LEVELS];
         repeat match goal with
                | |- context [bool_decide ?P] => destruct (bool_decide P)
                | |- context [Qle_bool ?x ?y] => destruct (Qle_bool x y)
                | |- context [if KokoroTTS.has_ffmpeg ?a then _ else _] =>
                    destruct (KokoroTTS.has_ffmpeg a)
                end; cbn; solve [auto]).
  destruct (KokoroTTS.is_processing (Generation.app w)) eqn:Hproc;
    cbn -[String.eqb] in Hstep.
  - injection Hstep as <-. cbn. rewrite Hproc. exact Hinv.
  - destruct (String.eqb (py_strip (KokoroTTS.text_input (Generation.app w))) "");
      cbn in Hstep; rewrite ?Hproc in Hstep; cbn in Hstep.
    + injection Hstep as <-. cbn. rewrite Hproc. exact Hinv.
    + destruct (Generation.thread w); try discriminate Hstep.
      injection Hstep as <-. cbn. discriminate.
Qed.

(** X22.  The Play button is never left refused for good: after any
    schedule of widget callbacks and thread steps, when no generation
    thread is alive the flag [is_processing] is clear, however the
    generation ended. *)
Theorem play_is_never_left_refused (sched : list Generation.Event)
    (w w' : Generation.World) :
  Generation.thread w = Generation.Ended ->
  KokoroTTS.is_processing (Generation.app w) = false ->
  gen_exec sched w = Some w' ->
  Generation.thread w' = Generation.Ended ->
  KokoroTTS.is_processing (Generation.app w') = false.
Proof.
  intros Hpc Hflag.
  assert (Hinv : Generation.thread w = Generation.Ended ->
                 KokoroTTS.is_processing (Generation.app w) = false) by done.
  clear Hpc Hflag. revert w Hinv.
  induction sched as [|e sched IH]; intros w Hinv Hex; simpl in Hex.
  - by injection Hex as <-.
  - destruct e as [o|ext]; simpl in Hex.
    + destruct (Generation.widget py_strip o w) as [w1|] eqn:Hw; [|done].
      apply (IH w1); [|done]. by apply (widget_keeps_flag o w).
    + apply (IH (Generation.thread_step ext w)); [|done].
      intros Hend.
      destruct (Generation.thread w) eqn:Hpc;
        try (apply thread_step_ended; [done|by rewrite Hpc]).
      unfold Generation.thread_step in *. rewrite Hpc in *. auto.
Qed.

End GenerationProperties.

(** Stop after three segments of a WAV generation. *)
Lemma stop_keeps_the_audio_generated_so_far_witness :
  let w := mid_generation "wav" false 3 in
  let w2 := Generation.thread_step smooth (Generation.thread_step smooth w) in
  Generation.thread w2 = Generation.Ended
  /\ (("/home/u/audio", "kokoro_af_sky_3.wav") ∈ Generation.files w2).
Proof.
  intros w w2.
  destruct (stop_keeps_the_audio_generated_so_far w
              {| Generation.voice := "af_sky"; Generation.speed_read := 3 # 2;
                 Generation.segment_count := 3 |} smooth smooth
              eq_refl eq_refl ltac:(discriminate))
    as (_ & Hend & _ & _ & Hfile).
  split; [exact Hend|].
  exact (proj1 (Hfile ltac:(simpl; lia)
                  (conj eq_refl (conj eq_refl eq_refl)))).
Defined.

(** An MP3 generation whose ffmpeg process fails. *)
Lemma generation_files_witness :
  let l := {| Generation.voice := "af_sky"; Generation.speed_read := 3 # 2;
              Generation.segment_count := 2 |} in
  let w := Generation.goto (Generation.AfterLoop l) (mid_generation "mp3" true 2) in
  let w' := Generation.thread_step ffmpeg_fails w in
  (("/home/u/audio", "temp_kokoro_output.wav") ∈ Generation.files w')
  /\ Generation.thread w' = Generation.Ended
  /\ KokoroTTS.is_processing (Generation.app w') = false.
Proof.
  intros l w w'.
  destruct (generation_files w l ffmpeg_fails eq_refl
              ltac:(simpl; lia) eq_refl eq_refl) as [_ Hfail].
  destruct (Hfail false eq_refl eq_refl eq_refl) as (Htemp & Hend & Hflag & _).
  split; [exact Htemp|]. split; [exact Hend|exact Hflag].
Defined.

(** Two generations, the second ending in a failure of ffmpeg. *)
Lemma play_is_never_left_refused_witness :
  exists w',
    Generation.exec plain_strip play_twice (studio "mp3") = Some w'
    /\ Generation.thread w' = Generation.Ended
    /\ KokoroTTS.is_processing (Generation.app w') = false.
Proof.
  destruct (Generation.exec plain_strip play_twice (studio "mp3"))
    as [w'|] eqn:Hex; [|vm_compute in Hex; discriminate Hex].
  exists w'. split; [reflexivity|].
  assert (Hend : Generation.thread w' = Generation.Ended).
  { vm_compute in Hex. injection Hex as <-. reflexivity. }
  split; [exact Hend|].
  exact (play_is_never_left_refused plain_strip play_twice (studio "mp3") w'
           eq_refl eq_refl Hex Hend).
Defined.

(** ** What a scan queues *)

(** X23.  "Find PDFs" queues every PDF of the folder: after it, every
    file met by the walk whose name ends in ".pdf" (in any case of the
    letters) has a row with its path, and that row is "Pending" when the
    path was not in the queue before (so a job deleted from the list
    comes back as "Pending", whatever its status was). *)
Theorem find_pdfs_queues_every_pdf (directory : string)
    (walk : list (string * list string)) (a : App)
    (root_dir : string) (files : list string) (file : string) :
  directory <> "" ->
  (root_dir, files) ∈ walk ->
  file ∈ files ->
  endswith (lower file) ".pdf" = true ->
  exists item,
    item ∈ pdf_queue (find_pdfs directory walk a)
    /\ path item = os_path_join root_dir file
    /\ (os_path_join root_dir file ∉ path <$> pdf_queue a ->
        status item = "Pending").
Proof.
  intros Hdir Hroot Hfile Hpdf. apply String.eqb_neq in Hdir.
  pose proof (scan_covers walk (pdf_queue a, 0%nat) root_dir files file
                Hroot Hfile Hpdf) as Hin.
  destruct (scan_appends walk (pdf_queue a, 0%nat)) as (added & Hq & _ & Hall).
  assert (Hqueue : pdf_queue (find_pdfs directory walk a)
                   = pdf_queue a ++ added).
  { unfold find_pdfs. rewrite Hdir. by destruct (0 <? _)%nat. }
  rewrite Hq in Hin. cbn [fst] in Hin.
  apply in_queue_elem_of, list_elem_of_fmap in Hin as (item & Hpath & Hitem).
  exists item. rewrite Hqueue. split; [done|]. split; [done|].
  intros Hnew. apply elem_of_app in Hitem as [Hold|Hadded].
  - exfalso. apply Hnew. rewrite Hpath. by apply list_elem_of_fmap_2.
  - rewrite Forall_forall in Hall. by destruct (Hall item Hadded).
Qed.

(** A completed job is deleted from the list and its folder is scanned
    again: the job is back, as "Pending". *)
Lemma find_pdfs_queues_every_pdf_witness :
  let walk := [("/docs", ["c.pdf"; "notes.txt"])] in
  exists a' item,
    QueueOps.delete_selected_pdfs [0%nat] true (ready [job_done]) = (a', None)
    /\ (item ∈ pdf_queue (find_pdfs "/docs" walk a'))
    /\ path item = "/docs/c.pdf"
    /\ status item = "Pending".
Proof.
  intros walk.
  destruct (QueueOps.delete_selected_pdfs [0%nat] true (ready [job_done]))
    as [a' e] eqn:Hdel.
  assert (Hq : pdf_queue a' = [] /\ e = None).
  { vm_compute in Hdel. by injection Hdel as <- <-. }
  destruct Hq as [Hq ->].
  destruct (find_pdfs_queues_every_pdf "/docs" walk a' "/docs"
              ["c.pdf"; "notes.txt"] "c.pdf")
    as (item & Hin & Hpath & Hstatus).
  - discriminate.
  - apply list_elem_of_here.
  - apply list_elem_of_here.
  - reflexivity.
  - exists a', item. split; [reflexivity|]. split; [exact Hin|].
    split; [exact Hpath|]. apply Hstatus. rewrite Hq. apply not_elem_of_nil.
Defined.

(** ** One generation at a time *)

Section OneGeneration.

Variable py_strip : string -> string.

Lemma thread_step_one_generation ext w :
  (KokoroTTS.is_processing (Generation.app w) = true
   <-> Generation.thread w <> Generation.Ended) ->
  (KokoroTTS.is_processing (Generation.app (Generation.thread_step ext w)) = true
   <-> Generation.thread (Generation.thread_step ext w) <> Generation.Ended).
Proof.
  intros Hinv.
  destruct (Generation.thread w) eqn:Hpc;
    [| | |replace (Generation.thread_step ext w) with w
            by (unfold Generation.thread_step; by rewrite Hpc);
          by rewrite Hpc];
    (assert (Halive : Generation.thread w <> Generation.Ended)
       by (rewrite Hpc; discriminate));
    (assert (Hflag : KokoroTTS.is_processing (Generation.app w) = true)
       by (apply Hinv; discriminate));
    (destruct (Generation.thread (Generation.thread_step ext w)) eqn:Hpc';
     [rewrite (thread_step_flag ext w Halive) by (rewrite Hpc'; discriminate);
      split; [discriminate|done] ..
     |rewrite (thread_step_ended ext w Hpc' Halive); split; [discriminate|done]]).
Qed.

Lemma widget_one_generation o w :
  is_click_stop (Generation.Ui o) = false ->
  (KokoroTTS.is_processing (Generation.app w) = true
   <-> Generation.thread w <> Generation.Ended) ->
  exists w',
    Generation.widget py_strip o w = Some w'
    /\ (KokoroTTS.is_processing (Generation.app w') = true
        <-> Generation.thread w' <> Generation.Ended).
Proof.
  intros Ho Hinv.
  destruct o; simpl in Ho; try discriminate Ho;
    cbn -[String.eqb KokoroTTS.KOKORO_VOICES KokoroTTS.LOG_LEVELS];
    try (eexists; split; [reflexivity|];
         cbn -[String.eqb KokoroTTS.KOKORO_VOICES KokoroTTS.LOG_LEVELS];
         repeat match goal with
                | |- context [bool_decide ?P] => destruct (bool_decide P)
                | |- context [Qle_bool ?x ?y] => destruct (Qle_bool x y)
                | |- context [if KokoroTTS.has_ffmpeg ?a then _ else _] =>
                    destruct (KokoroTTS.has_ffmpeg a)
                end; cbn; exact Hinv).
  destruct (KokoroTTS.is_processing (Generation.app w)) eqn:Hproc;
    cbn -[String.eqb].
  - eexists. split; [reflexivity|]. cbn. by rewrite Hproc.
  - destruct (String.eqb (py_strip (KokoroTTS.text_input (Generation.app w))) "");
      cbn; rewrite ?Hproc; cbn.
    + eexists. split; [reflexivity|]. cbn. by rewrite Hproc.
    + destruct (Generation.thread w) eqn:Hpc;
        try (assert (false = true) by (apply Hinv; discriminate); discriminate).
      eexists. split; [reflexivity|]. cbn. split; [discriminate|done].
Qed.

(** X24.  As long as Stop is not pressed there is one generation at a
    time: from a state with no thread, every schedule of widget callbacks
    (Play included, at any moment) and thread steps can be executed
    without a second thread being started, and [is_processing] is set
    exactly while the thread is alive. *)
Theorem play_starts_one_generation_unless_stopped
    (sched : list Generation.Event) (w : Generation.World) :
  Generation.thread w = Generation.Ended ->
  KokoroTTS.is_processing (Generation.app w) = false ->
  forallb (fun e => negb (is_click_stop e)) sched = true ->
  exists w',
    Generation.exec py_strip sched w = Some w'
    /\ (KokoroTTS.is_processing (Generation.app w') = true
        <-> Generation.thread w' <> Generation.Ended).
Proof.
  intros Hpc Hflag Hs.
  assert (Hinv : KokoroTTS.is_processing (Generation.app w) = true
                 <-> Generation.thread w <> Generation.Ended).
  { rewrite Hpc, Hflag. split; [discriminate|done]. }
  clear Hpc Hflag. revert w Hinv.
  induction sched as [|e sched IH]; intros w Hinv; simpl in Hs |- *.
  - by exists w.
  - apply andb_true_iff in Hs as [He Hs]. apply negb_true_iff in He.
    destruct e as [o|ext]; simpl.
    + destruct (widget_one_generation o w He Hinv) as (w1 & -> & Hinv1).
      by apply IH.
    + apply IH; [done|]. by apply thread_step_one_generation.
Qed.

End OneGeneration.

(** Play pressed again during a generation and after it. *)
Lemma play_starts_one_generation_unless_stopped_witness :
  exists w',
    Generation.exec plain_strip play_again (studio "wav") = Some w'
    /\ (KokoroTTS.is_processing (Generation.app w') = true
        <-> Generation.thread w' <> Generation.Ended).
Proof.
  exact (play_starts_one_generation_unless_stopped plain_strip play_again
           (studio "wav") eq_refl eq_refl eq_refl).
Defined.
